(** * winwin-cli skills: resolution, remote listing, download and catalog

    A shallow embedding of [src/winwin_cli/skills/cli.py].  Python strings are
    modelled by [string] (sequences of 8-bit characters), tuples by products,
    [Optional[str]] by [option string], exceptions by the [result] type, and
    calls to [click.echo] by a structured log carried in the state.  The
    network, the environment, the YAML loader and the base64 decoder are
    fields of a [world]; the thread pool is a step relation.  The values of
    the JSON keys the module reads are taken to be strings, and
    [shutil.rmtree] to succeed.  The values of the metadata keys are strings
    or other objects ([pyval]): the YAML loader also hands out numbers,
    booleans, dates, nulls and lists. *)

From Stdlib Require Import String Ascii List Bool Arith ZArith Lia Permutation Sorted.
Import ListNotations.
Open Scope string_scope.

(** ** Python string and list primitives used by the module *)

Module Py.

(** [s.startswith(p)] *)
Definition startswith (p s : string) : bool := String.prefix p s.

(** [sub in s] *)
Fixpoint contains (sub s : string) : bool :=
  String.prefix sub s ||
  match s with
  | EmptyString => false
  | String _ s' => contains sub s'
  end.

(** [maxsplit] bookkeeping of [str.split]: [None] is "no limit". *)
Definition can_split (budget : option nat) : bool :=
  match budget with
  | Some O => false
  | _ => true
  end.

Definition spend (budget : option nat) : option nat :=
  match budget with
  | Some (S k) => Some k
  | b => b
  end.

(** [str.split(sep, maxsplit)] for a non-empty [sep], scanning left to right.
    [cur] is the segment read so far and [skip] counts the characters of a
    separator that was just matched and still has to be passed over. *)
Fixpoint split_go (sep : string) (budget : option nat) (skip : nat) (cur s : string)
  : list string :=
  match s with
  | EmptyString => [cur]
  | String c s' =>
      match skip with
      | S k => split_go sep budget k cur s'
      | O =>
          if can_split budget && String.prefix sep s
          then cur :: split_go sep (spend budget) (String.length sep - 1) "" s'
          else split_go sep budget 0 (cur ++ String c "") s'
      end
  end.

(** [s.split(sep)] *)
Definition split (sep s : string) : list string := split_go sep None 0 "" s.

(** [s.split(sep, n)] *)
Definition splitn (sep : string) (n : nat) (s : string) : list string :=
  split_go sep (Some n) 0 "" s.

(** [sep.join(l)] *)
Definition join (sep : string) (l : list string) : string := String.concat sep l.

(** [s.replace(old, new)] for a non-empty [old]: every non-overlapping
    occurrence, left to right. *)
Fixpoint replace_go (old new : string) (skip : nat) (s : string) : string :=
  match s with
  | EmptyString => EmptyString
  | String c s' =>
      match skip with
      | S k => replace_go old new k s'
      | O =>
          if String.prefix old s
          then new ++ replace_go old new (String.length old - 1) s'
          else String c (replace_go old new 0 s')
      end
  end.

Definition replace (old new s : string) : string := replace_go old new 0 s.

(** [s.lower()] for a text whose letters are all ASCII; the lower-casing of
    arbitrary text is a field of the [world]. *)
Definition lower_ascii (c : ascii) : ascii :=
  let n := nat_of_ascii c in
  if Nat.leb 65 n && Nat.leb n 90 then ascii_of_nat (n + 32) else c.

Fixpoint lower (s : string) : string :=
  match s with
  | EmptyString => EmptyString
  | String c s' => String (lower_ascii c) (lower s')
  end.

(** Truth value of a string and of an [Optional[str]]. *)
Definition truthy (s : string) : bool := negb (s =? "").

Definition truthy_opt (o : option string) : bool :=
  match o with
  | Some s => truthy s
  | None => false
  end.

(** The value tested by [if x:] when it passes the test. *)
Definition if_truthy (o : option string) : option string :=
  match o with
  | Some s => if truthy s then Some s else None
  | None => None
  end.

(** [a or b] where [a : Optional[str]] and [b : str]. *)
Definition or_else (a : option string) (b : string) : string :=
  match a with
  | Some s => if truthy s then s else b
  | None => b
  end.

(** [l[-1]] and [l[:-1]] on the (never empty) result of a split. *)
Definition last_seg (l : list string) : string := List.last l "".
Definition but_last (l : list string) : list string := List.removelast l.

End Py.

(** ** Exceptions *)

Inductive exn : Type :=
| ValueError          (* tuple unpacking of a list of the wrong length *)
| KeyError            (* [d[k]] on a missing key *)
| AttributeError      (* [.get] on something that is not a dict *)
| RecursionError      (* interpreter recursion limit reached *)
| ConnectionError     (* [requests.get] could not reach the server or timed out *)
| HTTPError           (* [raise_for_status] on a 4xx/5xx response *)
| JSONDecodeError     (* [response.json()] on a body that is not JSON *)
| YAMLError           (* [yaml.safe_load] on a malformed document *)
| OSError             (* local file system failure *)
| TypeError.          (* an object that is not a string where only a string will do *)

(** [isinstance(e, requests.exceptions.RequestException)] *)
Definition is_request_exception (e : exn) : bool :=
  match e with
  | ConnectionError | HTTPError | JSONDecodeError => true
  | _ => false
  end.

Inductive result (A : Type) : Type :=
| Ok (a : A)
| Raise (e : exn).
Arguments Ok {A} a.
Arguments Raise {A} e.

Definition bind {A B : Type} (m : result A) (k : A -> result B) : result B :=
  match m with
  | Ok a => k a
  | Raise e => Raise e
  end.

Notation "'let?' x := m 'in' k" := (bind m (fun x => k))
  (at level 10, x pattern, m at level 100, k at level 200).

(** [a, b = l] *)
Definition unpack2 (l : list string) : result (string * string) :=
  match l with
  | [a; b] => Ok (a, b)
  | _ => Raise ValueError
  end.

(** ** Spec resolution: the first half of [_resolve_and_download_skill] *)

(** The one environment variable the module reads, [WINWIN_SKILLS_REPO];
    [None] when it is not set. *)
Definition environ := option string.

Definition _get_default_skills_repo (env : environ) : string :=
  match env with
  | Some v => v
  | None => "heibaibufen/winwin-skills"
  end.

Record FetchTarget : Type := mkTarget {
  t_owner : string;
  t_repo : string;
  t_path : string;
  t_ref : string
}.

Definition github_prefix : string := "https://github.com/".

(** Lines 335-369: the values of [owner], [repo], [skill_path] and [ref] when
    control reaches the call of [_download_skill_from_github], or the
    exception raised before that. *)
Definition resolve (env : environ) (skill_spec ref0 : string)
    (repo_override : option string) : result FetchTarget :=
  if Py.startswith github_prefix skill_spec then
    let parts := Py.split "/tree/" (Py.replace github_prefix "" skill_spec) in
    let repo_path := hd "" parts in
    let '(ref1, skill_name, repo_path1) :=
      match tl parts with
      | p1 :: _ =>
          (hd "" (Py.split "/" p1), Py.join "/" (tl (Py.split "/" p1)), repo_path)
      | [] =>
          (ref0, Py.last_seg (Py.split "/" repo_path),
           Py.join "/" (Py.but_last (Py.split "/" repo_path)))
      end in
    let? (o, r) := unpack2 (Py.split "/" repo_path1) in
    Ok (mkTarget o r skill_name ref1)
  else if Py.contains "/" skill_spec then
    let parts := Py.split "/" skill_spec in
    if Nat.leb 3 (length parts) then
      Ok (mkTarget (nth 0 parts "") (nth 1 parts "") (Py.join "/" (skipn 2 parts)) ref0)
    else
      match Py.if_truthy repo_override with
      | Some override =>
          let? (o, r) := unpack2 (Py.split "/" override) in
          Ok (mkTarget o r skill_spec ref0)
      | None =>
          let default_repo := _get_default_skills_repo env in
          let? (o, r) := unpack2 (Py.split "/" default_repo) in
          Ok (mkTarget o r skill_spec ref0)
      end
  else
    let default_repo := Py.or_else repo_override (_get_default_skills_repo env) in
    let? (o, r) := unpack2 (Py.split "/" default_repo) in
    Ok (mkTarget o r skill_spec ref0).


(** ** The remote API, the local file system and the log *)

(** A JSON object of the contents API, with the keys the module reads.  A
    field is [None] when the key is absent; for the keys read with [get]
    that is also how a [null] reads.  The keys read by subscript ([name],
    [url]) hold strings where the API gives them: a [null] there is outside
    what these objects describe. *)
Record jobj : Type := mkObj {
  j_type : option string;
  j_name : option string;
  j_path : option string;
  j_download_url : option string;
  j_url : option string;
  j_message : option string;
  j_documentation_url : option string;
  j_encoding : option string;
  j_content : option string
}.

#[warnings="-register-all"]
Inductive json : Type :=
| JObj (o : jobj)
| JArr (l : list json)
| JOther.                 (* a string, a number, a boolean or null *)

(** What [requests.get] hands back: the status code and the body, [None] when
    the body does not decode as JSON. *)
Record response : Type := mkResp {
  status_code : nat;
  body : option json
}.

(** A raw file response: the status code and the bytes. *)
Record raw_response : Type := mkRaw {
  raw_status : nat;
  raw_content : string
}.

(** Local paths, by components.  [local_dir / name] appends one component,
    which is what pathlib does when [name] is one path segment (an absolute
    name or [..] would lead elsewhere): the statements about where a path
    lies take the names they join to be of that kind. *)
Definition path := list string.
Definition pjoin (d : path) (name : string) : path := (d ++ [name])%list.

(** An object that is not a string, as far as the module can tell it from
    another: its text [str(v)], its truth value, and whether [json.dumps]
    takes it (a number, a boolean or a null, but not a date). *)
Record pyobj : Type := mkPyObj {
  o_str : string;
  o_truthy : bool;
  o_json : bool
}.

(** A value of a metadata key. *)
Inductive pyval : Type :=
| PStr (s : string)
| PObj (o : pyobj).

Coercion PStr : string >-> pyval.

(** [str(v)], as an f-string shows [v]. *)
Definition py_str (v : pyval) : string :=
  match v with
  | PStr s => s
  | PObj o => o_str o
  end.

(** [bool(v)] *)
Definition py_truthy (v : pyval) : bool :=
  match v with
  | PStr s => Py.truthy s
  | PObj o => o_truthy o
  end.

(** Whether [json.dumps] takes [v]. *)
Definition py_json (v : pyval) : bool :=
  match v with
  | PStr _ => true
  | PObj o => o_json o
  end.

(** What [yaml.safe_load] returned, as far as the module tells the cases
    apart: [None] or another falsy value, a mapping, or a truthy value that
    is not a mapping (a string, a number, a list). *)
Inductive yaml : Type :=
| YNone
| YMap (m : list (string * pyval))
| YScalar.

(** One entry of the list [_list_github_skills] returns. *)
Record skill : Type := mkSkill {
  s_name : pyval;
  s_description : pyval;
  s_version : pyval;
  s_author : pyval;
  s_category : string;
  s_path : string
}.

(** Everything outside the module that its functions consult. *)
Record world : Type := mkWorld {
  environ_repo : environ;
  api_get : string -> string -> result response;   (* url, ref *)
  raw_get : string -> result raw_response;         (* url *)
  recursion_limit : nat;
  mkdtemp : list path -> path;
  writable : path -> bool;
  b64decode : string -> result string;
  safe_load : string -> result yaml;
  str_lower : string -> string;                    (* [s.lower()] *)
  (* [sorted(skills, key=...)] when it has to compare a name that is not a
     string: it raises, or returns the entries in some order *)
  sorted_objects : forall l : list skill, result {l' : list skill | Permutation l l'}
}.

(** [response.raise_for_status()] *)
Definition raise_for_status (status : nat) : result unit :=
  if Nat.leb 400 status && Nat.ltb status 600 then Raise HTTPError else Ok tt.

(** [response.json()] *)
Definition json_of (r : response) : result json :=
  match body r with
  | Some j => Ok j
  | None => Raise JSONDecodeError
  end.

(** The three lines [requests.get(url, params={"ref": ref})],
    [raise_for_status()], [json()] that open every listing. *)
Definition fetch_json (w : world) (ref0 url : string) : result json :=
  let? resp := api_get w url ref0 in
  let? _ := raise_for_status (status_code resp) in
  json_of resp.

(** One unit of download work: [(download_url, file_path, display_path)]. *)
Definition job : Type := string * path * string.

(** The messages written with [click.echo], in order of appearance in the
    source. *)
Inductive msg : Type :=
| ErrResolveFailed (e : exn)
| EchoDownloading (t : FetchTarget)
| EchoAnalyzing
| ErrNoFiles
| EchoFileCount (n : nat)
| EchoProgress (completed total : nat)
| ErrFileFailed (what : string)
| WarnFailedCount (failed : nat)
| WarnNoManifest
| ErrDownloadFailed (e : exn)
| WarnUnexpectedFormat
| ErrApiMessage (m : string)
| ErrApiDocumentation (u : string)
| WarnMetadata (category name : string) (e : exn)
| WarnSkill (category name : string) (e : exn)
| WarnCategory (category : string) (e : exn)
| ErrListFailed (e : exn)
| EchoTraceback (e : exn)
| ErrLookupFailed (e : exn).

Record state : Type := mkState {
  fs : list path;       (* the files and directories that exist *)
  log : list msg
}.

Definition echo (m : msg) (st : state) : state :=
  mkState (fs st) (log st ++ [m])%list.

Fixpoint is_prefix (d p : path) : bool :=
  match d, p with
  | [], _ => true
  | x :: d', y :: p' => (x =? y) && is_prefix d' p'
  | _ :: _, [] => false
  end.

Definition path_eqb (p q : path) : bool := is_prefix p q && is_prefix q p.

(** [p.exists()] *)
Definition exists_ (p : path) (l : list path) : bool := existsb (path_eqb p) l.

(** [shutil.rmtree(d, ignore_errors=True)]: [d] and everything below it. *)
Definition rmtree (d : path) (l : list path) : list path :=
  filter (fun p => negb (is_prefix d p)) l.

(** The non-empty prefixes of a path, shortest first. *)
Fixpoint inits (p : path) : list path :=
  match p with
  | [] => []
  | x :: p' => [x] :: map (cons x) (inits p')
  end.

(** [d.mkdir(parents=True, exist_ok=True)] *)
Definition mkdir_parents (d : path) (l : list path) : list path :=
  (l ++ inits d)%list.

(** ** Recursive listing: [_collect_files] *)

Definition is_kind (k : string) (o : jobj) : bool :=
  match j_type o with
  | Some t => t =? k
  | None => false
  end.

(** The loop [for item in items] of [_collect_files], over the list
    [files_to_download] of the enclosing function; [recurse] is the call of
    [_collect_files] itself on a subdirectory.  The list built so far is
    returned also when the loop raises. *)
Fixpoint collect_items
    (recurse : string -> path -> list job -> list job * result unit)
    (local_dir : path) (items : list json) (files_to_download : list job)
  : list job * result unit :=
  match items with
  | [] => (files_to_download, Ok tt)
  | JObj item :: rest =>
      if is_kind "file" item then
        match Py.if_truthy (j_download_url item) with
        | Some download_url =>
            match j_name item with
            | Some name =>
                let file_path := pjoin local_dir name in
                let display :=
                  match j_path item with Some p => p | None => name end in
                collect_items recurse local_dir rest
                  (files_to_download ++ [(download_url, file_path, display)])%list
            | None => (files_to_download, Raise KeyError)
            end
        | None => collect_items recurse local_dir rest files_to_download
        end
      else if is_kind "dir" item then
        match j_name item with
        | Some name =>
            let sub_dir := pjoin local_dir name in
            match j_url item with
            | Some url =>
                match recurse url sub_dir files_to_download with
                | (files, Ok _) => collect_items recurse local_dir rest files
                | (files, Raise e) => (files, Raise e)
                end
            | None => (files_to_download, Raise KeyError)
            end
        | None => (files_to_download, Raise KeyError)
        end
      else collect_items recurse local_dir rest files_to_download
  | _ :: _ => (files_to_download, Raise AttributeError)
  end.

(** [_collect_files(api_url, local_dir)]; [fuel] is the recursion depth
    still available to the interpreter. *)
Fixpoint _collect_files (w : world) (ref0 : string) (fuel : nat)
    (api_url : string) (local_dir : path) (files_to_download : list job)
  : list job * result unit :=
  match fuel with
  | O => (files_to_download, Raise RecursionError)
  | S fuel' =>
      match fetch_json w ref0 api_url with
      | Raise e => (files_to_download, Raise e)
      | Ok items =>
          let items := match items with JArr l => l | other => [other] end in
          collect_items (_collect_files w ref0 fuel') local_dir items files_to_download
      end
  end.

(** ** Concurrent download: [_download_file], the thread pool, the result loop *)

(** The text that stands for [str(e)] in the lines printed: exceptions are
    told apart by their class, and the message an exception carries is not
    part of the development. *)
Definition str_exn (e : exn) : string :=
  match e with
  | ValueError => "ValueError"
  | KeyError => "KeyError"
  | AttributeError => "AttributeError"
  | RecursionError => "RecursionError"
  | ConnectionError => "ConnectionError"
  | HTTPError => "HTTPError"
  | JSONDecodeError => "JSONDecodeError"
  | YAMLError => "YAMLError"
  | OSError => "OSError"
  | TypeError => "TypeError"
  end.

(** [_download_file(args)] run on the file system [l]: the pair it returns
    and the file system it leaves.  Every exception is caught inside. *)
Definition _download_file (w : world) (args : job) (l : list path)
  : (bool * string) * list path :=
  let '(download_url, file_path, display_path) := args in
  let failed e := (false, display_path ++ ": " ++ str_exn e) in
  match raw_get w download_url with
  | Raise e => (failed e, l)
  | Ok resp =>
      match raise_for_status (raw_status resp) with
      | Raise e => (failed e, l)
      | Ok _ =>
          let l1 := mkdir_parents (removelast file_path) l in
          if writable w file_path
          then ((true, display_path), (l1 ++ [file_path])%list)
          else (failed OSError, l1)
      end
  end.

(** What [_download_file(args)] returns; it does not depend on the state of
    the file system. *)
Definition outcome (w : world) (args : job) : bool * string :=
  fst (_download_file w args []).

(** Number of results of the form [(False, _)]. *)
Definition failures (results : list (bool * string)) : nat :=
  length (filter (fun r => negb (fst r)) results).

(** [ThreadPoolExecutor(max_workers=10)] *)
Definition max_workers : nat := 10.

(** The executor with every job submitted: the queue of jobs not yet
    started, the jobs held by a worker, the results in order of completion
    (what [as_completed] yields), and the file system. *)
Record pool : Type := mkPool {
  pending : list job;
  running : list job;
  done : list (bool * string);
  disk : list path
}.

Inductive pool_step (w : world) : pool -> pool -> Prop :=
| step_start : forall j rest run dn l,
    length run < max_workers ->
    pool_step w (mkPool (j :: rest) run dn l) (mkPool rest (run ++ [j]) dn l)
| step_finish : forall pend r1 j r2 dn l,
    pool_step w (mkPool pend (r1 ++ j :: r2) dn l)
      (mkPool pend (r1 ++ r2)
         (dn ++ [fst (_download_file w j l)]) (snd (_download_file w j l))).

Inductive pool_steps (w : world) : pool -> pool -> Prop :=
| steps_refl : forall p, pool_steps w p p
| steps_cons : forall p q r, pool_step w p q -> pool_steps w q r -> pool_steps w p r.

(** A complete run of the executor on [jobs]: leaving the [with] block waits
    until no job is queued or running. *)
Definition pool_runs (w : world) (jobs : list job) (l : list path)
    (results : list (bool * string)) (l' : list path) : Prop :=
  pool_steps w (mkPool jobs [] [] l) (mkPool [] [] results l').

(** The schedule in which the jobs run one after the other, in the order of
    submission. *)
Fixpoint run_in_order (w : world) (jobs : list job) (l : list path)
  : list (bool * string) * list path :=
  match jobs with
  | [] => ([], l)
  | j :: rest =>
      let '(r, l1) := _download_file w j l in
      let '(rs, l2) := run_in_order w rest l1 in
      (r :: rs, l2)
  end.

(** [completed % max(1, total // 10) == 0 or completed == total] *)
Definition progress_due (completed total : nat) : bool :=
  Nat.eqb (completed mod (Nat.max 1 (total / 10))) 0 || Nat.eqb completed total.

(** The loop [for future in as_completed(futures)] over the results in order
    of completion: the final [completed], [failed] and the lines printed. *)
Fixpoint report (total : nat) (results : list (bool * string))
    (completed failed : nat) (out : list msg) : nat * nat * list msg :=
  match results with
  | [] => (completed, failed, out)
  | (success, what) :: rest =>
      let completed := completed + 1 in
      if success then
        if progress_due completed total
        then report total rest completed failed (out ++ [EchoProgress completed total])
        else report total rest completed failed out
      else
        report total rest completed (failed + 1) (out ++ [ErrFileFailed what])
  end.

(** ** [_download_skill_from_github] *)

Definition api_base (owner repo skill_path : string) : string :=
  "https://api.github.com/repos/" ++ owner ++ "/" ++ repo ++ "/contents/" ++ skill_path.

Definition with_fs (l : list path) (st : state) : state := mkState l (log st).

(** Where the function stands once the listing is over: it has returned
    [None], or it is about to download [files] into [temp_dir]. *)
Inductive prepared : Type :=
| Aborted (st : state)
| Ready (temp_dir : path) (files : list job) (st : state).

(** Lines 389-427. *)
Definition download_prepare (w : world) (owner repo skill_path ref0 : string)
    (st : state) : prepared :=
  let temp_dir := mkdtemp w (fs st) in
  let st := with_fs (fs st ++ [temp_dir]) st in
  let st := echo EchoAnalyzing st in
  match _collect_files w ref0 (recursion_limit w)
          (api_base owner repo skill_path) temp_dir [] with
  | (_, Raise e) =>
      Aborted (echo (ErrDownloadFailed e) (with_fs (rmtree temp_dir (fs st)) st))
  | (files_to_download, Ok _) =>
      match files_to_download with
      | [] => Aborted (with_fs (rmtree temp_dir (fs st)) (echo ErrNoFiles st))
      | _ :: _ =>
          Ready temp_dir files_to_download
            (echo (EchoFileCount (length files_to_download)) st)
      end
  end.

(** Lines 452-472, given the results in order of completion. *)
Definition download_finish (temp_dir : path) (files_to_download : list job)
    (results : list (bool * string)) (st : state) : option path * state :=
  let '(_, failed, out) :=
    report (length files_to_download) results 0 0 (log st) in
  let st := mkState (fs st) out in
  let st := if Nat.ltb 0 failed then echo (WarnFailedCount failed) st else st in
  let st :=
    if exists_ (pjoin temp_dir "SKILL.md") (fs st) then st else echo WarnNoManifest st in
  (Some temp_dir, st).

Inductive _download_skill_from_github (w : world)
    (owner repo skill_path ref0 : string) (st : state)
  : option path * state -> Prop :=
| download_aborted : forall st',
    download_prepare w owner repo skill_path ref0 st = Aborted st' ->
    _download_skill_from_github w owner repo skill_path ref0 st (None, st')
| download_done : forall temp_dir files st1 results l2,
    download_prepare w owner repo skill_path ref0 st = Ready temp_dir files st1 ->
    pool_runs w files (fs st1) results l2 ->
    _download_skill_from_github w owner repo skill_path ref0 st
      (download_finish temp_dir files results (with_fs l2 st1)).

(** The handler of [_resolve_and_download_skill] (lines 377-381), for the
    value [temp_dir] has when the exception arrives. *)
Definition resolve_failed (e : exn) (temp_dir : option path) (st : state)
  : option path * state :=
  let st := echo (ErrResolveFailed e) st in
  match temp_dir with
  | Some d =>
      (None, if exists_ d (fs st) then with_fs (rmtree d (fs st)) st else st)
  | None => (None, st)
  end.

(** [_resolve_and_download_skill(skill_spec, ref, repo_override)].  Only the
    resolution can raise: [_download_skill_from_github] catches what happens
    inside it, so [temp_dir] is still [None] whenever the handler runs. *)
Inductive _resolve_and_download_skill (w : world)
    (skill_spec ref0 : string) (repo_override : option string) (st : state)
  : option path * state -> Prop :=
| resolve_raised : forall e,
    resolve (environ_repo w) skill_spec ref0 repo_override = Raise e ->
    _resolve_and_download_skill w skill_spec ref0 repo_override st
      (resolve_failed e None st)
| resolve_ok : forall t out,
    resolve (environ_repo w) skill_spec ref0 repo_override = Ok t ->
    _download_skill_from_github w (t_owner t) (t_repo t) (t_path t) (t_ref t)
      (echo (EchoDownloading t) st) out ->
    _resolve_and_download_skill w skill_spec ref0 repo_override st out.

(** ** Front matter: [_parse_skill_metadata_from_content] *)

(** [y or {}] *)
Definition or_empty (y : yaml) : yaml :=
  match y with
  | YNone | YMap [] => YMap []
  | _ => y
  end.

(** Lines 601-608: the [try] block of [_parse_skill_metadata_from_content]. *)
Definition front_matter (w : world) (content : string) : result yaml :=
  if Py.startswith "---" content then
    let parts := Py.splitn "---" 2 content in
    if Nat.leb 3 (length parts) then
      let yaml_content := nth 1 parts "" in
      let? y := safe_load w yaml_content in
      Ok (or_empty y)
    else Ok (YMap [])
  else Ok (YMap []).

(** [_parse_skill_metadata_from_content(content)]: the block under
    [except Exception] that returns [{}]. *)
Definition _parse_skill_metadata_from_content (w : world) (content : string) : yaml :=
  match front_matter w content with
  | Ok y => y
  | Raise _ => YMap []
  end.

(** ** The catalog: [_list_github_skills] *)

Fixpoint assoc {A : Type} (k : string) (m : list (string * A)) : option A :=
  match m with
  | [] => None
  | (k', v) :: m' => if k' =? k then Some v else assoc k m'
  end.

(** [metadata.get(key, default)] *)
Definition meta_get (metadata : yaml) (key : string) (default : pyval) : result pyval :=
  match metadata with
  | YMap m =>
      match assoc key m with
      | Some v => Ok v
      | None => Ok default
      end
  | _ => Raise AttributeError
  end.

(** [(x.get("category", ""), x["name"])] and the order of such pairs.  Two
    pairs are compared by their categories, which are strings, and by their
    names only when the categories are equal. *)
Definition sort_key (x : skill) : string * pyval := (s_category x, s_name x).

(** [a <= b] for two names that are strings. *)
Definition name_leb (a b : pyval) : bool :=
  match a, b with
  | PStr s, PStr t => s <=? t
  | _, _ => true
  end.

Definition key_leb (a b : string * pyval) : bool :=
  (fst a <? fst b) || ((fst a =? fst b) && name_leb (snd a) (snd b)).

(** Whether the names [sorted] has to compare are all strings: an entry
    whose name is not a string is the only one of its category. *)
Definition alone_in_category (x : skill) (l : list skill) : bool :=
  Nat.eqb (length (filter (fun y => s_category y =? s_category x) l)) 1.

Definition plain_names (l : list skill) : bool :=
  forallb (fun x =>
    match s_name x with
    | PStr _ => true
    | PObj _ => alone_in_category x l
    end) l.

(** The stable sort of [sorted(skills, key=...)], here by insertion from the
    right, each element going in front of the first one that is not smaller. *)
Fixpoint insert_sorted (x : skill) (l : list skill) : list skill :=
  match l with
  | [] => [x]
  | y :: l' =>
      if key_leb (sort_key x) (sort_key y) then x :: y :: l'
      else y :: insert_sorted x l'
  end.

Definition sorted (l : list skill) : list skill := fold_right insert_sorted [] l.

(** [sorted(skills, key=lambda x: (x.get("category", ""), x["name"]))] *)
Definition py_sorted (w : world) (l : list skill) : result (list skill) :=
  if plain_names l then Ok (sorted l)
  else
    match sorted_objects w l with
    | Ok l' => Ok (proj1_sig l')
    | Raise e => Raise e
    end.

(** The list [skills] being filled and the lines printed so far: both survive
    an exception. *)
Definition scan : Type := list skill * list msg.

Definition say (m : msg) (s : scan) : scan := (fst s, (snd s ++ [m])%list).

(** [any(i.get("name") == "SKILL.md" for i in skill_items if isinstance(i, dict))] *)
Definition has_manifest (skill_items : list json) : bool :=
  existsb (fun i =>
    match i with
    | JObj o => match j_name o with Some n => n =? "SKILL.md" | None => false end
    | _ => false
    end) skill_items.

(** Lines 558-568: the metadata of one skill, from the response to the
    request for its manifest, and the warning printed on the way, if any. *)
Definition read_metadata (w : world) (category_name name : string)
    (md_response : response) : yaml * list msg :=
  if Nat.eqb (status_code md_response) 200 then
    let attempt : result yaml :=
      let? md_content := json_of md_response in
      match md_content with
      | JObj o =>
          if match j_encoding o with Some e => e =? "base64" | None => false end then
            match j_content o with
            | Some c =>
                let? content := b64decode w c in
                Ok (_parse_skill_metadata_from_content w content)
            | None => Raise KeyError
            end
          else Ok (YMap [])
      | _ => Ok (YMap [])
      end in
    match attempt with
    | Ok metadata => (metadata, [])
    | Raise e => (YMap [], [WarnMetadata category_name name e])
    end
  else (YMap [], []).

(** [except requests.exceptions.RequestException as e: click.echo(...);
    continue] around a block that ended as [attempt]. *)
Definition except_request (warning : exn -> msg) (attempt : scan * result unit)
  : scan * result unit :=
  match attempt with
  | (s, Ok u) => (s, Ok u)
  | (s, Raise e) =>
      if is_request_exception e then (say (warning e) s, Ok tt) else (s, Raise e)
  end.

(** Lines 549-577: the [try] block for the skill directory [name]. *)
Definition scan_skill (w : world) (repo ref0 category_name category_url name : string)
    (s : scan) : scan * result unit :=
  let skill_api_url := category_url ++ "/" ++ name in
  match fetch_json w ref0 skill_api_url with
  | Raise e => (s, Raise e)
  | Ok skill_items =>
      match skill_items with
      | JArr l =>
          if has_manifest l then
            let skill_md_url := skill_api_url ++ "/SKILL.md" in
            match api_get w skill_md_url ref0 with
            | Raise e => (s, Raise e)
            | Ok md_response =>
                let '(metadata, warned) :=
                  read_metadata w category_name name md_response in
                let s := (fst s, (snd s ++ warned)%list) in
                match
                  (let? n := meta_get metadata "name" name in
                   let? d := meta_get metadata "description" "无描述" in
                   let? v := meta_get metadata "version" "N/A" in
                   let? a := meta_get metadata "author" "N/A" in
                   Ok (mkSkill n d v a category_name
                         (repo ++ "/" ++ category_name ++ "/" ++ name)))
                with
                | Ok x => ((fst s ++ [x])%list, snd s, Ok tt)
                | Raise e => (s, Raise e)
                end
            end
          else (s, Ok tt)
      | _ => (s, Ok tt)
      end
  end.

(** Lines 542-581: the body of the loop over the entries of one category. *)
Definition scan_item (w : world) (repo ref0 category_name category_url : string)
    (item : json) (s : scan) : scan * result unit :=
  match item with
  | JObj o =>
      if is_kind "dir" o then
        match j_name o with
        | None => (s, Raise KeyError)
        | Some name =>
            except_request (WarnSkill category_name name)
              (scan_skill w repo ref0 category_name category_url name s)
        end
      else (s, Ok tt)
  | _ => (s, Ok tt)
  end.

(** A [for] loop whose body may raise. *)
Fixpoint for_each {A : Type} (body : A -> scan -> scan * result unit)
    (l : list A) (s : scan) : scan * result unit :=
  match l with
  | [] => (s, Ok tt)
  | x :: rest =>
      match body x s with
      | (s', Ok _) => for_each body rest s'
      | (s', Raise e) => (s', Raise e)
      end
  end.

(** Lines 532-581: the [try] block for the category [category_name]. *)
Definition scan_entries (w : world) (repo ref0 category_name category_url : string)
    (s : scan) : scan * result unit :=
  match fetch_json w ref0 category_url with
  | Raise e => (s, Raise e)
  | Ok items =>
      match items with
      | JArr l => for_each (scan_item w repo ref0 category_name category_url) l s
      | _ => (s, Ok tt)
      end
  end.

(** Lines 524-585: the body of the loop over the entries of the root. *)
Definition scan_category (w : world) (repo ref0 api_url : string)
    (category : json) (s : scan) : scan * result unit :=
  match category with
  | JObj o =>
      if is_kind "dir" o then
        match j_name o with
        | None => (s, Raise KeyError)
        | Some category_name =>
            let category_url := api_url ++ category_name in
            except_request (WarnCategory category_name)
              (scan_entries w repo ref0 category_name category_url s)
        end
      else (s, Ok tt)
  | _ => (s, Ok tt)
  end.

(** [_list_github_skills(repo, ref)]: the list returned and the lines
    printed after [out]. *)
Definition _list_github_skills (w : world) (repo ref0 : string) (out : list msg)
  : list skill * list msg :=
  let attempt : scan * result (list skill) :=
    match unpack2 (Py.split "/" repo) with
    | Raise e => (([], out), Raise e)
    | Ok (owner, repo_name) =>
        let api_url :=
          "https://api.github.com/repos/" ++ owner ++ "/" ++ repo_name ++ "/contents/" in
        match fetch_json w ref0 api_url with
        | Raise e => (([], out), Raise e)
        | Ok categories =>
            match categories with
            | JArr l =>
                match for_each (scan_category w repo ref0 api_url) l ([], out) with
                | (s, Ok _) =>
                    match py_sorted w (fst s) with
                    | Ok skills => (s, Ok skills)
                    | Raise e => (s, Raise e)
                    end
                | (s, Raise e) => (s, Raise e)
                end
            | JObj o =>
                let s := say WarnUnexpectedFormat ([], out) in
                let s := match j_message o with
                         | Some m => say (ErrApiMessage m) s
                         | None => s
                         end in
                let s := match j_documentation_url o with
                         | Some u => say (ErrApiDocumentation u) s
                         | None => s
                         end in
                (s, Ok [])
            | JOther => (say WarnUnexpectedFormat ([], out), Ok [])
            end
        end
    end in
  match attempt with
  | (s, Ok skills) => (skills, snd s)
  | (s, Raise e) =>
      if is_request_exception e
      then ([], (snd s ++ [ErrListFailed e])%list)
      else ([], (snd s ++ [ErrListFailed e; EchoTraceback e])%list)
  end.

(** ** Lookup by name: [_find_skill_by_name] *)

(** The spec string returned for a catalog entry, under the name [name]. *)
Definition spec_of (default_repo : string) (x : skill) (name : string) : string :=
  if Py.truthy (s_category x)
  then default_repo ++ "/" ++ s_category x ++ "/" ++ name
  else default_repo ++ "/" ++ name.

(** [skill.get("name") == skill_name] *)
Definition exact_match (skill_name : string) (x : skill) : bool :=
  match s_name x with
  | PStr s => s =? skill_name
  | PObj _ => false
  end.

(** [skill_name.lower() in skill.get("name", "").lower()], for a name that
    is a string. *)
Definition fuzzy_match (w : world) (skill_name : string) (x : skill) : bool :=
  match s_name x with
  | PStr s => Py.contains (str_lower w skill_name) (str_lower w s)
  | PObj _ => false
  end.

(** The second loop of [_find_skill_by_name] (lines 262-268): the first
    entry whose name contains the query; [.lower()] raises on a name that is
    not a string. *)
Fixpoint first_containing (w : world) (skill_name : string) (l : list skill)
  : result (option skill) :=
  match l with
  | [] => Ok None
  | x :: rest =>
      match s_name x with
      | PStr s =>
          if Py.contains (str_lower w skill_name) (str_lower w s) then Ok (Some x)
          else first_containing w skill_name rest
      | PObj _ => Raise AttributeError
      end
  end.

Definition _find_skill_by_name (w : world) (skill_name ref0 : string)
    (repo_override : option string) (out : list msg) : option string * list msg :=
  let default_repo := Py.or_else repo_override (_get_default_skills_repo (environ_repo w)) in
  let '(all_skills, out) := _list_github_skills w default_repo ref0 out in
  let attempt : result (option string) :=
    match find (exact_match skill_name) all_skills with
    | Some x => Ok (Some (spec_of default_repo x skill_name))
    | None =>
        let? found := first_containing w skill_name all_skills in
        match found with
        | Some x => Ok (Some (spec_of default_repo x (py_str (s_name x))))
        | None => Ok None
        end
    end in
  match attempt with
  | Ok found => (found, out)
  | Raise e => (None, (out ++ [ErrLookupFailed e])%list)
  end.

(** ** Remote directory trees

    The shape of what the contents API serves below a directory: files, and
    directories with the answer to the listing request for their [url] (the
    entries below, or the exception the request ends in). *)

#[warnings="-register-all"]
Inductive rtree : Type :=
| File (name : string) (path_ download_url : option string)
| Dir (name url : string) (failure : option exn) (children : list rtree).

(** [served w ref0 t j]: the JSON entry [j] describes the node [t], and under
    [ref0] the API answers the listing requests below it as [t] says. *)
#[warnings="-register-all"]
Inductive served (w : world) (ref0 : string) : rtree -> json -> Prop :=
| served_file : forall name p d o,
    j_type o = Some "file" -> j_name o = Some name ->
    j_path o = p -> j_download_url o = d ->
    served w ref0 (File name p d) (JObj o)
| served_dir : forall name url children o l,
    j_type o = Some "dir" -> j_name o = Some name -> j_url o = Some url ->
    fetch_json w ref0 url = Ok (JArr l) ->
    Forall2 (served w ref0) children l ->
    served w ref0 (Dir name url None children) (JObj o)
| served_dir_failing : forall name url e children o,
    j_type o = Some "dir" -> j_name o = Some name -> j_url o = Some url ->
    fetch_json w ref0 url = Raise e ->
    served w ref0 (Dir name url (Some e) children) (JObj o).

(** The directory at [url] lists exactly the nodes [children]. *)
Definition served_at (w : world) (ref0 url : string) (children : list rtree) : Prop :=
  exists l, fetch_json w ref0 url = Ok (JArr l) /\ Forall2 (served w ref0) children l.

(** Number of listing requests nested below a node. *)
Fixpoint depth (t : rtree) : nat :=
  match t with
  | File _ _ _ => 0
  | Dir _ _ _ children =>
      S ((fix deepest (l : list rtree) : nat :=
            match l with
            | [] => 0
            | c :: l' => Nat.max (depth c) (deepest l')
            end) children)
  end.

Fixpoint forest_depth (l : list rtree) : nat :=
  match l with
  | [] => 0
  | c :: l' => Nat.max (depth c) (forest_depth l')
  end.

(** Some listing request below the node fails. *)
Fixpoint failing (t : rtree) : bool :=
  match t with
  | File _ _ _ => false
  | Dir _ _ (Some _) _ => true
  | Dir _ _ None children =>
      (fix some (l : list rtree) : bool :=
         match l with
         | [] => false
         | c :: l' => failing c || some l'
         end) children
  end.

Fixpoint forest_failing (l : list rtree) : bool :=
  match l with
  | [] => false
  | c :: l' => failing c || forest_failing l'
  end.

(** The File nodes of a tree, and those among them that carry a download
    URL. *)
Fixpoint count_files (t : rtree) : nat :=
  match t with
  | File _ _ _ => 1
  | Dir _ _ _ children =>
      (fix sum (l : list rtree) : nat :=
         match l with
         | [] => 0
         | c :: l' => count_files c + sum l'
         end) children
  end.

Fixpoint forest_count_files (l : list rtree) : nat :=
  match l with
  | [] => 0
  | c :: l' => count_files c + forest_count_files l'
  end.

(** The jobs of the File nodes that carry a download URL, depth first, for a
    tree stored under [local_dir]. *)
Fixpoint jobs_of (local_dir : path) (t : rtree) : list job :=
  match t with
  | File name p d =>
      match Py.if_truthy d with
      | Some download_url =>
          [(download_url, pjoin local_dir name,
            match p with Some p => p | None => name end)]
      | None => []
      end
  | Dir name _ _ children =>
      (fix all (l : list rtree) : list job :=
         match l with
         | [] => []
         | c :: l' => (jobs_of (pjoin local_dir name) c ++ all l')%list
         end) children
  end.

Fixpoint forest_jobs (local_dir : path) (l : list rtree) : list job :=
  match l with
  | [] => []
  | c :: l' => (jobs_of local_dir c ++ forest_jobs local_dir l')%list
  end.

Fixpoint count_downloadable (t : rtree) : nat :=
  match t with
  | File _ _ d => if Py.truthy_opt d then 1 else 0
  | Dir _ _ _ children =>
      (fix sum (l : list rtree) : nat :=
         match l with
         | [] => 0
         | c :: l' => count_downloadable c + sum l'
         end) children
  end.

Fixpoint forest_count_downloadable (l : list rtree) : nat :=
  match l with
  | [] => 0
  | c :: l' => count_downloadable c + forest_count_downloadable l'
  end.

(** The download URLs of those File nodes, depth first. *)
Fixpoint file_urls (t : rtree) : list string :=
  match t with
  | File _ _ d =>
      match Py.if_truthy d with
      | Some u => [u]
      | None => []
      end
  | Dir _ _ _ children =>
      (fix all (l : list rtree) : list string :=
         match l with
         | [] => []
         | c :: l' => (file_urls c ++ all l')%list
         end) children
  end.

Fixpoint forest_file_urls (l : list rtree) : list string :=
  match l with
  | [] => []
  | c :: l' => (file_urls c ++ forest_file_urls l')%list
  end.

(** ** Notions used to state the properties of the pool *)

(** The outcomes a pool holds or still owes: one per job, whatever its
    stage. *)
Definition owed (w : world) (p : pool) : list (bool * string) :=
  (map (outcome w) (pending p) ++ map (outcome w) (running p) ++ done p)%list.

(** The work a pool has left: a queued job takes two steps, a running job
    one. *)
Definition work (p : pool) : nat := 2 * length (pending p) + length (running p).

(** ** Notions used to state the properties of the catalog *)

(** Two runs of a loop of the catalog that end with the same list of skills
    and in the same way; they may have printed different lines. *)
Definition agree (r1 r2 : scan * result unit) : Prop :=
  fst (fst r1) = fst (fst r2) /\ snd r1 = snd r2.

(** What [_list_github_skills] returns after the loop over the categories. *)
Definition skills_of (w : world) (r : scan * result unit) : list skill :=
  match r with
  | (s, Ok _) =>
      match py_sorted w (fst s) with
      | Ok skills => skills
      | Raise _ => []
      end
  | (_, Raise _) => []
  end.



Definition root_url (owner repo_name : string) : string :=
  "https://api.github.com/repos/" ++ owner ++ "/" ++ repo_name ++ "/contents/".

(** ** Small worlds on which the functions are run *)

(** An API that answers the requests listed in [table] and 404 otherwise. *)
Definition serve (table : list (string * result response))
  : string -> string -> result response :=
  fun url _ =>
    match assoc url table with
    | Some r => r
    | None => Ok (mkResp 404 None)
    end.

Definition serve_raw (table : list (string * result raw_response))
  : string -> result raw_response :=
  fun url =>
    match assoc url table with
    | Some r => r
    | None => Ok (mkRaw 404 "")
    end.

Definition ok_json (j : json) : result response := Ok (mkResp 200 (Some j)).

Definition file_entry (name path_ download_url : string) : json :=
  JObj (mkObj (Some "file") (Some name) (Some path_) (Some download_url)
          None None None None None).

Definition dir_entry (name url : string) : json :=
  JObj (mkObj (Some "dir") (Some name) (Some name) None (Some url)
          None None None None).

Definition temp0 : path := ["tmp"; "winwin_skill_0"].

(** A world with the given API and raw downloads, an unset environment, a
    writable disk, a YAML loader that rejects every document, texts in
    ASCII, and a sort that raises on names that are not strings. *)
Definition world_of (api : list (string * result response))
    (raw : list (string * result raw_response)) : world :=
  mkWorld None (serve api) (serve_raw raw) 1000 (fun _ => temp0)
    (fun _ => true) (fun s => Ok s) (fun _ => Raise YAMLError)
    Py.lower (fun _ => Raise TypeError).

Definition offline : world := world_of [] [].

(** Five files to download, the third of which cannot be fetched. *)
Definition job_named (n : string) : job :=
  ("https://raw.test/" ++ n, pjoin temp0 n, "web/demo/" ++ n).

Definition five_jobs : list job :=
  map job_named ["SKILL.md"; "a.txt"; "b.txt"; "c.txt"; "d.txt"].

Definition five_world : world :=
  world_of []
    [("https://raw.test/SKILL.md", Ok (mkRaw 200 "---"));
     ("https://raw.test/a.txt", Ok (mkRaw 200 "a"));
     ("https://raw.test/b.txt", Raise ConnectionError);
     ("https://raw.test/c.txt", Ok (mkRaw 200 "c"));
     ("https://raw.test/d.txt", Ok (mkRaw 200 "d"))].

(** A skill directory [web/demo] with a manifest and a [scripts]
    subdirectory holding one file. *)
Definition demo_url : string := "https://api.github.com/repos/o/r/contents/web/demo".
Definition scripts_url : string :=
  "https://api.github.com/repos/o/r/contents/web/demo/scripts?ref=main".

Definition demo_tree : list rtree :=
  [File "SKILL.md" (Some "web/demo/SKILL.md") (Some "https://raw.test/SKILL.md");
   Dir "scripts" scripts_url None
     [File "run.sh" (Some "web/demo/scripts/run.sh") (Some "https://raw.test/run.sh")]].

Definition demo_world : world :=
  world_of
    [(demo_url,
      ok_json (JArr [file_entry "SKILL.md" "web/demo/SKILL.md" "https://raw.test/SKILL.md";
                     dir_entry "scripts" scripts_url]));
     (scripts_url,
      ok_json (JArr [file_entry "run.sh" "web/demo/scripts/run.sh"
                       "https://raw.test/run.sh"]))]
    [("https://raw.test/SKILL.md", Ok (mkRaw 200 "---"));
     ("https://raw.test/run.sh", Ok (mkRaw 200 "#!/bin/sh"))].

(** The same directory when the request for [scripts] is answered 500. *)
Definition broken_tree : list rtree :=
  [File "SKILL.md" (Some "web/demo/SKILL.md") (Some "https://raw.test/SKILL.md");
   Dir "scripts" scripts_url (Some HTTPError) []].

Definition broken_world : world :=
  world_of
    [(demo_url,
      ok_json (JArr [file_entry "SKILL.md" "web/demo/SKILL.md" "https://raw.test/SKILL.md";
                     dir_entry "scripts" scripts_url]));
     (scripts_url, Ok (mkResp 500 None))]
    [].

(** A directory with a manifest and a submodule: the API lists a submodule
    as an entry of type file without a download URL. *)
Definition submodule_entry (name : string) : json :=
  JObj (mkObj (Some "file") (Some name) (Some name) None None None None None None).

Definition vendored_tree : list rtree :=
  [File "SKILL.md" (Some "web/demo/SKILL.md") (Some "https://raw.test/SKILL.md");
   File "vendor" (Some "vendor") None].

Definition vendored_world : world :=
  world_of
    [(demo_url,
      ok_json (JArr [file_entry "SKILL.md" "web/demo/SKILL.md" "https://raw.test/SKILL.md";
                     submodule_entry "vendor"]))]
    [].

(** What the API answers when the path does not exist: an error object,
    with status 404.  It is the answer at the target path and at the root
    in [missing_world], and at a subdirectory in [hollow_world]. *)
Definition error_object : json :=
  JObj (mkObj None None None None None (Some "Not Found")
          (Some "https://docs.github.com/rest") None None).

Definition not_found : result response := Ok (mkResp 404 (Some error_object)).

Definition missing_world : world :=
  world_of
    [("https://api.github.com/repos/o/r/contents/web/missing", not_found);
     ("https://api.github.com/repos/o/r/contents/", not_found)]
    [].

Definition hollow_world : world :=
  world_of
    [(demo_url,
      ok_json (JArr [file_entry "SKILL.md" "web/demo/SKILL.md" "https://raw.test/SKILL.md";
                     dir_entry "scripts" scripts_url]));
     (scripts_url, not_found)]
    [].

(** A repository [o/r] with the categories [data], [ops] and [web]; the
    request for [ops] is answered 500, and no manifest can be fetched, so
    that every skill goes by the name of its directory. *)
Definition catalog_root : string := "https://api.github.com/repos/o/r/contents/".

Definition manifest_only : result response :=
  ok_json (JArr [file_entry "SKILL.md" "SKILL.md" "https://raw.test/SKILL.md"]).

Definition catalog_world : world :=
  world_of
    [(catalog_root,
      ok_json (JArr [file_entry "README.md" "README.md" "https://raw.test/README.md";
                     dir_entry "web" "";
                     dir_entry "ops" "";
                     dir_entry "data" ""]));
     (catalog_root ++ "web",
      ok_json (JArr [dir_entry "react-expert" ""; dir_entry "react" "";
                     dir_entry "drafts" ""]));
     (catalog_root ++ "web/react-expert", manifest_only);
     (catalog_root ++ "web/react", manifest_only);
     (catalog_root ++ "web/drafts",
      ok_json (JArr [file_entry "notes.txt" "notes.txt" "https://raw.test/notes.txt"]));
     (catalog_root ++ "ops", Ok (mkResp 500 None));
     (catalog_root ++ "data", ok_json (JArr [dir_entry "pandas-react" ""]));
     (catalog_root ++ "data/pandas-react", manifest_only)]
    [].

(** ** Notions used to state further properties *)

(** The path of a skill below its repository, as [_find_skill_by_name]
    writes it: the category, when there is one, and the name. *)
Definition found_path (x : skill) : string :=
  if Py.truthy (s_category x) then s_category x ++ "/" ++ py_str (s_name x)
  else py_str (s_name x).

(** The [path] field of a catalog entry names the repository, the category
    and a directory. *)
Definition placed_in (repo : string) (x : skill) : Prop :=
  exists dir, s_path x = repo ++ "/" ++ s_category x ++ "/" ++ dir.

(** A repository [o/r] with one category [web] holding the skills [react]
    and [notes]; the manifest of [notes] is served, and the YAML loader
    reads every front matter as a plain string. *)
Definition scalar_world : world :=
  mkWorld None
    (serve
       [(catalog_root, ok_json (JArr [dir_entry "web" ""]));
        (catalog_root ++ "web",
         ok_json (JArr [dir_entry "react" ""; dir_entry "notes" ""]));
        (catalog_root ++ "web/react", manifest_only);
        (catalog_root ++ "web/notes", manifest_only);
        (catalog_root ++ "web/notes/SKILL.md",
         ok_json (JObj (mkObj (Some "file") (Some "SKILL.md") None None None None None
                          (Some "base64") (Some "---
just some text
---
body"))))])
    (serve_raw []) 1000 (fun _ => temp0) (fun _ => true) (fun s => Ok s)
    (fun _ => Ok YScalar) Py.lower (fun _ => Raise TypeError).



(** A repository [o/r] whose one skill, [web/demo], gives its version as
    a date: the loader hands out a [datetime.date], which [str] prints and
    [json.dumps] does not take. *)
Definition date_2024 : pyval := PObj (mkPyObj "2024-01-01" true false).

Definition dated_world : world :=
  mkWorld None
    (serve
       [(catalog_root, ok_json (JArr [dir_entry "web" ""]));
        (catalog_root ++ "web", ok_json (JArr [dir_entry "demo" ""]));
        (catalog_root ++ "web/demo", manifest_only);
        (catalog_root ++ "web/demo/SKILL.md",
         ok_json (JObj (mkObj (Some "file") (Some "SKILL.md") None None None None None
                          (Some "base64") (Some "---
name: demo
version: 2024-01-01
---
body"))))])
    (serve_raw []) 1000 (fun _ => temp0) (fun _ => true) (fun s => Ok s)
    (fun _ => Ok (YMap [("name", PStr "demo"); ("version", date_2024)]))
    Py.lower (fun _ => Raise TypeError).

(** The two kinds of lines the result loop prints. *)
Definition is_failure_line (m : msg) : bool :=
  match m with
  | ErrFileFailed _ => true
  | _ => false
  end.

Definition is_progress_line (m : msg) : bool :=
  match m with
  | EchoProgress _ _ => true
  | _ => false
  end.

(** The local path a job writes to. *)
Definition job_path (j : job) : path := snd (fst j).

(** [d / name] of pathlib is [pjoin d name] when [name] is one path
    segment. *)
Definition single_segment (name : string) : bool :=
  negb (Py.contains "/" name) && negb (name =? "") && negb (name =? ".")
  && negb (name =? "..").

(** The entries [_collect_files] goes through in a response. *)
Definition entries_of (items : json) : list json :=
  match items with JArr l => l | other => [other] end.

(** Every name the API serves is one path segment, as the names of the
    entries of a directory are. *)
Definition serves_segments (w : world) (ref0 : string) : Prop :=
  forall (url : string) (items : json) (o : jobj) (name : string),
    fetch_json w ref0 url = Ok items ->
    In (JObj o) (entries_of items) ->
    j_name o = Some name ->
    single_segment name = true.

(** [p] lies strictly below [d], one segment after the other. *)
Definition below (d p : path) : Prop :=
  exists rel,
    p = (d ++ rel)%list /\ rel <> []
    /\ Forall (fun name => single_segment name = true) rel.

(** What a listing adds to the list it was given: [files] is kept as it is,
    and, where the names served are path segments, the jobs added write
    below [local_dir]. *)
Definition extends (segments : Prop) (local_dir : path) (files files' : list job)
  : Prop :=
  exists more,
    files' = (files ++ more)%list
    /\ (segments -> Forall (fun j => below local_dir (job_path j)) more).

(** What holds of a pool working on [jobs] from the file system [l0]:
    nothing of [l0] is gone, and every job is still queued or running, or
    has left its file if it succeeded. *)
Definition pool_inv (w : world) (jobs : list job) (l0 : list path) (p : pool) : Prop :=
  incl l0 (disk p)
  /\ forall j, In j jobs ->
       In j (pending p) \/ In j (running p)
       \/ (fst (outcome w j) = true -> In (job_path j) (disk p)).

(** The directory [web/demo] of [demo_world] when no raw file can be
    fetched. *)
Definition broken_raw_world : world :=
  world_of
    [(demo_url,
      ok_json (JArr [file_entry "SKILL.md" "web/demo/SKILL.md" "https://raw.test/SKILL.md";
                     dir_entry "scripts" scripts_url]));
     (scripts_url,
      ok_json (JArr [file_entry "run.sh" "web/demo/scripts/run.sh"
                       "https://raw.test/run.sh"]))]
    [("https://raw.test/SKILL.md", Raise ConnectionError);
     ("https://raw.test/run.sh", Ok (mkRaw 503 ""))].

(** The lines the result loop prints for [results], when [completed] jobs
    were counted before. *)
Fixpoint printed (total : nat) (results : list (bool * string)) (completed : nat)
  : list msg :=
  match results with
  | [] => []
  | (success, what) :: rest =>
      let completed := completed + 1 in
      ((if success then
          if progress_due completed total then [EchoProgress completed total] else []
        else [ErrFileFailed what])
       ++ printed total rest completed)%list
  end.

(** ** The installers and the [install] command *)

(** The messages of the functions modelled here, besides those of the
    functions above ([Core]); a message may take several calls of
    [click.echo]. *)
Inductive line : Type :=
| Core (m : msg)
| WarnMetadataFile (e : exn)
| EchoCopied (dest : path)
| EchoInstallScript
| WarnOpencodePartial
| HintOpencodeManual
| EchoOpencodeNote
| ErrPlatform (platform : string)
| EchoRepoListing (repo : string)
| ErrNoSkills
| EchoAvailable
| EchoChoice (idx : nat) (name description : string)
| ErrInvalidChoice
| EchoSelected (name : string)
| ErrNothingSelected
| EchoFound (spec : string)
| WarnNotFound (name : string)
| ErrNoManifest
| EchoChoosePlatform
| EchoPlatformOption (idx : nat) (platform : string)
| EchoInstalled (name platform : string) (install_path : path)
| ErrInstall (e : exn)
| EchoTrace (e : exn)
| ErrInfoNotFound (shown : option string)
| HintUseList
| EchoInfo (name description version author : string)
| EchoIncluded (listing : list path)
| EchoListFetching (repo ref0 : string)
| EchoNoSkills
| EchoJson (available_skills : list skill)
| EchoFoundCount (n : nat)
| EchoSkillEntry (name category hint description version author : string).

(** The file system and the terminal of a running command. *)
Record session : Type := mkSession {
  files : list path;
  console : list line
}.

(** What the user and the local machine contribute: the working directory,
    the text of the files read, the numbers typed at the two prompts, and
    which of the paths below a directory are files, in sorted order and
    relative to it ([sorted(d.rglob("*"))] filtered by [is_file()]). *)
Record host : Type := mkHost {
  cwd : path;
  read_text : path -> result string;
  skill_choice : Z;
  platform_choice : Z;
  files_below : path -> list path -> list path
}.

(** How a piece of a command ends: with a value, by [sys.exit(code)], or
    with an exception. *)
Inductive ended (A : Type) : Type :=
| Value (a : A)
| Exit (code : nat)
| Thrown (e : exn).
Arguments Value {A} a.
Arguments Exit {A} code.
Arguments Thrown {A} e.

Definition cmd (A : Type) : Type := session -> ended A * session.

Definition ret {A : Type} (a : A) : cmd A := fun ss => (Value a, ss).

Definition seq {A B : Type} (m : cmd A) (k : A -> cmd B) : cmd B :=
  fun ss =>
    match m ss with
    | (Value a, ss') => k a ss'
    | (Exit code, ss') => (Exit code, ss')
    | (Thrown e, ss') => (Thrown e, ss')
    end.

Notation "x <- m ;; k" := (seq m (fun x => k))
  (at level 61, m at next level, right associativity).
Notation "m ;;; k" := (seq m (fun _ => k))
  (at level 61, right associativity).

Definition print (l : line) : cmd unit :=
  fun ss => (Value tt, mkSession (files ss) (console ss ++ [l])%list).

Definition sys_exit {A : Type} (code : nat) : cmd A := fun ss => (Exit code, ss).

Definition throw {A : Type} (e : exn) : cmd A := fun ss => (Thrown e, ss).

(** The lines of a function above, on the terminal. *)
Definition print_core (out : list msg) : cmd unit :=
  fun ss => (Value tt, mkSession (files ss) (console ss ++ map Core out)%list).

(** [try: body finally: cleanup] *)
Definition finally {A : Type} (body : cmd A) (cleanup : session -> session) : cmd A :=
  fun ss => let '(r, ss') := body ss in (r, cleanup ss').

(** [shutil.copytree(src, dst)]: [dst] must not exist, [src] must; the
    tree below [src] appears below [dst], which is created with its
    parents. *)
Definition rebase (src dst p : path) : path := (dst ++ skipn (length src) p)%list.

Definition copytree (src dst : path) : cmd unit :=
  fun ss =>
    if negb (exists_ src (files ss)) then (Thrown OSError, ss)
    else if exists_ dst (files ss) then (Thrown OSError, ss)
    else
      (Value tt,
       mkSession
         (files ss ++ inits dst
          ++ map (rebase src dst) (filter (is_prefix src) (files ss)))%list
         (console ss)).

Definition on_files (f : list path -> list path) : cmd unit :=
  fun ss => (Value tt, mkSession (f (files ss)) (console ss)).

Definition path_exists (p : path) : cmd bool :=
  fun ss => (Value (exists_ p (files ss)), ss).

(** [_parse_skill_metadata(skill_file)] *)
Definition _parse_skill_metadata (w : world) (h : host) (skill_file : path) : cmd yaml :=
  let attempt : result yaml :=
    let? content := read_text h skill_file in
    if Py.startswith "---" content then
      let parts := Py.splitn "---" 2 content in
      if Nat.leb 3 (length parts) then
        let yaml_content := nth 1 parts "" in
        let? y := safe_load w yaml_content in
        Ok (or_empty y)
      else Ok (YMap [])
    else Ok (YMap []) in
  match attempt with
  | Ok y => ret y
  | Raise e => print (WarnMetadataFile e) ;;; ret (YMap [])
  end.

(** The value tested by [if metadata.get("name"):] when it passes the
    test. *)
Definition py_if_truthy (o : option pyval) : option pyval :=
  match o with
  | Some v => if py_truthy v then Some v else None
  | None => None
  end.

(** [_get_skill_name(skill_dir)]: what it returns is a string unless the
    front matter gives the name another value. *)
Definition _get_skill_name (w : world) (h : host) (skill_dir : path) : cmd pyval :=
  let skill_file := pjoin skill_dir "SKILL.md" in
  let dir_name := ret (PStr (last skill_dir "")) in
  present <- path_exists skill_file ;;
  if present then
    metadata <- _parse_skill_metadata w h skill_file ;;
    match metadata with
    | YMap m =>
        match py_if_truthy (assoc "name" m) with
        | Some name => ret name
        | None => dir_name
        end
    | _ => throw AttributeError
    end
  else dir_name.

(** [d / name]: only a string can be joined to a path. *)
Definition div (d : path) (name : pyval) : cmd path :=
  match name with
  | PStr s => ret (pjoin d s)
  | PObj _ => throw TypeError
  end.

(** [_install_for_claude_code(skill_path, skill_name, install_path, metadata)] *)
Definition _install_for_claude_code (skill_path : path) (skill_name : pyval)
    (install_path : path) (metadata : yaml) : cmd unit :=
  let claude_skills_dir := pjoin (pjoin install_path ".claude") "skills" in
  on_files (mkdir_parents claude_skills_dir) ;;;
  dest_skill_dir <- div claude_skills_dir skill_name ;;
  present <- path_exists dest_skill_dir ;;
  (if present then on_files (rmtree dest_skill_dir) else ret tt) ;;;
  copytree skill_path dest_skill_dir ;;;
  print (EchoCopied dest_skill_dir) ;;;
  let install_script := pjoin (pjoin skill_path "scripts") "install.sh" in
  script <- path_exists install_script ;;
  if script then print EchoInstallScript else ret tt.

(** [_install_for_opencode(skill_path, skill_name, install_path, metadata)] *)
Definition _install_for_opencode (skill_path : path) (skill_name : pyval)
    (install_path : path) (metadata : yaml) : cmd unit :=
  print WarnOpencodePartial ;;;
  print HintOpencodeManual ;;;
  let opencode_skills_dir := pjoin (pjoin install_path ".opencode") "skills" in
  on_files (mkdir_parents opencode_skills_dir) ;;;
  dest_skill_dir <- div opencode_skills_dir skill_name ;;
  present <- path_exists dest_skill_dir ;;
  (if present then on_files (rmtree dest_skill_dir) else ret tt) ;;;
  copytree skill_path dest_skill_dir ;;;
  print (EchoCopied dest_skill_dir) ;;;
  print EchoOpencodeNote.

(** [_install_skill(skill_path, skill_name, install_path, platform, metadata)] *)
Definition _install_skill (skill_path : path) (skill_name : pyval)
    (install_path : path) (platform : string) (metadata : yaml) : cmd unit :=
  if platform =? "claude-code" then
    _install_for_claude_code skill_path skill_name install_path metadata
  else if platform =? "opencode" then
    _install_for_opencode skill_path skill_name install_path metadata
  else
    print (ErrPlatform platform) ;;; sys_exit 1.

(** The lines of the loop [for idx, skill in enumerate(available_skills, 1)]. *)
Fixpoint print_choices (idx : nat) (available : list skill) : cmd unit :=
  match available with
  | [] => ret tt
  | x :: rest =>
      print (EchoChoice idx (py_str (s_name x)) (py_str (s_description x))) ;;;
      print_choices (S idx) rest
  end.

(** [_interactive_select_skill(repo_override)].  The handler of lines
    316-318 has nothing to catch: [_list_github_skills] catches what happens
    inside it, and the prompt hands out an integer. *)
Definition _interactive_select_skill (w : world) (h : host)
    (repo_override : option string) : cmd (option string) :=
  let default_repo := Py.or_else repo_override (_get_default_skills_repo (environ_repo w)) in
  print (EchoRepoListing default_repo) ;;;
  let '(available_skills, out) := _list_github_skills w default_repo "main" [] in
  print_core out ;;;
  match available_skills with
  | [] => print ErrNoSkills ;;; ret None
  | _ :: _ =>
      print EchoAvailable ;;;
      print_choices 1 available_skills ;;;
      let choice := skill_choice h in
      if (choice <? 1)%Z || (Z.of_nat (length available_skills) <? choice)%Z then
        print ErrInvalidChoice ;;; ret None
      else
        match nth_error available_skills (Z.to_nat (choice - 1)) with
        | Some x =>
            print (EchoSelected (py_str (s_name x))) ;;;
            ret (Some (spec_of default_repo x (py_str (s_name x))))
        | None => ret None      (* not reached: the index is in range *)
        end
  end.

(** Lines 56-69 of [install]: the spec that goes to the download. *)
Definition install_choose (w : world) (h : host) (skill_spec : option string)
    (ref0 : string) (repo : option string) : cmd string :=
  skill_spec <-
    match Py.if_truthy skill_spec with
    | Some spec => ret spec
    | None =>
        selected <- _interactive_select_skill w h repo ;;
        match Py.if_truthy selected with
        | Some spec => ret spec
        | None => print ErrNothingSelected ;;; sys_exit 1
        end
    end ;;
  if Py.truthy skill_spec && negb (Py.contains "/" skill_spec)
     && negb (Py.startswith "https://" skill_spec) then
    let '(resolved_spec, out) := _find_skill_by_name w skill_spec ref0 repo [] in
    print_core out ;;;
    match Py.if_truthy resolved_spec with
    | Some resolved => print (EchoFound resolved) ;;; ret resolved
    | None => print (WarnNotFound skill_spec) ;;; ret skill_spec
    end
  else ret skill_spec.

(** Lines 76-107 of [install]: what is done with the downloaded bundle, and
    its removal on every way out. *)
Definition install_bundle (w : world) (h : host) (install_path : path)
    (platform : option string) (skill_temp_dir : path) : cmd unit :=
  finally
    (skill_name <- _get_skill_name w h skill_temp_dir ;;
     let skill_file := pjoin skill_temp_dir "SKILL.md" in
     present <- path_exists skill_file ;;
     (if present then ret tt else print ErrNoManifest ;;; sys_exit 1) ;;;
     skill_metadata <- _parse_skill_metadata w h skill_file ;;
     platform <-
       match Py.if_truthy platform with
       | Some p => ret p
       | None =>
           print EchoChoosePlatform ;;;
           print (EchoPlatformOption 1 "claude-code") ;;;
           print (EchoPlatformOption 2 "opencode") ;;;
           ret (if (platform_choice h =? 1)%Z then "claude-code" else "opencode")
       end ;;
     _install_skill skill_temp_dir skill_name install_path platform skill_metadata ;;;
     print (EchoInstalled (py_str skill_name) platform install_path))
    (fun ss =>
       if exists_ skill_temp_dir (files ss)
       then mkSession (rmtree skill_temp_dir (files ss)) (console ss)
       else ss).

(** The handler [except Exception as e] that closes [install];
    [sys.exit] passes through it. *)
Definition install_guard (r : ended unit * session) : ended unit * session :=
  match r with
  | (Thrown e, ss) =>
      (Exit 1, mkSession (files ss) (console ss ++ [ErrInstall e; EchoTrace e])%list)
  | done => done
  end.

(** The session after [_resolve_and_download_skill] ended in the state
    [st]. *)
Definition after_download (ss : session) (st : state) : session :=
  mkSession (fs st) (console ss ++ map Core (log st))%list.

(** [install(skill_spec, path, platform, ref, repo)] *)
Inductive install (w : world) (h : host) (skill_spec : option string)
    (path_arg : option path) (platform : option string) (ref0 : string)
    (repo : option string) (ss : session) : ended unit * session -> Prop :=
| install_not_chosen : forall code ss1,
    install_choose w h skill_spec ref0 repo ss = (Exit code, ss1) ->
    install w h skill_spec path_arg platform ref0 repo ss (Exit code, ss1)
| install_choice_raised : forall e ss1,
    install_choose w h skill_spec ref0 repo ss = (Thrown e, ss1) ->
    install w h skill_spec path_arg platform ref0 repo ss
      (install_guard (Thrown e, ss1))
| install_not_downloaded : forall spec ss1 st,
    install_choose w h skill_spec ref0 repo ss = (Value spec, ss1) ->
    _resolve_and_download_skill w spec ref0 repo (mkState (files ss1) []) (None, st) ->
    install w h skill_spec path_arg platform ref0 repo ss
      (Exit 1, after_download ss1 st)
| install_downloaded : forall spec ss1 skill_temp_dir st,
    install_choose w h skill_spec ref0 repo ss = (Value spec, ss1) ->
    _resolve_and_download_skill w spec ref0 repo (mkState (files ss1) [])
      (Some skill_temp_dir, st) ->
    install w h skill_spec path_arg platform ref0 repo ss
      (install_guard
         (install_bundle w h
            (match path_arg with Some p => p | None => cwd h end)
            platform skill_temp_dir (after_download ss1 st))).

(** The file system after an installer ran on [l]: the skills directory of
    the platform is made, a previous copy of the skill is removed, and the
    bundle is copied. *)
Definition installed_files (platform_dir : string) (skill_path : path)
    (skill_name : string) (install_path : path) (l : list path) : list path :=
  let skills_dir := pjoin (pjoin install_path platform_dir) "skills" in
  let dest := pjoin skills_dir skill_name in
  let l1 := mkdir_parents skills_dir l in
  let l2 := if exists_ dest l1 then rmtree dest l1 else l1 in
  (l2 ++ inits dest ++ map (rebase skill_path dest) (filter (is_prefix skill_path) l2))%list.

(** The directory a platform keeps its skills in. *)
Definition platform_dir (platform : string) : string :=
  if platform =? "claude-code" then ".claude" else ".opencode".

(** A project that holds an older copy of the skill [demo], and a bundle in
    a temporary directory. *)
Definition stale_session : session :=
  mkSession
    [ ["tmp"; "bundle"];
      ["tmp"; "bundle"; "SKILL.md"];
      ["proj"; ".claude"; "skills"; "demo"];
      ["proj"; ".claude"; "skills"; "demo"; "old.md"] ]
    [].

(** The spec an answer to the prompt of [_interactive_select_skill] stands
    for, if any. *)
Definition chosen_spec (default_repo : string) (catalog : list skill) (choice : Z)
  : option string :=
  if (choice <? 1)%Z || (Z.of_nat (length catalog) <? choice)%Z then None
  else option_map (fun x => spec_of default_repo x (py_str (s_name x)))
         (nth_error catalog (Z.to_nat (choice - 1))).

(** A piece of a command that leaves by [sys.exit] does so with code 1. *)
Definition exit_code_one {A : Type} (r : ended A * session) : Prop :=
  match fst r with
  | Exit code => code = 1
  | _ => True
  end.

(** A host in the directory [proj] whose files cannot be read and who
    answers 1 at both prompts. *)
Definition host0 : host :=
  mkHost ["proj"] (fun _ => Raise OSError) 1 1 (fun _ _ => []).

(** A piece of a command that ends in [r] from [ss] without touching the
    file system and without an exception, by [sys.exit] only with code 1. *)
Definition keeps_files {A : Type} (r : ended A * session) (ss : session) : Prop :=
  files (snd r) = files ss
  /\ match fst r with
     | Value _ => True
     | Exit code => code = 1
     | Thrown _ => False
     end.

(** [m] returns [a] from [ss] and leaves the files [l]. *)
Definition runs {A : Type} (m : cmd A) (ss : session) (a : A) (l : list path) : Prop :=
  exists c, m ss = (Value a, mkSession l c).

(** The name [_get_skill_name] gives a bundle in [skill_dir] whose front
    matter is the mapping [m]. *)
Definition name_of (m : list (string * pyval)) (skill_dir : path) : pyval :=
  match py_if_truthy (assoc "name" m) with
  | Some name => name
  | None => PStr (last skill_dir "")
  end.

(** The platform [install] installs for. *)
Definition platform_of (h : host) (platform : option string) : string :=
  match Py.if_truthy platform with
  | Some p => p
  | None => if (platform_choice h =? 1)%Z then "claude-code" else "opencode"
  end.

(** A world whose loader reads every front matter as [name: demo], and a
    host whose files all hold such a front matter; a session with a
    downloaded bundle and an older copy of the skill. *)
Definition named_world : world :=
  mkWorld None (serve []) (serve_raw []) 1000 (fun _ => temp0)
    (fun _ => true) (fun s => Ok s) (fun _ => Ok (YMap [("name", PStr "demo")]))
    Py.lower (fun _ => Raise TypeError).

Definition host_demo : host :=
  mkHost ["proj"] (fun _ => Ok "---name: demo---") 2 2 (fun _ _ => []).

Definition bundle_session : session :=
  mkSession
    [ ["proj"];
      ["proj"; ".opencode"; "skills"; "demo"];
      ["proj"; ".opencode"; "skills"; "demo"; "old.md"];
      temp0;
      pjoin temp0 "SKILL.md";
      pjoin temp0 "run.sh" ]
    [].

(** ** The [info] command *)

(** Lines 193-199 of [info]: the spec that goes to the download.  The error
    shows the variable [skill_spec] after the lookup was assigned to it. *)
Definition info_head (w : world) (skill_spec ref0 : string) (repo : option string)
  : cmd string :=
  if negb (Py.contains "/" skill_spec) then
    let '(skill_spec, out) := _find_skill_by_name w skill_spec ref0 repo [] in
    print_core out ;;;
    match Py.if_truthy skill_spec with
    | Some spec => ret spec
    | None =>
        print (ErrInfoNotFound skill_spec) ;;;
        print HintUseList ;;;
        sys_exit 1
    end
  else ret skill_spec.

(** [metadata.get(key, default)] inside a command. *)
Definition get_or (metadata : yaml) (key : string) (default : pyval) : cmd pyval :=
  match meta_get metadata key default with
  | Ok v => ret v
  | Raise e => throw e
  end.

(** Lines 206-236 of [info]: what is shown of the downloaded bundle, and its
    removal on every way out. *)
Definition info_bundle (w : world) (h : host) (skill_temp_dir : path) : cmd unit :=
  finally
    (skill_name <- _get_skill_name w h skill_temp_dir ;;
     let skill_file := pjoin skill_temp_dir "SKILL.md" in
     present <- path_exists skill_file ;;
     (if present then ret tt else print ErrNoManifest ;;; sys_exit 1) ;;;
     metadata <- _parse_skill_metadata w h skill_file ;;
     name <- get_or metadata "name" skill_name ;;
     description <- get_or metadata "description" "无描述" ;;
     version <- get_or metadata "version" "N/A" ;;
     author <- get_or metadata "author" "N/A" ;;
     print (EchoInfo (py_str name) (py_str description) (py_str version)
              (py_str author)) ;;;
     fun ss => print (EchoIncluded (files_below h skill_temp_dir (files ss))) ss)
    (fun ss =>
       if exists_ skill_temp_dir (files ss)
       then mkSession (rmtree skill_temp_dir (files ss)) (console ss)
       else ss).

(** The handler [except Exception as e] that closes [info]. *)
Definition info_guard (r : ended unit * session) : ended unit * session :=
  match r with
  | (Thrown e, ss) => (Exit 1, mkSession (files ss) (console ss ++ [ErrInstall e])%list)
  | done => done
  end.

(** [info(skill_spec, repo, ref)] *)
Inductive info (w : world) (h : host) (skill_spec : string) (repo : option string)
    (ref0 : string) (ss : session) : ended unit * session -> Prop :=
| info_not_found : forall code ss1,
    info_head w skill_spec ref0 repo ss = (Exit code, ss1) ->
    info w h skill_spec repo ref0 ss (Exit code, ss1)
| info_lookup_raised : forall e ss1,
    info_head w skill_spec ref0 repo ss = (Thrown e, ss1) ->
    info w h skill_spec repo ref0 ss (info_guard (Thrown e, ss1))
| info_not_downloaded : forall spec ss1 st,
    info_head w skill_spec ref0 repo ss = (Value spec, ss1) ->
    _resolve_and_download_skill w spec ref0 repo (mkState (files ss1) []) (None, st) ->
    info w h skill_spec repo ref0 ss (Exit 1, after_download ss1 st)
| info_downloaded : forall spec ss1 skill_temp_dir st,
    info_head w skill_spec ref0 repo ss = (Value spec, ss1) ->
    _resolve_and_download_skill w spec ref0 repo (mkState (files ss1) [])
      (Some skill_temp_dir, st) ->
    info w h skill_spec repo ref0 ss
      (info_guard (info_bundle w h skill_temp_dir (after_download ss1 st))).

(** ** The [list] command *)

(** Lines 154-166 of [list_cmd]: the lines of one skill, with the command
    it suggests for installing it. *)
Definition entry_of (x : skill) : line :=
  let category := s_category x in
  let skill_name := py_str (s_name x) in
  EchoSkillEntry skill_name category
    (if Py.truthy category then category ++ "/" ++ skill_name else skill_name)
    (py_str (s_description x)) (py_str (s_version x)) (py_str (s_author x)).

Fixpoint print_skills (available_skills : list skill) : cmd unit :=
  match available_skills with
  | [] => ret tt
  | x :: rest => print (entry_of x) ;;; print_skills rest
  end.

(** Whether [json.dumps] takes the entry: its category and its path are
    strings. *)
Definition skill_json (x : skill) : bool :=
  py_json (s_name x) && py_json (s_description x) && py_json (s_version x)
  && py_json (s_author x).

(** [list_cmd(output_json, repo, ref)]; its handler is that of [info]. *)
Definition list_cmd (w : world) (output_json : bool) (repo : option string)
    (ref0 : string) : cmd unit :=
  fun ss =>
    info_guard
      ((let default_repo :=
          Py.or_else repo (_get_default_skills_repo (environ_repo w)) in
        print (EchoListFetching default_repo ref0) ;;;
        let '(available_skills, out) := _list_github_skills w default_repo ref0 [] in
        print_core out ;;;
        match available_skills with
        | [] => print EchoNoSkills
        | _ :: _ =>
            if output_json then
              if forallb skill_json available_skills
              then print (EchoJson available_skills)
              else throw TypeError
            else
              print (EchoFoundCount (length available_skills)) ;;;
              print_skills available_skills
        end) ss).

(** * Properties *)

(** ** Facts about the string primitives *)

Module PyFacts.
Import Py.

Lemma prefix_slash_cons (c : ascii) (s : string) :
  String.prefix "/" (String c s) = Ascii.eqb c "/".
Proof.
  change (String.prefix "/" (String c s))
    with (if ascii_dec "/" c then String.prefix "" s else false).
  destruct (ascii_dec "/" c) as [<- | Hne].
  - destruct s; reflexivity.
  - symmetry. apply Ascii.eqb_neq. congruence.
Qed.

Lemma prefix_app (p s : string) :
  String.prefix p s = true -> exists rest, s = p ++ rest.
Proof.
  revert s. induction p as [| a p IH]; intros s H.
  - exists s. reflexivity.
  - destruct s as [| b s]; [discriminate |].
    change (String.prefix (String a p) (String b s))
      with (if ascii_dec a b then String.prefix p s else false) in H.
    destruct (ascii_dec a b) as [-> | _]; [| discriminate].
    destruct (IH s H) as [rest ->]. exists rest. reflexivity.
Qed.

Lemma contains_slash_cons (c : ascii) (s : string) :
  contains "/" (String c s) = Ascii.eqb c "/" || contains "/" s.
Proof.
  change (contains "/" (String c s))
    with (String.prefix "/" (String c s) || contains "/" s).
  now rewrite prefix_slash_cons.
Qed.

Lemma contains_slash_app (a b : string) :
  contains "/" (a ++ b) = contains "/" a || contains "/" b.
Proof.
  induction a as [| c a IH].
  - simpl. destruct b; reflexivity.
  - change (String c a ++ b) with (String c (a ++ b)).
    rewrite !contains_slash_cons, IH. now rewrite orb_assoc.
Qed.

Lemma append_nil_r (s : string) : s ++ "" = s.
Proof. induction s; simpl; congruence. Qed.

Lemma append_assoc (a b c : string) : (a ++ b) ++ c = a ++ (b ++ c).
Proof. induction a; simpl; congruence. Qed.

Lemma split_go_slash_cons (cur : string) (c : ascii) (s : string) :
  split_go "/" None 0 cur (String c s) =
  if Ascii.eqb c "/" then cur :: split_go "/" None 0 "" s
  else split_go "/" None 0 (cur ++ String c "") s.
Proof.
  cbn [split_go can_split andb].
  rewrite prefix_slash_cons. reflexivity.
Qed.

(** A string without a slash is a single segment. *)
Lemma split_go_no_slash (s cur : string) :
  contains "/" s = false -> split_go "/" None 0 cur s = [cur ++ s].
Proof.
  revert cur. induction s as [| c s IH]; intros cur H.
  - now rewrite append_nil_r.
  - rewrite contains_slash_cons in H. apply orb_false_iff in H as [Hc Hs].
    rewrite split_go_slash_cons, Hc, IH by assumption.
    now rewrite append_assoc.
Qed.

Lemma split_no_slash (s : string) :
  contains "/" s = false -> split "/" s = [s].
Proof. intros H. unfold split. now rewrite split_go_no_slash. Qed.

(** Splitting goes through a slash-free segment up to the next slash. *)
Lemma split_go_segment (x rest cur : string) :
  contains "/" x = false ->
  split_go "/" None 0 cur (x ++ String "/" rest) =
  (cur ++ x) :: split_go "/" None 0 "" rest.
Proof.
  revert cur. induction x as [| c x IH]; intros cur H.
  - simpl append. rewrite split_go_slash_cons. simpl. now rewrite append_nil_r.
  - rewrite contains_slash_cons in H. apply orb_false_iff in H as [Hc Hx].
    change (String c x ++ String "/" rest) with (String c (x ++ String "/" rest)).
    rewrite split_go_slash_cons, Hc, IH by assumption.
    now rewrite append_assoc.
Qed.

(** [split] undoes [join] on slash-free segments. *)
Lemma split_join (x : string) (l : list string) :
  Forall (fun s => contains "/" s = false) (x :: l) ->
  split "/" (join "/" (x :: l)) = x :: l.
Proof.
  revert x. induction l as [| y l IH]; intros x H.
  - inversion H; subst. simpl. now apply split_no_slash.
  - inversion H as [| ? ? Hx Hl]; subst.
    change (join "/" (x :: y :: l)) with (x ++ String "/" (join "/" (y :: l))).
    unfold split. rewrite split_go_segment by assumption.
    simpl append. f_equal. apply IH. assumption.
Qed.

(** The segments of a split contain no slash. *)
Lemma split_go_segments_no_slash (s cur : string) :
  contains "/" cur = false ->
  Forall (fun x => contains "/" x = false) (split_go "/" None 0 cur s).
Proof.
  revert cur. induction s as [| c s IH]; intros cur H.
  - simpl. constructor; [assumption | constructor].
  - rewrite split_go_slash_cons. destruct (Ascii.eqb c "/") eqn:Hc.
    + constructor; [assumption |]. apply IH. reflexivity.
    + apply IH. rewrite contains_slash_app, H, contains_slash_cons, Hc.
      reflexivity.
Qed.

Lemma split_segments_no_slash (s : string) :
  Forall (fun x => contains "/" x = false) (split "/" s).
Proof. apply split_go_segments_no_slash. reflexivity. Qed.

Lemma split_go_nonempty (sep : string) (b : option nat) (k : nat) (cur s : string) :
  split_go sep b k cur s <> [].
Proof.
  revert b k cur. induction s as [| c s IH]; intros b k cur; cbn [split_go].
  - discriminate.
  - destruct k; [| apply IH].
    destruct (can_split b && String.prefix sep (String c s));
      [discriminate | apply IH].
Qed.

(** A string with a slash has at least two segments. *)
Lemma split_go_slash_length (s cur : string) :
  contains "/" s = true -> 2 <= List.length (split_go "/" None 0 cur s).
Proof.
  revert cur. induction s as [| c s IH]; intros cur H.
  - discriminate.
  - rewrite contains_slash_cons in H. rewrite split_go_slash_cons.
    destruct (Ascii.eqb c "/") eqn:Hc.
    + simpl. pose proof (split_go_nonempty "/" None 0 "" s) as Hne.
      destruct (split_go "/" None 0 "" s); [congruence | simpl; lia].
    + apply IH. exact H.
Qed.

Lemma split_length_contains (s : string) :
  2 <= List.length (split "/" s) -> contains "/" s = true.
Proof.
  intros H. destruct (contains "/" s) eqn:E; [reflexivity |].
  rewrite (split_no_slash s E) in H. simpl in H. lia.
Qed.

(** A browser URL has a slash and at least four segments. *)
Lemma url_contains_slash (s : string) :
  startswith "https://github.com/" s = true -> contains "/" s = true.
Proof.
  intros H. destruct (prefix_app _ _ H) as [rest ->].
  change ("https://github.com/" ++ rest) with ("https:" ++ String "/" ("/github.com/" ++ rest)).
  rewrite contains_slash_app, contains_slash_cons. reflexivity.
Qed.

Lemma url_segments (s : string) :
  startswith "https://github.com/" s = true -> 4 <= List.length (split "/" s).
Proof.
  intros H. destruct (prefix_app _ _ H) as [rest ->].
  unfold split.
  change ("https://github.com/" ++ rest)
    with ("https:" ++ String "/" ("" ++ String "/" ("github.com" ++ String "/" rest))).
  rewrite !split_go_segment by reflexivity.
  pose proof (split_go_nonempty "/" None 0 "" rest) as Hne.
  destruct (split_go "/" None 0 "" rest); [congruence | simpl; lia].
Qed.

End PyFacts.

(** ** Spec resolution *)

Section Resolve.
Import Py PyFacts.

Variable env : environ.
Variable ref0 : string.

Lemma unpack2_wrong_length (l : list string) :
  length l <> 2 -> unpack2 l = Raise ValueError.
Proof.
  destruct l as [| a [| b [| c l]]]; simpl; intros H; try reflexivity; lia.
Qed.

Lemma Forall_removelast {A : Type} (P : A -> Prop) (l : list A) :
  Forall P l -> Forall P (removelast l).
Proof.
  induction 1 as [| x l Hx Hl IH]; simpl; [constructor |].
  destruct l; [constructor | constructor; assumption].
Qed.

Lemma removelast_length {A : Type} (l : list A) :
  length (removelast l) = length l - 1.
Proof.
  induction l as [| x l IH]; [reflexivity |].
  destruct l as [| y l]; [reflexivity |].
  change (removelast (x :: y :: l)) with (x :: removelast (y :: l)).
  simpl length in *. rewrite IH. lia.
Qed.

(** Joining the leading segments of a split and splitting again gives them
    back, or the single empty segment when there is none. *)
Lemma split_join_but_last (s : string) :
  length (split "/" (join "/" (but_last (split "/" s)))) =
  Nat.max 1 (length (split "/" s) - 1).
Proof.
  pose proof (split_segments_no_slash s) as Hall.
  apply Forall_removelast in Hall.
  pose proof (removelast_length (split "/" s)) as Hlen.
  unfold but_last. destruct (removelast (split "/" s)) as [| x l] eqn:E.
  - rewrite <- Hlen. reflexivity.
  - rewrite split_join by assumption. rewrite <- Hlen. simpl. lia.
Qed.

(** The owner, repository and path of a spec that takes the URL branch. *)
Lemma resolve_url (spec : string) (ov : option string) :
  startswith github_prefix spec = true ->
  resolve env spec ref0 ov =
    let parts := split "/tree/" (replace github_prefix "" spec) in
    match tl parts with
    | p1 :: _ =>
        let? (o, r) := unpack2 (split "/" (hd "" parts)) in
        Ok (mkTarget o r (join "/" (tl (split "/" p1))) (hd "" (split "/" p1)))
    | [] =>
        let? (o, r) :=
          unpack2 (split "/" (join "/" (but_last (split "/" (hd "" parts))))) in
        Ok (mkTarget o r (last_seg (split "/" (hd "" parts))) ref0)
    end.
Proof.
  intros H. unfold resolve. rewrite H.
  cbv zeta. destruct (tl (split "/tree/" (replace github_prefix "" spec)));
    reflexivity.
Qed.

Lemma resolve_not_url (spec : string) (ov : option string) :
  startswith github_prefix spec = false ->
  resolve env spec ref0 ov =
    if contains "/" spec then
      if Nat.leb 3 (length (split "/" spec)) then
        Ok (mkTarget (nth 0 (split "/" spec) "") (nth 1 (split "/" spec) "")
              (join "/" (skipn 2 (split "/" spec))) ref0)
      else
        let? (o, r) :=
          unpack2 (split "/" (or_else ov (_get_default_skills_repo env))) in
        Ok (mkTarget o r spec ref0)
    else
      let? (o, r) :=
        unpack2 (split "/" (or_else ov (_get_default_skills_repo env))) in
      Ok (mkTarget o r spec ref0).
Proof.
  intros H. unfold resolve. rewrite H.
  destruct (contains "/" spec); [| reflexivity].
  destruct (Nat.leb 3 (length (split "/" spec))); [reflexivity |].
  destruct ov as [s |]; simpl; [| reflexivity].
  destruct (truthy s); reflexivity.
Qed.

End Resolve.

(** C3: for every spec of the slash-delimited form (the browser URL is
    another form, tried before it) that has three or more segments,
    resolution yields owner and repo equal to the first two segments, path
    equal to the remaining segments joined with a slash, and the ref it was
    given, whatever the repository override. *)
Theorem C3_three_segments (env : environ) (spec ref0 : string) (ov : option string) :
  Py.startswith github_prefix spec = false ->
  3 <= length (Py.split "/" spec) ->
  resolve env spec ref0 ov =
    Ok (mkTarget (nth 0 (Py.split "/" spec) "") (nth 1 (Py.split "/" spec) "")
          (Py.join "/" (skipn 2 (Py.split "/" spec))) ref0)
  /\ (forall o r rest,
         Py.split "/" spec = o :: r :: rest ->
         resolve env spec ref0 ov = Ok (mkTarget o r (Py.join "/" rest) ref0)).
Proof.
  intros Hurl Hlen.
  assert (Hres : resolve env spec ref0 ov =
    Ok (mkTarget (nth 0 (Py.split "/" spec) "") (nth 1 (Py.split "/" spec) "")
          (Py.join "/" (skipn 2 (Py.split "/" spec))) ref0)).
  { rewrite resolve_not_url by assumption.
    rewrite PyFacts.split_length_contains by lia.
    apply Nat.leb_le in Hlen. rewrite Hlen. reflexivity. }
  split; [exact Hres |].
  intros o r rest E. rewrite Hres, E. reflexivity.
Qed.

Lemma C3_three_segments_witness :
  resolve None "owner/repo/web/react-expert" "main" (Some "acme/skills") =
    Ok (mkTarget "owner" "repo" "web/react-expert" "main").
Proof.
  refine (proj2 (C3_three_segments None "owner/repo/web/react-expert" "main"
                   (Some "acme/skills") _ _) "owner" "repo" ["web"; "react-expert"] _).
  - reflexivity.
  - vm_compute. lia.
  - reflexivity.
Defined.

(** C4: a bare name, or a spec of exactly two segments, resolves to the
    owner and repository of the override when one is given (and not empty)
    and of the default repository otherwise, with the spec itself as path;
    in particular "web/react-expert" under the default "acme/skills". *)
Theorem C4_repo_from_override_or_default
    (env : environ) (spec ref0 : string) (ov : option string) (o r : string) :
  Py.contains "/" spec = false \/ length (Py.split "/" spec) = 2 ->
  Py.split "/" (Py.or_else ov (_get_default_skills_repo env)) = [o; r] ->
  resolve env spec ref0 ov = Ok (mkTarget o r spec ref0)
  /\ resolve (Some "acme/skills") "web/react-expert" "main" None =
       Ok (mkTarget "acme" "skills" "web/react-expert" "main").
Proof.
  intros Hshape Hrepo. split; [| reflexivity].
  assert (Hurl : Py.startswith github_prefix spec = false).
  { destruct (Py.startswith github_prefix spec) eqn:E; [| reflexivity].
    pose proof (PyFacts.url_contains_slash spec E) as Hc.
    pose proof (PyFacts.url_segments spec E) as Hl.
    destruct Hshape as [Hn | Hn]; [congruence | lia]. }
  rewrite resolve_not_url by assumption. rewrite Hrepo.
  destruct (Py.contains "/" spec); [| reflexivity].
  destruct Hshape as [Hn | Hn]; [discriminate |].
  rewrite Hn. reflexivity.
Qed.

Lemma C4_repo_from_override_or_default_witness :
  resolve None "react-expert" "dev" (Some "acme/skills") =
    Ok (mkTarget "acme" "skills" "react-expert" "dev").
Proof.
  refine (proj1 (C4_repo_from_override_or_default None "react-expert" "dev"
                   (Some "acme/skills") "acme" "skills" _ _)).
  - left. reflexivity.
  - reflexivity.
Defined.

(** C5, as stated, fails: a URL without the tree separator need not resolve. *)
Lemma C5_counterexample :
  ~ (forall (env : environ) (spec ref0 : string) (ov : option string),
        Py.startswith github_prefix spec = true ->
        Py.contains "/tree/" spec = false ->
        exists t, resolve env spec ref0 ov = Ok t).
Proof.
  intros H.
  destruct (H None "https://github.com/owner/repo" "main" None) as [t Ht];
    [reflexivity | reflexivity |].
  vm_compute in Ht. discriminate Ht.
Qed.

(** C5 (amended): for a browser URL, the text after the prefix is split on
    the tree separator.  When the separator is there, the part before it must
    be exactly owner/repo, the ref is the first segment after it and the path
    the segments after the ref, up to the next tree separator.  When it is
    absent, the last segment is the skill name and the segments before it are
    taken as owner/repo: resolution succeeds when there are exactly three
    segments and raises otherwise. *)
Theorem C5_browser_url (env : environ) (spec ref0 : string) (ov : option string) :
  Py.startswith github_prefix spec = true ->
  let parts := Py.split "/tree/" (Py.replace github_prefix "" spec) in
  (forall rp p1 more o r,
      parts = rp :: p1 :: more ->
      Py.split "/" rp = [o; r] ->
      resolve env spec ref0 ov =
        Ok (mkTarget o r (Py.join "/" (tl (Py.split "/" p1)))
              (hd "" (Py.split "/" p1))))
  /\ (forall rp o r name,
         parts = [rp] ->
         Py.split "/" rp = [o; r; name] ->
         resolve env spec ref0 ov = Ok (mkTarget o r name ref0))
  /\ (forall rp,
         parts = [rp] ->
         length (Py.split "/" rp) <> 3 ->
         resolve env spec ref0 ov = Raise ValueError).
Proof.
  intros Hurl parts. subst parts.
  rewrite (resolve_url env ref0 spec ov Hurl). cbv zeta.
  split; [| split].
  - intros rp p1 more o r -> Hrp. simpl. rewrite Hrp. reflexivity.
  - intros rp o r name -> Hrp. simpl tl. simpl hd. cbv iota.
    pose proof (PyFacts.split_segments_no_slash rp) as Hall.
    rewrite Hrp in *.
    change (Py.but_last [o; r; name]) with [o; r].
    rewrite PyFacts.split_join.
    + reflexivity.
    + inversion Hall as [| ? ? Ho Hall']; subst.
      inversion Hall' as [| ? ? Hr _]; subst.
      repeat constructor; assumption.
  - intros rp -> Hlen. simpl tl. simpl hd. cbv iota.
    rewrite unpack2_wrong_length; [reflexivity |].
    rewrite split_join_but_last. lia.
Qed.

Lemma C5_browser_url_witness :
  resolve None "https://github.com/o/r/tree/dev/cat/skill" "main" None =
    Ok (mkTarget "o" "r" "cat/skill" "dev")
  /\ resolve None "https://github.com/o/r/skill" "main" None =
       Ok (mkTarget "o" "r" "skill" "main")
  /\ resolve None "https://github.com/o/r/cat/skill" "main" None = Raise ValueError.
Proof.
  split; [| split].
  - refine (proj1 (C5_browser_url None "https://github.com/o/r/tree/dev/cat/skill"
                     "main" None _) "o/r" "dev/cat/skill" [] "o" "r" _ _);
      reflexivity.
  - refine (proj1 (proj2 (C5_browser_url None "https://github.com/o/r/skill"
                            "main" None _)) "o/r/skill" "o" "r" "skill" _ _);
      reflexivity.
  - refine (proj2 (proj2 (C5_browser_url None "https://github.com/o/r/cat/skill"
                            "main" None _)) "o/r/cat/skill" _ _).
    + reflexivity.
    + reflexivity.
    + vm_compute. lia.
Defined.

(** ** Front matter *)




(** ** The worker pool *)

Section Pool.

Variable w : world.

Lemma download_file_outcome (j : job) (l : list path) :
  fst (_download_file w j l) = outcome w j.
Proof.
  unfold outcome, _download_file. destruct j as [[url file] display].
  destruct (raw_get w url) as [resp | e]; [| reflexivity].
  destruct (raise_for_status (raw_status resp)); [| reflexivity].
  destruct (writable w file); reflexivity.
Qed.

Lemma pool_step_owed (p q : pool) :
  pool_step w p q -> Permutation (owed w p) (owed w q).
Proof.
  intros H. destruct H as [j rest run dn l Hfree | pend r1 j r2 dn l];
    unfold owed; cbn [pending running done].
  - rewrite map_app. cbn [map app].
    rewrite <- (app_assoc (map (outcome w) run) [outcome w j] dn). cbn [app].
    rewrite !(app_assoc (map (outcome w) rest)).
    apply Permutation_cons_app. reflexivity.
  - rewrite download_file_outcome, !map_app. cbn [map].
    apply Permutation_app_head. rewrite <- !app_assoc. cbn [app].
    apply Permutation_app_head.
    rewrite (app_assoc (map (outcome w) r2)).
    apply Permutation_cons_append.
Qed.

Lemma pool_steps_owed (p q : pool) :
  pool_steps w p q -> Permutation (owed w p) (owed w q).
Proof.
  induction 1 as [p | p q r Hstep _ IH]; [reflexivity |].
  apply Permutation_trans with (owed w q); [apply pool_step_owed |]; assumption.
Qed.

Lemma pool_steps_trans (p q r : pool) :
  pool_steps w p q -> pool_steps w q r -> pool_steps w p r.
Proof.
  induction 1 as [| p q q' Hstep _ IH]; [trivial |].
  intros Hr. eapply steps_cons; [exact Hstep | apply IH, Hr].
Qed.

(** Every complete run yields the outcomes of the jobs, each once. *)
Lemma pool_runs_permutation (jobs : list job) (l : list path)
    (results : list (bool * string)) (l' : list path) :
  pool_runs w jobs l results l' -> Permutation results (map (outcome w) jobs).
Proof.
  intros H. apply pool_steps_owed in H. unfold owed in H. cbn in H.
  rewrite app_nil_r in H. symmetry. exact H.
Qed.

(** No deadlock: a pool with unfinished work can move. *)
Lemma pool_progress (p : pool) :
  pending p <> [] \/ running p <> [] -> exists q, pool_step w p q.
Proof.
  destruct p as [pend run dn l]. cbn [pending running]. intros H.
  destruct run as [| j run].
  - destruct pend as [| j rest]; [destruct H; congruence |].
    eexists. apply step_start. unfold max_workers. simpl. lia.
  - eexists. apply (step_finish w pend [] j run dn l).
Qed.

(** No livelock: every step uses up work. *)
Lemma pool_step_work (p q : pool) : pool_step w p q -> work q < work p.
Proof.
  intros H. destruct H; unfold work; cbn [pending running];
    rewrite ?length_app; cbn [length]; lia.
Qed.

(** So every pool drains: from any state a final state is reached. *)
Lemma pool_drains (p : pool) :
  exists results l', pool_steps w p (mkPool [] [] results l').
Proof.
  remember (work p) as n eqn:Hn. revert p Hn.
  induction n as [n IH] using lt_wf_ind. intros p Hn.
  destruct p as [pend run dn l].
  destruct pend as [| j rest]; destruct run as [| k run].
  - exists dn, l. apply steps_refl.
  - destruct (pool_progress (mkPool [] (k :: run) dn l)) as [q Hq];
      [right; discriminate |].
    destruct (IH (work q)) with (p := q) as (rs & l' & Hrun);
      [subst n; apply pool_step_work, Hq | reflexivity |].
    exists rs, l'. eapply steps_cons; eassumption.
  - destruct (pool_progress (mkPool (j :: rest) [] dn l)) as [q Hq];
      [left; discriminate |].
    destruct (IH (work q)) with (p := q) as (rs & l' & Hrun);
      [subst n; apply pool_step_work, Hq | reflexivity |].
    exists rs, l'. eapply steps_cons; eassumption.
  - destruct (pool_progress (mkPool (j :: rest) (k :: run) dn l)) as [q Hq];
      [left; discriminate |].
    destruct (IH (work q)) with (p := q) as (rs & l' & Hrun);
      [subst n; apply pool_step_work, Hq | reflexivity |].
    exists rs, l'. eapply steps_cons; eassumption.
Qed.

(** The sequential schedule is a run of the pool. *)
Lemma run_in_order_steps (jobs : list job) (dn : list (bool * string)) (l : list path) :
  pool_steps w (mkPool jobs [] dn l)
    (mkPool [] [] (dn ++ fst (run_in_order w jobs l)) (snd (run_in_order w jobs l))).
Proof.
  revert dn l. induction jobs as [| j rest IH]; intros dn l.
  - simpl. rewrite app_nil_r. apply steps_refl.
  - cbn [run_in_order].
    destruct (_download_file w j l) as [r l1] eqn:Ej.
    destruct (run_in_order w rest l1) as [rs l2] eqn:Er.
    eapply steps_cons.
    { apply (step_start w j rest [] dn l). unfold max_workers. simpl. lia. }
    eapply steps_cons.
    { apply (step_finish w rest [] j [] dn l). }
    rewrite Ej. cbn [fst snd app].
    specialize (IH (dn ++ [r])%list l1). rewrite Er in IH. cbn [fst snd] in IH.
    rewrite <- app_assoc in IH. exact IH.
Qed.

Lemma run_in_order_runs (jobs : list job) (l : list path) :
  pool_runs w jobs l (fst (run_in_order w jobs l)) (snd (run_in_order w jobs l)).
Proof. apply (run_in_order_steps jobs [] l). Qed.

Lemma failures_permutation (a b : list (bool * string)) :
  Permutation a b -> failures a = failures b.
Proof.
  unfold failures.
  induction 1 as [| x a b _ IH | x y a | a b c _ IH1 _ IH2]; cbn [filter].
  - reflexivity.
  - destruct (negb (fst x)); cbn [length]; congruence.
  - destruct (negb (fst x)), (negb (fst y)); reflexivity.
  - congruence.
Qed.

(** The result loop counts every result and every failure. *)
Lemma report_counts (total : nat) (results : list (bool * string))
    (completed failed : nat) (out : list msg) :
  exists out',
    report total results completed failed out =
      (completed + length results, failed + failures results, out')
    /\ exists more, out' = (out ++ more)%list.
Proof.
  revert completed failed out.
  induction results as [| [success what] rest IH]; intros completed failed out.
  - exists out. cbn. rewrite !Nat.add_0_r. split; [reflexivity |].
    exists []. now rewrite app_nil_r.
  - cbn [report]. unfold failures in *. cbn [filter fst length].
    destruct success; cbn [negb].
    + destruct (progress_due (completed + 1) total).
      * destruct (IH (completed + 1) failed
                    (out ++ [EchoProgress (completed + 1) total])%list)
          as (out' & E & more & Hmore).
        exists out'. rewrite E. split; [f_equal; f_equal; lia |].
        exists (EchoProgress (completed + 1) total :: more).
        rewrite Hmore, <- app_assoc. reflexivity.
      * destruct (IH (completed + 1) failed out) as (out' & E & more & Hmore).
        exists out'. rewrite E. split; [f_equal; f_equal; lia |].
        exists more. exact Hmore.
    + destruct (IH (completed + 1) (failed + 1) (out ++ [ErrFileFailed what])%list)
        as (out' & E & more & Hmore).
      exists out'. rewrite E. cbn [length]. split; [f_equal; f_equal; lia |].
      exists (ErrFileFailed what :: more).
      rewrite Hmore, <- app_assoc. reflexivity.
Qed.

(** After the loop, a positive number of failures is printed. *)
Lemma download_finish_warns (temp_dir : path) (files : list job)
    (results : list (bool * string)) (st : state) :
  0 < failures results ->
  In (WarnFailedCount (failures results))
     (log (snd (download_finish temp_dir files results st))).
Proof.
  intros Hpos. unfold download_finish.
  destruct (report_counts (length files) results 0 0 (log st))
    as (out' & E & _).
  rewrite E. cbn [Nat.add].
  apply Nat.ltb_lt in Hpos. rewrite Hpos.
  match goal with
  | |- context [if ?c then _ else _] => destruct c
  end; cbn [snd log echo fs]; rewrite ?in_app_iff; cbn [In]; tauto.
Qed.

End Pool.

(** C1: on every non-empty job list the pool can run to completion, and can
    still do so from every state it reaches; every complete run yields
    exactly the outcomes of the jobs, one per job, a failed job contributing
    its failed outcome; the result loop ends with [completed] equal to the
    number of jobs and [failed] equal to the number of failed jobs, which
    the function then prints.  In particular five jobs of which one fails
    give five outcomes, one failure and [failed = 1]. *)
Theorem C1_one_outcome_per_job (w : world) (jobs : list job) (l : list path) :
  jobs <> [] ->
  (exists results l', pool_runs w jobs l results l')
  /\ (forall p, pool_steps w (mkPool jobs [] [] l) p ->
        exists results l', pool_steps w p (mkPool [] [] results l'))
  /\ (forall results l',
        pool_runs w jobs l results l' ->
        Permutation results (map (outcome w) jobs)
        /\ length results = length jobs
        /\ failures results = failures (map (outcome w) jobs)
        /\ (forall out, exists out',
              report (length jobs) results 0 0 out =
                (length jobs, failures results, out'))
        /\ (forall temp_dir st,
              0 < failures results ->
              In (WarnFailedCount (failures results))
                 (log (snd (download_finish temp_dir jobs results st))))
        /\ (length jobs = 5 -> failures (map (outcome w) jobs) = 1 ->
            length results = 5 /\ failures results = 1)).
Proof.
  intros _. split; [| split].
  - exists (fst (run_in_order w jobs l)), (snd (run_in_order w jobs l)).
    apply run_in_order_runs.
  - intros p _. apply pool_drains.
  - intros results l' Hrun.
    pose proof (pool_runs_permutation w jobs l results l' Hrun) as Hperm.
    assert (Hlen : length results = length jobs).
    { rewrite (Permutation_length Hperm). apply length_map. }
    assert (Hfail : failures results = failures (map (outcome w) jobs))
      by (apply failures_permutation, Hperm).
    repeat split; try assumption; try congruence.
    + intros out.
      destruct (report_counts (length jobs) results 0 0 out) as (out' & E & _).
      exists out'. rewrite E, Hlen. reflexivity.
    + intros temp_dir st. apply download_finish_warns.
Qed.

Lemma C1_one_outcome_per_job_witness :
  five_jobs <> []
  /\ length (fst (run_in_order five_world five_jobs [])) = 5
  /\ failures (fst (run_in_order five_world five_jobs [])) = 1.
Proof.
  assert (Hne : five_jobs <> []) by discriminate.
  split; [exact Hne |].
  destruct (C1_one_outcome_per_job five_world five_jobs [] Hne) as (_ & _ & H).
  destruct (H _ _ (run_in_order_runs five_world five_jobs []))
    as (_ & _ & _ & _ & _ & H5).
  apply H5; reflexivity.
Defined.

(** ** Recursive listing *)

Section Listing.

Variable w : world.
Variable ref0 : string.

Lemma failing_dir (name url : string) (children : list rtree) :
  failing (Dir name url None children) = forest_failing children.
Proof.
  cbn [failing]. induction children as [| c l IH]; [reflexivity |].
  cbn [forest_failing]. rewrite <- IH. reflexivity.
Qed.

Lemma depth_dir (name url : string) (f : option exn) (children : list rtree) :
  depth (Dir name url f children) = S (forest_depth children).
Proof.
  cbn [depth]. apply (f_equal S). induction children as [| c l IH]; [reflexivity |].
  cbn [forest_depth]. rewrite <- IH. reflexivity.
Qed.

Lemma jobs_of_dir (local_dir : path) (name url : string) (f : option exn)
    (children : list rtree) :
  jobs_of local_dir (Dir name url f children) =
  forest_jobs (pjoin local_dir name) children.
Proof.
  cbn [jobs_of]. induction children as [| c l IH]; [reflexivity |].
  cbn [forest_jobs]. rewrite <- IH. reflexivity.
Qed.

Lemma count_downloadable_dir (name url : string) (f : option exn)
    (children : list rtree) :
  count_downloadable (Dir name url f children) = forest_count_downloadable children.
Proof.
  cbn [count_downloadable]. induction children as [| c l IH]; [reflexivity |].
  cbn [forest_count_downloadable]. rewrite <- IH. reflexivity.
Qed.

Lemma count_files_dir (name url : string) (f : option exn) (children : list rtree) :
  count_files (Dir name url f children) = forest_count_files children.
Proof.
  cbn [count_files]. induction children as [| c l IH]; [reflexivity |].
  cbn [forest_count_files]. rewrite <- IH. reflexivity.
Qed.

Lemma file_urls_dir (name url : string) (f : option exn) (children : list rtree) :
  file_urls (Dir name url f children) = forest_file_urls children.
Proof.
  cbn [file_urls]. induction children as [| c l IH]; [reflexivity |].
  cbn [forest_file_urls]. rewrite <- IH. reflexivity.
Qed.

(** An induction principle that reaches the children of a directory. *)
Lemma rtree_forest_ind (P : rtree -> Prop) :
  (forall name p d, P (File name p d)) ->
  (forall name url f children, Forall P children -> P (Dir name url f children)) ->
  forall t, P t.
Proof.
  intros Hfile Hdir.
  fix IH 1. intros [name p d | name url f children].
  - apply Hfile.
  - apply Hdir. induction children as [| c l IHl]; constructor.
    + apply IH.
    + exact IHl.
Qed.

Lemma is_kind_of_type (k : string) (o : jobj) (t : string) :
  j_type o = Some t -> is_kind k o = (t =? k).
Proof. intros H. unfold is_kind. now rewrite H. Qed.

(** The loop over the entries of a directory whose subtrees are listed
    correctly by [recurse]. *)
Lemma collect_items_served
    (recurse : string -> path -> list job -> list job * result unit)
    (bound : nat) :
  (forall url local_dir files children,
      served_at w ref0 url children ->
      forest_failing children = false ->
      forest_depth children < bound ->
      recurse url local_dir files =
        ((files ++ forest_jobs local_dir children)%list, Ok tt)) ->
  forall children l,
    Forall2 (served w ref0) children l ->
    forest_failing children = false ->
    forest_depth children < S bound ->
    forall local_dir files,
      collect_items recurse local_dir l files =
        ((files ++ forest_jobs local_dir children)%list, Ok tt).
Proof.
  intros Hrec children l Hall.
  induction Hall as [| t j children l Ht _ IH]; intros Hfail Hdepth local_dir files.
  - cbn. now rewrite app_nil_r.
  - cbn [forest_failing forest_depth forest_jobs] in *.
    apply orb_false_iff in Hfail as [Hft Hfl].
    assert (Hdl : forest_depth children < S bound) by lia.
    specialize (IH Hfl Hdl).
    inversion Ht as [name p d o Hty Hname Hp Hd
                    | name url cs o lc Hty Hname Hurl Hfetch Hcs
                    | name url e cs o Hty Hname Hurl Hfetch]; subst.
    + cbn [collect_items jobs_of].
      rewrite (is_kind_of_type "file" o "file" Hty). cbn [String.eqb Ascii.eqb Bool.eqb].
      destruct (Py.if_truthy (j_download_url o)) as [u |].
      * rewrite Hname. rewrite IH, <- app_assoc. reflexivity.
      * rewrite IH. reflexivity.
    + cbn [collect_items].
      rewrite (is_kind_of_type "file" o "dir" Hty), (is_kind_of_type "dir" o "dir" Hty).
      cbn [String.eqb Ascii.eqb Bool.eqb]. rewrite Hname, Hurl.
      rewrite failing_dir in Hft. rewrite depth_dir in Hdepth.
      rewrite (Hrec url (pjoin local_dir name) files cs);
        [| exists lc; split; assumption | assumption | lia].
      rewrite IH, jobs_of_dir, <- app_assoc. reflexivity.
    + discriminate Hft.
Qed.

(** A tree without failing request, and not deeper than the recursion
    allowed, is listed completely. *)
Lemma collect_files_served (fuel : nat) :
  forall url local_dir files children,
    served_at w ref0 url children ->
    forest_failing children = false ->
    forest_depth children < fuel ->
    _collect_files w ref0 fuel url local_dir files =
      ((files ++ forest_jobs local_dir children)%list, Ok tt).
Proof.
  induction fuel as [| fuel IH]; intros url local_dir files children Hs Hf Hd.
  - lia.
  - destruct Hs as (l & Hfetch & Hall).
    cbn [_collect_files]. rewrite Hfetch.
    apply (collect_items_served _ fuel IH children l Hall Hf Hd).
Qed.

(** The loop over the entries of a directory one of whose subtrees has a
    failing request. *)
Lemma collect_items_failing
    (recurse : string -> path -> list job -> list job * result unit) :
  (forall url local_dir files children,
      served_at w ref0 url children ->
      forest_failing children = true ->
      exists files' e, recurse url local_dir files = (files', Raise e)) ->
  (forall url local_dir files e,
      fetch_json w ref0 url = Raise e ->
      exists files' e', recurse url local_dir files = (files', Raise e')) ->
  forall children l,
    Forall2 (served w ref0) children l ->
    forest_failing children = true ->
    forall local_dir files,
      exists files' e, collect_items recurse local_dir l files = (files', Raise e).
Proof.
  intros Hrec Hfetchfail children l Hall.
  induction Hall as [| t j children l Ht _ IH]; intros Hfail local_dir files.
  - discriminate Hfail.
  - cbn [forest_failing] in Hfail.
    inversion Ht as [name p d o Hty Hname Hp Hd
                    | name url cs o lc Hty Hname Hurl Hfetch Hcs
                    | name url e cs o Hty Hname Hurl Hfetch]; subst.
    + cbn [failing orb] in Hfail. cbn [collect_items].
      rewrite (is_kind_of_type "file" o "file" Hty). cbn [String.eqb Ascii.eqb Bool.eqb].
      destruct (Py.if_truthy (j_download_url o)) as [u |].
      * rewrite Hname. apply IH, Hfail.
      * apply IH, Hfail.
    + cbn [collect_items].
      rewrite (is_kind_of_type "file" o "dir" Hty), (is_kind_of_type "dir" o "dir" Hty).
      cbn [String.eqb Ascii.eqb Bool.eqb]. rewrite Hname, Hurl.
      rewrite failing_dir in Hfail.
      destruct (forest_failing cs) eqn:Hcsf.
      * destruct (Hrec url (pjoin local_dir name) files cs) as (files' & e & E);
          [exists lc; split; assumption | assumption |].
        rewrite E. exists files', e. reflexivity.
      * cbn [orb] in Hfail.
        destruct (recurse url (pjoin local_dir name) files) as [files' [[] | e]].
        -- apply IH, Hfail.
        -- exists files', e. reflexivity.
    + cbn [collect_items].
      rewrite (is_kind_of_type "file" o "dir" Hty), (is_kind_of_type "dir" o "dir" Hty).
      cbn [String.eqb Ascii.eqb Bool.eqb]. rewrite Hname, Hurl.
      destruct (Hfetchfail url (pjoin local_dir name) files e Hfetch)
        as (files' & e' & E).
      rewrite E. exists files', e'. reflexivity.
Qed.

Lemma collect_files_fetch_fails (fuel : nat) (url : string) (local_dir : path)
    (files : list job) (e : exn) :
  fetch_json w ref0 url = Raise e ->
  exists files' e', _collect_files w ref0 fuel url local_dir files = (files', Raise e').
Proof.
  intros H. destruct fuel as [| fuel]; cbn [_collect_files].
  - exists files, RecursionError. reflexivity.
  - rewrite H. exists files, e. reflexivity.
Qed.

(** A failing request anywhere below makes the whole listing raise. *)
Lemma collect_files_failing (fuel : nat) :
  forall url local_dir files children,
    served_at w ref0 url children ->
    forest_failing children = true ->
    exists files' e,
      _collect_files w ref0 fuel url local_dir files = (files', Raise e).
Proof.
  induction fuel as [| fuel IH]; intros url local_dir files children Hs Hf.
  - exists files, RecursionError. reflexivity.
  - destruct Hs as (l & Hfetch & Hall).
    cbn [_collect_files]. rewrite Hfetch.
    apply (collect_items_failing _ IH (collect_files_fetch_fails fuel) children l Hall Hf).
Qed.

Lemma forest_jobs_length (local_dir : path) (children : list rtree) :
  length (forest_jobs local_dir children) = forest_count_downloadable children.
Proof.
  revert local_dir.
  assert (Htree : forall t local_dir,
             length (jobs_of local_dir t) = count_downloadable t).
  { induction t as [name p d | name url f cs IHcs] using rtree_forest_ind;
      intros local_dir.
    - cbn. destruct d as [s |]; cbn; [destruct (Py.truthy s) |]; reflexivity.
    - rewrite jobs_of_dir, count_downloadable_dir.
      induction IHcs as [| c cs Hc _ IH]; [reflexivity |].
      cbn [forest_jobs forest_count_downloadable].
      rewrite length_app, Hc, IH. reflexivity. }
  induction children as [| c cs IH]; intros local_dir; [reflexivity |].
  cbn [forest_jobs forest_count_downloadable].
  rewrite length_app, Htree, IH. reflexivity.
Qed.

Lemma forest_jobs_urls (local_dir : path) (children : list rtree) :
  map (fun j : job => fst (fst j)) (forest_jobs local_dir children) =
  forest_file_urls children.
Proof.
  revert local_dir.
  assert (Htree : forall t local_dir,
             map (fun j : job => fst (fst j)) (jobs_of local_dir t) = file_urls t).
  { induction t as [name p d | name url f cs IHcs] using rtree_forest_ind;
      intros local_dir.
    - cbn. destruct (Py.if_truthy d); reflexivity.
    - rewrite jobs_of_dir, file_urls_dir.
      induction IHcs as [| c cs Hc _ IH]; [reflexivity |].
      cbn [forest_jobs forest_file_urls].
      rewrite map_app, Hc, IH. reflexivity. }
  induction children as [| c cs IH]; intros local_dir; [reflexivity |].
  cbn [forest_jobs forest_file_urls].
  rewrite map_app, Htree, IH. reflexivity.
Qed.

Lemma forest_downloadable_le_files (children : list rtree) :
  forest_count_downloadable children <= forest_count_files children.
Proof.
  assert (Htree : forall t, count_downloadable t <= count_files t).
  { induction t as [name p d | name url f cs IHcs] using rtree_forest_ind.
    - cbn. destruct (Py.truthy_opt d); lia.
    - rewrite count_downloadable_dir, count_files_dir.
      induction IHcs as [| c cs Hc _ IH]; [reflexivity |].
      cbn [forest_count_downloadable forest_count_files]. lia. }
  induction children as [| c cs IH]; [reflexivity |].
  cbn [forest_count_downloadable forest_count_files].
  specialize (Htree c). lia.
Qed.

End Listing.

(** ** Download: what is listed, and what is left behind *)

Section Download.

Variable w : world.

Lemma is_prefix_refl (p : path) : is_prefix p p = true.
Proof. induction p as [| x p IH]; cbn; [| rewrite String.eqb_refl]; auto. Qed.

Lemma rmtree_In (d q : path) (l : list path) :
  In q (rmtree d l) <-> In q l /\ is_prefix d q = false.
Proof.
  unfold rmtree. rewrite filter_In. rewrite negb_true_iff. reflexivity.
Qed.

Lemma rmtree_gone (d : path) (l : list path) : exists_ d (rmtree d l) = false.
Proof.
  unfold exists_. apply not_true_is_false. intros H.
  apply existsb_exists in H as (q & Hq & Heq).
  apply rmtree_In in Hq as [_ Hq].
  unfold path_eqb in Heq. rewrite Hq in Heq. discriminate Heq.
Qed.

Lemma rmtree_created (d : path) (l : list path) (q : path) :
  In q (rmtree d (l ++ [d])) -> In q l /\ is_prefix d q = false.
Proof.
  intros H. apply rmtree_In in H as [Hin Hpre]. split; [| exact Hpre].
  apply in_app_or in Hin as [Hin | [<- | []]]; [exact Hin |].
  rewrite is_prefix_refl in Hpre. discriminate Hpre.
Qed.

Lemma download_finish_returns (temp_dir : path) (files : list job)
    (results : list (bool * string)) (st : state) :
  fst (download_finish temp_dir files results st) = Some temp_dir.
Proof.
  unfold download_finish.
  destruct (report (length files) results 0 0 (log st)) as [[c f] out].
  reflexivity.
Qed.

(** The function returns [None] only from the listing stage. *)
Lemma download_none (owner repo skill_path ref0 : string) (st st' : state) :
  _download_skill_from_github w owner repo skill_path ref0 st (None, st') ->
  download_prepare w owner repo skill_path ref0 st = Aborted st'.
Proof.
  intros H. remember (None, st') as out eqn:Eo.
  destruct H as [st0 Hprep | temp_dir files st1 results l2 Hprep Hrun].
  - inversion Eo; subst. exact Hprep.
  - pose proof (download_finish_returns temp_dir files results (with_fs l2 st1)) as E.
    rewrite Eo in E. discriminate E.
Qed.

(** Every abort of the listing stage removes the directory it created. *)
Lemma download_prepare_aborted (owner repo skill_path ref0 : string) (st st' : state) :
  download_prepare w owner repo skill_path ref0 st = Aborted st' ->
  fs st' = rmtree (mkdtemp w (fs st)) (fs st ++ [mkdtemp w (fs st)]).
Proof.
  unfold download_prepare.
  destruct (_collect_files w ref0 (recursion_limit w)
              (api_base owner repo skill_path) (mkdtemp w (fs st)) [])
    as [files [[] | e]].
  - destruct files; intros H; inversion H; reflexivity.
  - intros H; inversion H; reflexivity.
Qed.

Lemma download_prepare_raise (owner repo skill_path ref0 : string) (st : state)
    (files : list job) (e : exn) :
  _collect_files w ref0 (recursion_limit w) (api_base owner repo skill_path)
    (mkdtemp w (fs st)) [] = (files, Raise e) ->
  exists st', download_prepare w owner repo skill_path ref0 st = Aborted st'.
Proof.
  intros H. unfold download_prepare. rewrite H. eexists. reflexivity.
Qed.

(** The function always returns. *)
Lemma download_returns (owner repo skill_path ref0 : string) (st : state) :
  exists out, _download_skill_from_github w owner repo skill_path ref0 st out.
Proof.
  destruct (download_prepare w owner repo skill_path ref0 st)
    as [st' | temp_dir files st1] eqn:E.
  - exists (None, st'). apply download_aborted, E.
  - eexists. eapply download_done; [exact E |].
    apply (run_in_order_runs w files (fs st1)).
Qed.

Lemma resolve_and_download_returns (skill_spec ref0 : string)
    (ov : option string) (st : state) :
  exists out, _resolve_and_download_skill w skill_spec ref0 ov st out.
Proof.
  destruct (resolve (environ_repo w) skill_spec ref0 ov) as [t | e] eqn:E.
  - destruct (download_returns (t_owner t) (t_repo t) (t_path t) (t_ref t)
                (echo (EchoDownloading t) st)) as [out Hout].
    exists out. eapply resolve_ok; eassumption.
  - eexists. apply resolve_raised, E.
Qed.

End Download.

(** C2, as stated, fails: an entry of type file without download URL is a
    non-directory node of the tree and is not listed. *)
Lemma C2_counterexample :
  ~ (forall (w : world) (ref0 url : string) (local_dir : path) (fuel : nat)
            (children : list rtree),
        served_at w ref0 url children ->
        forest_failing children = false ->
        forest_depth children < fuel ->
        exists files,
          _collect_files w ref0 fuel url local_dir [] = (files, Ok tt)
          /\ length files = forest_count_files children).
Proof.
  intros H.
  destruct (H vendored_world "main" demo_url temp0 1000 vendored_tree)
    as (files & Hrun & Hlen).
  - eexists. split; [reflexivity |].
    constructor; [apply served_file; reflexivity |].
    constructor; [apply served_file; reflexivity | constructor].
  - reflexivity.
  - cbn. lia.
  - vm_compute in Hrun. inversion Hrun; subst. discriminate Hlen.
Qed.

(** C2 (amended): for every remote directory tree served below the target,
    when no listing request fails and the tree is not deeper than the
    recursion allowed, the recursive listing returns exactly the File nodes
    that carry a download URL, depth first: their number is the number of
    such nodes, their source URLs are the download URLs of those nodes, and
    no directory is among them.  When a listing request fails at any level
    the listing raises, and the download returns nothing. *)
Theorem C2_listing_of_served_tree
    (w : world) (ref0 owner repo skill_path : string) (children : list rtree) :
  served_at w ref0 (api_base owner repo skill_path) children ->
  (forest_failing children = false ->
   forest_depth children < recursion_limit w ->
   forall local_dir,
     _collect_files w ref0 (recursion_limit w) (api_base owner repo skill_path)
       local_dir [] = (forest_jobs local_dir children, Ok tt)
     /\ length (forest_jobs local_dir children) = forest_count_downloadable children
     /\ map (fun j : job => fst (fst j)) (forest_jobs local_dir children) =
        forest_file_urls children
     /\ forest_count_downloadable children <= forest_count_files children)
  /\ (forest_failing children = true ->
      (forall local_dir, exists files e,
          _collect_files w ref0 (recursion_limit w) (api_base owner repo skill_path)
            local_dir [] = (files, Raise e))
      /\ (forall st out,
             _download_skill_from_github w owner repo skill_path ref0 st out ->
             fst out = None)).
Proof.
  intros Hserved. split.
  - intros Hfail Hdepth local_dir.
    rewrite (collect_files_served w ref0 _ _ local_dir [] children Hserved Hfail Hdepth).
    repeat split.
    + apply forest_jobs_length.
    + apply forest_jobs_urls.
    + apply forest_downloadable_le_files.
  - intros Hfail. split.
    + intros local_dir. apply (collect_files_failing w ref0 _ _ _ _ children Hserved Hfail).
    + intros st out Hout.
      destruct (collect_files_failing w ref0 (recursion_limit w) _
                  (mkdtemp w (fs st)) [] children Hserved Hfail) as (files & e & E).
      destruct (download_prepare_raise w owner repo skill_path ref0 st files e E)
        as [st' Hprep].
      inversion Hout as [st0 Hp | temp_dir fl st1 results l2 Hp Hrun]; subst.
      * reflexivity.
      * rewrite Hprep in Hp. discriminate Hp.
Qed.

Lemma C2_listing_of_served_tree_witness :
  _collect_files demo_world "main" 1000 demo_url temp0 [] =
    ([("https://raw.test/SKILL.md", pjoin temp0 "SKILL.md", "web/demo/SKILL.md");
      ("https://raw.test/run.sh", pjoin (pjoin temp0 "scripts") "run.sh",
       "web/demo/scripts/run.sh")], Ok tt)
  /\ (forall st out,
         _download_skill_from_github broken_world "o" "r" "web/demo" "main" st out ->
         fst out = None).
Proof.
  split.
  - refine (proj1 (proj1 (C2_listing_of_served_tree demo_world "main" "o" "r" "web/demo"
                            demo_tree _) _ _ temp0)).
    + eexists. split; [reflexivity |].
      constructor; [apply served_file; reflexivity |].
      constructor; [| constructor].
      eapply served_dir; try reflexivity.
      constructor; [apply served_file; reflexivity | constructor].
    + reflexivity.
    + cbn. lia.
  - refine (proj2 (proj2 (C2_listing_of_served_tree broken_world "main" "o" "r" "web/demo"
                            broken_tree _) _)).
    + eexists. split; [reflexivity |].
      constructor; [apply served_file; reflexivity |].
      constructor; [| constructor].
      apply served_dir_failing; reflexivity.
    + reflexivity.
Defined.

(** C6: the contents API answers a request it cannot serve, as for a path
    that does not exist, with an error object and an error status.  Every
    listing call checks the status before it reads the body (lines 396-398,
    504-507, 533-535 and 548-550): whatever the body, the call raises and
    nothing is iterated.  In particular the recursive listing of a target
    that is answered so raises at once; the download then ends with that
    error, not with the message that no file was found, returns nothing and
    removes its directory.  The catalog ends with the error and the empty
    list; a category or a skill directory that is answered so is passed
    over.  The root listing of the catalog also reads the message of an
    object that comes with a status that is no error. *)
Theorem C6_error_response_aborts_listing
    (w : world) (ref0 url : string) (resp : response) :
  api_get w url ref0 = Ok resp ->
  400 <= status_code resp < 600 ->
  fetch_json w ref0 url = Raise HTTPError
  /\ (forall fuel local_dir files,
        _collect_files w ref0 (S fuel) url local_dir files = (files, Raise HTTPError))
  /\ (forall owner repo skill_path st out,
        url = api_base owner repo skill_path ->
        0 < recursion_limit w ->
        _download_skill_from_github w owner repo skill_path ref0 st out ->
        fst out = None
        /\ log (snd out) = (log st ++ [EchoAnalyzing; ErrDownloadFailed HTTPError])%list
        /\ fs (snd out) = rmtree (mkdtemp w (fs st)) (fs st ++ [mkdtemp w (fs st)]))
  /\ (forall repo owner repo_name out,
        unpack2 (Py.split "/" repo) = Ok (owner, repo_name) ->
        url = root_url owner repo_name ->
        _list_github_skills w repo ref0 out
        = ([], (out ++ [ErrListFailed HTTPError])%list))
  /\ (forall repo category_name s,
        scan_entries w repo ref0 category_name url s = (s, Raise HTTPError))
  /\ (forall repo category_name category_url name s,
        url = category_url ++ "/" ++ name ->
        scan_skill w repo ref0 category_name category_url name s = (s, Raise HTTPError))
  /\ (forall repo owner repo_name o m out,
        unpack2 (Py.split "/" repo) = Ok (owner, repo_name) ->
        fetch_json w ref0 (root_url owner repo_name) = Ok (JObj o) ->
        j_message o = Some m ->
        fst (_list_github_skills w repo ref0 out) = []
        /\ In (ErrApiMessage m) (snd (_list_github_skills w repo ref0 out))).
Proof.
  intros Hget Hstatus.
  assert (Hfetch : fetch_json w ref0 url = Raise HTTPError).
  { unfold fetch_json. rewrite Hget. cbn [bind]. unfold raise_for_status.
    replace (Nat.leb 400 (status_code resp)) with true
      by (symmetry; apply Nat.leb_le; lia).
    replace (Nat.ltb (status_code resp) 600) with true
      by (symmetry; apply Nat.ltb_lt; lia).
    reflexivity. }
  split; [exact Hfetch |].
  assert (Hcollect : forall fuel local_dir files,
             _collect_files w ref0 (S fuel) url local_dir files
             = (files, Raise HTTPError)).
  { intros fuel local_dir files. cbn [_collect_files]. rewrite Hfetch. reflexivity. }
  split; [exact Hcollect |].
  split; [| split; [| split; [| split]]].
  - intros owner repo skill_path st out -> Hlimit Hrun.
    assert (Hprep : download_prepare w owner repo skill_path ref0 st
                    = Aborted
                        (echo (ErrDownloadFailed HTTPError)
                           (with_fs (rmtree (mkdtemp w (fs st))
                                       (fs st ++ [mkdtemp w (fs st)]))
                              (echo EchoAnalyzing
                                 (with_fs (fs st ++ [mkdtemp w (fs st)]) st))))).
    { unfold download_prepare.
      destruct (recursion_limit w) as [| fuel]; [lia |].
      rewrite Hcollect. reflexivity. }
    destruct Hrun as [st' Hp | temp_dir fl st1 results l2 Hp Hpool];
      rewrite Hprep in Hp; [| discriminate Hp].
    inversion Hp. cbn. rewrite <- app_assoc. repeat split.
  - intros repo owner repo_name out Hrepo ->.
    unfold _list_github_skills. rewrite Hrepo.
    fold (root_url owner repo_name). rewrite Hfetch. reflexivity.
  - intros repo category_name s. unfold scan_entries. rewrite Hfetch. reflexivity.
  - intros repo category_name category_url name s ->.
    unfold scan_skill. cbv zeta. rewrite Hfetch. reflexivity.
  - intros repo owner repo_name o m out Hrepo Hroot Hm.
    unfold _list_github_skills. rewrite Hrepo.
    fold (root_url owner repo_name). rewrite Hroot, Hm.
    destruct (j_documentation_url o); cbn; split; try reflexivity;
      repeat (apply in_or_app; (right; left; reflexivity) || left);
      auto using in_or_app, in_eq.
Qed.

Lemma C6_error_response_aborts_listing_witness :
  _collect_files missing_world "main" 1000
    (api_base "o" "r" "web/missing") temp0 [] = ([], Raise HTTPError)
  /\ _list_github_skills missing_world "o/r" "main" []
     = ([], [ErrListFailed HTTPError]).
Proof.
  split.
  - apply (proj1 (proj2 (C6_error_response_aborts_listing missing_world "main"
                           (api_base "o" "r" "web/missing")
                           (mkResp 404 (Some error_object)) eq_refl
                           ltac:(cbn; lia)))).
  - apply (proj1 (proj2 (proj2 (proj2
             (C6_error_response_aborts_listing missing_world "main"
                (root_url "o" "r") (mkResp 404 (Some error_object)) eq_refl
                ltac:(cbn; lia))))) "o/r" "o" "r" []); reflexivity.
Defined.

(** C8: whenever [_resolve_and_download_skill] returns nothing, either the
    resolution raised, before any temporary directory was created, and the
    file system is as it was; or the download aborted after creating its
    temporary directory, and that directory and everything below it has
    been removed again. *)
Theorem C8_temp_dir_removed_on_abort
    (w : world) (skill_spec ref0 : string) (ov : option string) (st st' : state) :
  _resolve_and_download_skill w skill_spec ref0 ov st (None, st') ->
  ((exists e, resolve (environ_repo w) skill_spec ref0 ov = Raise e)
   /\ fs st' = fs st)
  \/ ((exists t, resolve (environ_repo w) skill_spec ref0 ov = Ok t)
      /\ fs st' = rmtree (mkdtemp w (fs st)) (fs st ++ [mkdtemp w (fs st)])
      /\ exists_ (mkdtemp w (fs st)) (fs st') = false
      /\ forall q, In q (fs st') -> In q (fs st) /\ is_prefix (mkdtemp w (fs st)) q = false).
Proof.
  intros H. remember (None, st') as out eqn:Eo.
  destruct H as [e He | t out Ht Hdl].
  - left. split; [exists e; exact He |].
    unfold resolve_failed in Eo. inversion Eo. reflexivity.
  - subst out. right. split; [exists t; exact Ht |].
    apply download_none, download_prepare_aborted in Hdl.
    cbn [echo fs] in Hdl. rewrite Hdl.
    split; [reflexivity |]. split; [apply rmtree_gone |].
    intros q. apply rmtree_created.
Qed.

Lemma C8_temp_dir_removed_on_abort_witness :
  exists_ temp0 (rmtree temp0 ([["home"]] ++ [temp0])) = false.
Proof.
  assert (Hrun : _resolve_and_download_skill broken_world "o/r/web/demo" "main" None
                   (mkState [["home"]] [])
                   (None, mkState (rmtree temp0 ([["home"]] ++ [temp0]))
                            [EchoDownloading (mkTarget "o" "r" "web/demo" "main");
                             EchoAnalyzing; ErrDownloadFailed HTTPError])).
  { eapply resolve_ok; [reflexivity |]. apply download_aborted. reflexivity. }
  destruct (C8_temp_dir_removed_on_abort _ _ _ _ _ _ Hrun)
    as [[[e He] _] | (_ & _ & Hgone & _)].
  - discriminate He.
  - exact Hgone.
Defined.

(** ** The catalog *)

Section Catalog.

Variable w : world.
Variables repo ref0 : string.






Lemma insert_sorted_permutation (x : skill) (l : list skill) :
  Permutation (insert_sorted x l) (x :: l).
Proof.
  induction l as [| y l IH]; cbn [insert_sorted]; [reflexivity |].
  destruct (key_leb (sort_key x) (sort_key y)); [reflexivity |].
  rewrite IH. apply perm_swap.
Qed.

Lemma sorted_permutation (l : list skill) : Permutation (sorted l) l.
Proof.
  induction l as [| x l IH]; [reflexivity |].
  cbn [sorted fold_right]. rewrite insert_sorted_permutation.
  constructor. exact IH.
Qed.

(** What [sorted] returns is a rearrangement of what it was given. *)
Lemma py_sorted_permutation (l l' : list skill) :
  py_sorted w l = Ok l' -> Permutation l' l.
Proof.
  unfold py_sorted. destruct (plain_names l).
  - intros H. inversion H. apply sorted_permutation.
  - destruct (sorted_objects w l) as [[l0 Hl0] | e]; [| discriminate].
    cbn [proj1_sig]. intros H. inversion H; subst l0.
    apply Permutation_sym, Hl0.
Qed.





(** When the root lists [l], the function returns the sorted skills of the
    loop over [l], or nothing when the loop raised. *)
Lemma list_github_skills_of_root (owner repo_name : string) (l : list json)
    (out : list msg) :
  unpack2 (Py.split "/" repo) = Ok (owner, repo_name) ->
  fetch_json w ref0 (root_url owner repo_name) = Ok (JArr l) ->
  fst (_list_github_skills w repo ref0 out) =
  skills_of w
    (for_each (scan_category w repo ref0 (root_url owner repo_name)) l ([], out)).
Proof.
  intros Hrepo Hroot. unfold _list_github_skills. rewrite Hrepo.
  fold (root_url owner repo_name). rewrite Hroot.
  destruct (for_each _ l ([], out)) as [s [[] | e]]; cbn [skills_of].
  - destruct (py_sorted w (fst s)) as [skills | e]; cbn; [reflexivity |].
    destruct (is_request_exception e); reflexivity.
  - cbn. destruct (is_request_exception e); reflexivity.
Qed.

(** When the root cannot be listed, the function returns the empty list. *)
Lemma list_github_skills_root_fails (owner repo_name : string) (e : exn)
    (out : list msg) :
  unpack2 (Py.split "/" repo) = Ok (owner, repo_name) ->
  fetch_json w ref0 (root_url owner repo_name) = Raise e ->
  fst (_list_github_skills w repo ref0 out) = [].
Proof.
  intros Hrepo Hroot. unfold _list_github_skills. rewrite Hrepo.
  fold (root_url owner repo_name). rewrite Hroot. cbn.
  destruct (is_request_exception e); reflexivity.
Qed.

Lemma except_request_agree (warning : exn -> msg) (a1 a2 : scan * result unit) :
  agree a1 a2 -> agree (except_request warning a1) (except_request warning a2).
Proof.
  destruct a1 as [[sk1 lg1] r1], a2 as [[sk2 lg2] r2]. unfold agree.
  cbn [fst snd]. intros [-> ->]. unfold except_request.
  destruct r2 as [u | e]; [split; reflexivity |].
  destruct (is_request_exception e); split; reflexivity.
Qed.

(** The lines printed so far have no influence on the skills found. *)
Lemma scan_skill_agree (category_name category_url name : string) (s1 s2 : scan) :
  fst s1 = fst s2 ->
  agree (scan_skill w repo ref0 category_name category_url name s1)
        (scan_skill w repo ref0 category_name category_url name s2).
Proof.
  destruct s1 as [sk1 lg1], s2 as [sk2 lg2]. cbn [fst]. intros ->.
  unfold scan_skill, agree. cbv zeta.
  destruct (fetch_json w ref0 _) as [[o' | l |] | e];
    try (split; reflexivity).
  destruct (has_manifest l); [| split; reflexivity].
  destruct (api_get w _ ref0) as [md | e]; [| split; reflexivity].
  destruct (read_metadata w category_name name md) as [metadata warned].
  cbn [fst snd].
  destruct (meta_get metadata "name" name) as [n | e];
    [| split; reflexivity].
  destruct (meta_get metadata "description" _) as [d | e];
    [| split; reflexivity].
  destruct (meta_get metadata "version" "N/A") as [v | e];
    [| split; reflexivity].
  destruct (meta_get metadata "author" "N/A") as [a | e];
    split; reflexivity.
Qed.

Lemma scan_item_agree (category_name category_url : string) (item : json)
    (s1 s2 : scan) :
  fst s1 = fst s2 ->
  agree (scan_item w repo ref0 category_name category_url item s1)
        (scan_item w repo ref0 category_name category_url item s2).
Proof.
  intros H. unfold scan_item.
  destruct item as [o | l |]; try (split; [exact H | reflexivity]).
  destruct (is_kind "dir" o); try (split; [exact H | reflexivity]).
  destruct (j_name o) as [name |]; try (split; [exact H | reflexivity]).
  apply except_request_agree, scan_skill_agree, H.
Qed.

Lemma for_each_agree {A : Type} (body : A -> scan -> scan * result unit) :
  (forall x s1 s2, fst s1 = fst s2 -> agree (body x s1) (body x s2)) ->
  forall l s1 s2, fst s1 = fst s2 -> agree (for_each body l s1) (for_each body l s2).
Proof.
  intros Hbody l. induction l as [| x l IH]; intros s1 s2 H.
  - split; [exact H | reflexivity].
  - cbn [for_each]. destruct (Hbody x s1 s2 H) as [Hsk Hres].
    destruct (body x s1) as [s1' r1], (body x s2) as [s2' r2].
    cbn [fst snd] in Hsk, Hres. subst r2.
    destruct r1 as [[] | e].
    + apply IH, Hsk.
    + split; [exact Hsk | reflexivity].
Qed.

Lemma scan_category_agree (api_url : string) (category : json) (s1 s2 : scan) :
  fst s1 = fst s2 ->
  agree (scan_category w repo ref0 api_url category s1)
        (scan_category w repo ref0 api_url category s2).
Proof.
  intros H. unfold scan_category.
  destruct category as [o | l |]; try (split; [exact H | reflexivity]).
  destruct (is_kind "dir" o); try (split; [exact H | reflexivity]).
  destruct (j_name o) as [name |]; try (split; [exact H | reflexivity]).
  apply except_request_agree. unfold scan_entries.
  destruct (fetch_json w ref0 (api_url ++ name)) as [[o' | l |] | e];
    try (split; [exact H | reflexivity]).
  apply for_each_agree; [| exact H].
  intros x. apply scan_item_agree.
Qed.

Lemma for_each_app {A : Type} (body : A -> scan -> scan * result unit)
    (l1 l2 : list A) (s : scan) :
  for_each body (l1 ++ l2) s =
  match for_each body l1 s with
  | (s1, Ok _) => for_each body l2 s1
  | (s1, Raise e) => (s1, Raise e)
  end.
Proof.
  revert s. induction l1 as [| x l1 IH]; intros s; [reflexivity |].
  cbn [app for_each]. destruct (body x s) as [s' [[] | e]]; [apply IH | reflexivity].
Qed.

Lemma skills_of_agree (r1 r2 : scan * result unit) :
  agree r1 r2 -> skills_of w r1 = skills_of w r2.
Proof.
  destruct r1 as [s1 r1], r2 as [s2 r2]. intros [Hsk Hres].
  cbn [fst snd] in Hsk, Hres. subst r2. cbn [skills_of].
  destruct r1; [rewrite Hsk |]; reflexivity.
Qed.

(** A category whose listing request fails is passed over with a warning. *)
Lemma scan_category_request_fails (api_url : string) (o : jobj)
    (category_name : string) (e : exn) (s : scan) :
  is_kind "dir" o = true ->
  j_name o = Some category_name ->
  fetch_json w ref0 (api_url ++ category_name) = Raise e ->
  is_request_exception e = true ->
  scan_category w repo ref0 api_url (JObj o) s =
    (say (WarnCategory category_name e) s, Ok tt).
Proof.
  intros Hdir Hname Hfetch Hreq. unfold scan_category, scan_entries.
  rewrite Hdir, Hname, Hfetch. unfold except_request. rewrite Hreq. reflexivity.
Qed.

End Catalog.


Lemma find_nothing {A : Type} (f : A -> bool) (l : list A) :
  (forall y, In y l -> f y = false) -> find f l = None.
Proof.
  induction l as [| y l IH]; intros H; cbn; [reflexivity |].
  rewrite (H y (or_introl eq_refl)). apply IH.
  intros z Hz. apply H. right. exact Hz.
Qed.

(** C9: a category whose listing request ends in a request exception is
    passed over with a warning and the loop goes on: the skills returned are
    those of the other categories, as if the failing category were not
    listed at the root. *)
Theorem C9_failing_category_skipped
    (w : world) (repo ref0 owner repo_name : string) (o : jobj)
    (category_name : string) (e : exn) :
  is_kind "dir" o = true ->
  j_name o = Some category_name ->
  fetch_json w ref0 (root_url owner repo_name ++ category_name) = Raise e ->
  is_request_exception e = true ->
  let body := scan_category w repo ref0 (root_url owner repo_name) in
  (forall s, body (JObj o) s = (say (WarnCategory category_name e) s, Ok tt))
  /\ (forall before after s,
         for_each body (before ++ JObj o :: after) s =
         match for_each body before s with
         | (s1, Ok _) => for_each body after (say (WarnCategory category_name e) s1)
         | (s1, Raise e') => (s1, Raise e')
         end)
  /\ (forall before after out,
         skills_of w (for_each body (before ++ JObj o :: after) ([], out)) =
         skills_of w (for_each body (before ++ after) ([], out)))
  /\ (forall before after out,
         unpack2 (Py.split "/" repo) = Ok (owner, repo_name) ->
         fetch_json w ref0 (root_url owner repo_name) =
           Ok (JArr (before ++ JObj o :: after)) ->
         fst (_list_github_skills w repo ref0 out) =
         skills_of w (for_each body (before ++ after) ([], out))).
Proof.
  intros Hdir Hname Hfetch Hreq body.
  assert (Hskip : forall s,
             body (JObj o) s = (say (WarnCategory category_name e) s, Ok tt)).
  { intros s. apply scan_category_request_fails; assumption. }
  assert (Hloop : forall before after s,
             for_each body (before ++ JObj o :: after) s =
             match for_each body before s with
             | (s1, Ok _) => for_each body after (say (WarnCategory category_name e) s1)
             | (s1, Raise e') => (s1, Raise e')
             end).
  { intros before after s. rewrite for_each_app.
    destruct (for_each body before s) as [s1 [[] | e']]; [| reflexivity].
    cbn [for_each]. rewrite Hskip. reflexivity. }
  assert (Hsame : forall before after out,
             skills_of w (for_each body (before ++ JObj o :: after) ([], out)) =
             skills_of w (for_each body (before ++ after) ([], out))).
  { intros before after out. rewrite Hloop, for_each_app.
    destruct (for_each body before ([], out)) as [s1 [[] | e']]; [| reflexivity].
    apply skills_of_agree, for_each_agree.
    - intros x. apply scan_category_agree.
    - reflexivity. }
  repeat split; try assumption.
  intros before after out Hrepo Hroot.
  rewrite (list_github_skills_of_root w repo ref0 owner repo_name _ out Hrepo Hroot).
  apply Hsame.
Qed.

Lemma C9_failing_category_skipped_witness :
  fst (_list_github_skills catalog_world "o/r" "main" []) =
  skills_of catalog_world
    (for_each (scan_category catalog_world "o/r" "main" (root_url "o" "r"))
       ([file_entry "README.md" "README.md" "https://raw.test/README.md";
         dir_entry "web" ""] ++ [dir_entry "data" ""])
       ([], [])).
Proof.
  refine (proj2 (proj2 (proj2
            (C9_failing_category_skipped catalog_world "o/r" "main" "o" "r"
               (mkObj (Some "dir") (Some "ops") (Some "ops") None (Some "")
                  None None None None)
               "ops" HTTPError _ _ _ _)))
            [file_entry "README.md" "README.md" "https://raw.test/README.md";
             dir_entry "web" ""]
            [dir_entry "data" ""] [] _ _);
    reflexivity.
Defined.







(** * Further properties of the code *)

(** ** Resolution of plain specs *)

Section ResolveMore.
Import Py PyFacts.

(** [join] undoes [split]: nothing of the text is lost or normalised. *)
Lemma join_split_go (s cur : string) :
  join "/" (split_go "/" None 0 cur s) = cur ++ s.
Proof.
  revert cur. induction s as [| c s IH]; intros cur.
  - cbn. now rewrite append_nil_r.
  - rewrite split_go_slash_cons. destruct (Ascii.eqb c "/") eqn:Hc.
    + apply Ascii.eqb_eq in Hc. subst c.
      pose proof (split_go_nonempty "/" None 0 "" s) as Hne.
      specialize (IH ""). unfold join in *.
      destruct (split_go "/" None 0 "" s) as [| y l]; [congruence |].
      change (String.concat "/" (cur :: y :: l))
        with (cur ++ "/" ++ String.concat "/" (y :: l)).
      rewrite IH. reflexivity.
    + rewrite IH, append_assoc. reflexivity.
Qed.

Lemma join_split (s : string) : join "/" (split "/" s) = s.
Proof. apply (join_split_go s ""). Qed.

Lemma split_two_segments (o r rest : string) :
  contains "/" o = false -> contains "/" r = false ->
  split "/" (o ++ "/" ++ r ++ "/" ++ rest) = o :: r :: split "/" rest.
Proof.
  intros Ho Hr. unfold split.
  change (o ++ "/" ++ r ++ "/" ++ rest) with (o ++ String "/" (r ++ String "/" rest)).
  rewrite (split_go_segment o _ "" Ho). cbn [append].
  rewrite (split_go_segment r _ "" Hr). reflexivity.
Qed.

(** A list of exactly two segments is its two parts around one slash. *)
Lemma split_two_inv (s o r : string) :
  split "/" s = [o; r] ->
  s = o ++ "/" ++ r /\ contains "/" o = false /\ contains "/" r = false.
Proof.
  intros H. pose proof (split_segments_no_slash s) as Hall.
  pose proof (join_split s) as Hj. rewrite H in Hall, Hj.
  inversion Hall as [| ? ? Ho Hall'].
  inversion Hall' as [| ? ? Hr _].
  split; [symmetry; exact Hj | split; assumption].
Qed.

End ResolveMore.

(** X1: a spec that is not a browser URL resolves exactly when it has three
    or more segments or the repository source (the non-empty override, else
    the default) has exactly two; the only exception is [ValueError]; and a
    successful resolution returns the ref it was given. *)
Theorem resolve_plain_succeeds_iff
    (env : environ) (spec ref0 : string) (ov : option string) :
  Py.startswith github_prefix spec = false ->
  ((exists t, resolve env spec ref0 ov = Ok t) <->
   (3 <= length (Py.split "/" spec) \/
    length (Py.split "/" (Py.or_else ov (_get_default_skills_repo env))) = 2))
  /\ (forall e, resolve env spec ref0 ov = Raise e -> e = ValueError)
  /\ (forall t, resolve env spec ref0 ov = Ok t -> t_ref t = ref0).
Proof.
  intros Hurl. rewrite (resolve_not_url env ref0 spec ov Hurl).
  set (src := Py.split "/" (Py.or_else ov (_get_default_skills_repo env))).
  assert (Hsrc : (exists o r, src = [o; r]) \/ length src <> 2).
  { destruct src as [| a [| b [| c l]]]; cbn; try (right; lia).
    left. exists a, b. reflexivity. }
  assert (Hlow : Py.contains "/" spec = false -> ~ 3 <= length (Py.split "/" spec)).
  { intros Hc. rewrite (PyFacts.split_no_slash spec Hc). cbn. lia. }
  destruct (Py.contains "/" spec) eqn:Hc;
    [destruct (Nat.leb 3 (length (Py.split "/" spec))) eqn:Hlen |].
  - apply Nat.leb_le in Hlen. repeat split.
    + intros _. left. exact Hlen.
    + intros _. eexists. reflexivity.
    + intros e H. discriminate H.
    + intros t H. inversion H. reflexivity.
  - apply Nat.leb_gt in Hlen.
    destruct Hsrc as [(o & r & E) | Hne].
    + rewrite E. cbn. repeat split.
      * intros _. right. reflexivity.
      * intros _. eexists. reflexivity.
      * intros e H. discriminate H.
      * intros t H. inversion H. reflexivity.
    + rewrite (unpack2_wrong_length src Hne). cbn. repeat split.
      * intros [t H]. discriminate H.
      * intros [H | H]; [lia | contradiction].
      * intros e H. inversion H. reflexivity.
      * intros t H. discriminate H.
  - specialize (Hlow eq_refl).
    destruct Hsrc as [(o & r & E) | Hne].
    + rewrite E. cbn. repeat split.
      * intros _. right. reflexivity.
      * intros _. eexists. reflexivity.
      * intros e H. discriminate H.
      * intros t H. inversion H. reflexivity.
    + rewrite (unpack2_wrong_length src Hne). cbn. repeat split.
      * intros [t H]. discriminate H.
      * intros [H | H]; [contradiction | contradiction].
      * intros e H. inversion H. reflexivity.
      * intros t H. discriminate H.
Qed.

Lemma resolve_plain_succeeds_iff_witness :
  ~ (exists t, resolve (Some "not-a-repo") "react-expert" "main" None = Ok t).
Proof.
  intros H.
  apply (proj1 (proj1 (resolve_plain_succeeds_iff (Some "not-a-repo") "react-expert"
                         "main" None eq_refl))) in H.
  vm_compute in H. destruct H as [H | H]; [lia | discriminate H].
Defined.

Lemma resolve_keeps_path_verbatim_aux
    (env : environ) (o r rest ref0 : string) (ov : option string) :
  Py.contains "/" o = false ->
  Py.contains "/" r = false ->
  Py.startswith github_prefix (o ++ "/" ++ r ++ "/" ++ rest) = false ->
  resolve env (o ++ "/" ++ r ++ "/" ++ rest) ref0 ov = Ok (mkTarget o r rest ref0).
Proof.
  intros Ho Hr Hurl. rewrite (resolve_not_url env ref0 _ ov Hurl).
  rewrite (split_two_segments o r rest Ho Hr).
  pose proof (PyFacts.split_go_nonempty "/" None 0 "" rest) as Hne.
  assert (Hc : Py.contains "/" (o ++ "/" ++ r ++ "/" ++ rest) = true).
  { rewrite PyFacts.contains_slash_app.
    change ("/" ++ r ++ "/" ++ rest) with (String "/" (r ++ "/" ++ rest)).
    rewrite PyFacts.contains_slash_cons. cbn. apply orb_true_r. }
  rewrite Hc. fold (Py.split "/" rest) in Hne.
  destruct (Py.split "/" rest) as [| x l] eqn:E; [congruence |].
  cbn [length Nat.leb nth skipn]. rewrite <- E, join_split. reflexivity.
Qed.

(** X2: for a spec [owner/repo/rest] that is not a browser URL, whatever
    [rest] is, the segments after the first two join back to [rest] and the
    path resolved is [rest] itself, character for character (empty segments
    and trailing slashes included); the override and the environment play
    no role. *)
Theorem resolve_keeps_path_verbatim
    (env : environ) (o r rest ref0 : string) (ov : option string) :
  Py.contains "/" o = false ->
  Py.contains "/" r = false ->
  Py.startswith github_prefix (o ++ "/" ++ r ++ "/" ++ rest) = false ->
  Py.join "/" (skipn 2 (Py.split "/" (o ++ "/" ++ r ++ "/" ++ rest))) = rest
  /\ resolve env (o ++ "/" ++ r ++ "/" ++ rest) ref0 ov = Ok (mkTarget o r rest ref0).
Proof.
  intros Ho Hr Hurl. split.
  - rewrite (split_two_segments o r rest Ho Hr). cbn [skipn].
    apply join_split.
  - apply resolve_keeps_path_verbatim_aux; assumption.
Qed.

Lemma resolve_keeps_path_verbatim_witness :
  resolve None "acme/skills/web//react-expert/" "dev" (Some "x/y") =
    Ok (mkTarget "acme" "skills" "web//react-expert/" "dev").
Proof.
  apply (resolve_keeps_path_verbatim None "acme" "skills" "web//react-expert/" "dev"
           (Some "x/y")); reflexivity.
Defined.

(** ** The catalog: what it lists and when it is empty *)

Section CatalogMore.

Variable w : world.
Variables repo ref0 : string.

Lemma except_request_skills (warning : exn -> msg) (a : scan * result unit) :
  fst (fst (except_request warning a)) = fst (fst a).
Proof.
  destruct a as [[sk lg] [u | e]]; cbn; [reflexivity |].
  destruct (is_request_exception e); reflexivity.
Qed.

(** What the handler lets through is no request exception. *)
Lemma except_request_raises (warning : exn -> msg) (a : scan * result unit)
    (s : scan) (e : exn) :
  except_request warning a = (s, Raise e) ->
  is_request_exception e = false /\ a = (s, Raise e).
Proof.
  destruct a as [s0 [u | e0]]; cbn; [discriminate |].
  destruct (is_request_exception e0) eqn:E; [discriminate |].
  intros H. inversion H; subst. split; [exact E | reflexivity].
Qed.

Lemma except_request_hard (warning : exn -> msg) (s : scan) (e : exn) :
  is_request_exception e = false ->
  except_request warning (s, Raise e) = (s, Raise e).
Proof. intros H. cbn. rewrite H. reflexivity. Qed.

Lemma scan_item_raises (category_name category_url : string) (item : json)
    (s s' : scan) (e : exn) :
  scan_item w repo ref0 category_name category_url item s = (s', Raise e) ->
  is_request_exception e = false.
Proof.
  unfold scan_item. destruct item as [o | l |]; try discriminate.
  destruct (is_kind "dir" o); try discriminate.
  destruct (j_name o) as [name |].
  - intros H. apply except_request_raises in H. tauto.
  - intros H. inversion H. reflexivity.
Qed.

Lemma for_each_raises {A : Type} (body : A -> scan -> scan * result unit) :
  (forall x s s' e, body x s = (s', Raise e) -> is_request_exception e = false) ->
  forall l s s' e,
    for_each body l s = (s', Raise e) -> is_request_exception e = false.
Proof.
  intros Hbody l. induction l as [| x l IH]; intros s s' e; cbn [for_each].
  - discriminate.
  - destruct (body x s) as [s1 [[] | e1]] eqn:E.
    + apply IH.
    + intros H. inversion H; subst. eapply Hbody, E.
Qed.

(** A loop that meets an element on which its body always raises, raises. *)
Lemma for_each_meets_raise {A : Type} (body : A -> scan -> scan * result unit)
    (l : list A) (x : A) :
  In x l ->
  (forall s, exists s' e, body x s = (s', Raise e)) ->
  forall s, exists s' e, for_each body l s = (s', Raise e).
Proof.
  intros Hin Hx. induction l as [| y l IH]; [contradiction |].
  intros s. cbn [for_each].
  destruct (body y s) as [s1 [[] | e1]] eqn:E.
  - destruct Hin as [-> | Hin].
    + destruct (Hx s) as (s' & e & E'). congruence.
    + apply IH, Hin.
  - exists s1, e1. reflexivity.
Qed.

(** A non-empty catalog was read from a repository of the form owner/repo. *)
Lemma list_github_skills_repo (out : list msg) (x : skill) :
  In x (fst (_list_github_skills w repo ref0 out)) ->
  exists owner repo_name, Py.split "/" repo = [owner; repo_name].
Proof.
  unfold _list_github_skills.
  destruct (Py.split "/" repo) as [| a [| b [| c l]]]; cbn [unpack2].
  - cbn. contradiction.
  - cbn. contradiction.
  - intros _. exists a, b. reflexivity.
  - cbn. contradiction.
Qed.

(** The entries appended by the loops are placed in their category. *)
Lemma scan_skill_placed (category_name category_url name : string) (s : scan) :
  Forall (placed_in repo) (fst s) ->
  Forall (placed_in repo)
    (fst (fst (scan_skill w repo ref0 category_name category_url name s))).
Proof.
  intros H. unfold scan_skill. cbv zeta.
  destruct (fetch_json w ref0 _) as [[o' | l |] | e]; try exact H.
  destruct (has_manifest l); [| exact H].
  destruct (api_get w _ ref0) as [md | e]; [| exact H].
  destruct (read_metadata w category_name name md) as [metadata warned].
  cbn [fst snd].
  destruct (meta_get metadata "name" name) as [n | e]; [| exact H].
  destruct (meta_get metadata "description" _) as [d | e]; [| exact H].
  destruct (meta_get metadata "version" "N/A") as [v | e]; [| exact H].
  destruct (meta_get metadata "author" "N/A") as [a | e]; [| exact H].
  cbn [bind fst]. apply Forall_app. split; [exact H |].
  constructor; [| constructor]. exists name. reflexivity.
Qed.

Lemma for_each_placed {A : Type} (body : A -> scan -> scan * result unit) :
  (forall x s, Forall (placed_in repo) (fst s) ->
               Forall (placed_in repo) (fst (fst (body x s)))) ->
  forall l s, Forall (placed_in repo) (fst s) ->
              Forall (placed_in repo) (fst (fst (for_each body l s))).
Proof.
  intros Hbody l. induction l as [| x l IH]; intros s H; [exact H |].
  cbn [for_each]. specialize (Hbody x s H).
  destruct (body x s) as [s1 [[] | e]]; [apply IH |]; exact Hbody.
Qed.

Lemma scan_category_placed (api_url : string) (category : json) (s : scan) :
  Forall (placed_in repo) (fst s) ->
  Forall (placed_in repo) (fst (fst (scan_category w repo ref0 api_url category s))).
Proof.
  intros H. unfold scan_category.
  destruct category as [o | l |]; try exact H.
  destruct (is_kind "dir" o); try exact H.
  destruct (j_name o) as [category_name |]; try exact H.
  rewrite except_request_skills. unfold scan_entries.
  destruct (fetch_json w ref0 _) as [[o' | l |] | e]; try exact H.
  apply for_each_placed; [| exact H].
  intros item s0 H0. unfold scan_item.
  destruct item as [i | l' |]; try exact H0.
  destruct (is_kind "dir" i); try exact H0.
  destruct (j_name i) as [name |]; try exact H0.
  rewrite except_request_skills. apply scan_skill_placed, H0.
Qed.

Lemma list_github_skills_placed (out : list msg) :
  Forall (placed_in repo) (fst (_list_github_skills w repo ref0 out)).
Proof.
  unfold _list_github_skills.
  destruct (unpack2 (Py.split "/" repo)) as [[owner repo_name] | e].
  - destruct (fetch_json w ref0 _) as [[o | l |] | e].
    + cbn. constructor.
    + match goal with
      | |- context [for_each ?body l ([], out)] =>
          pose proof (for_each_placed body (scan_category_placed _) l ([], out)
                        (Forall_nil _)) as H;
          destruct (for_each body l ([], out)) as [s [[] | e]]
      end.
      * cbn [fst snd] in *.
        destruct (py_sorted w (fst s)) as [skills | e] eqn:E.
        -- cbn [fst].
           apply (Permutation_Forall
                    (Permutation_sym (py_sorted_permutation w (fst s) skills E))), H.
        -- cbn. destruct (is_request_exception e); constructor.
      * cbn. destruct (is_request_exception e); constructor.
    + cbn. constructor.
    + cbn. destruct (is_request_exception e); constructor.
  - cbn. destruct (is_request_exception e); constructor.
Qed.

End CatalogMore.

Lemma repo_slash_path (o r p : string) :
  (o ++ "/" ++ r) ++ "/" ++ p = o ++ "/" ++ r ++ "/" ++ p.
Proof. rewrite PyFacts.append_assoc. reflexivity. Qed.

Lemma spec_of_found_path (repo : string) (x : skill) :
  spec_of repo x (py_str (s_name x)) = repo ++ "/" ++ found_path x.
Proof. unfold spec_of, found_path. destruct (Py.truthy (s_category x)); reflexivity. Qed.

Lemma exact_match_name (skill_name : string) (x : skill) :
  exact_match skill_name x = true -> s_name x = PStr skill_name.
Proof.
  unfold exact_match. destruct (s_name x) as [s | o]; [| discriminate].
  intros H. apply String.eqb_eq in H. now subst s.
Qed.

Lemma first_containing_some (w : world) (skill_name : string) (l : list skill)
    (x : skill) :
  first_containing w skill_name l = Ok (Some x) ->
  In x l /\ fuzzy_match w skill_name x = true.
Proof.
  induction l as [| y l IH]; cbn [first_containing]; [discriminate |].
  destruct (s_name y) as [s | o] eqn:Hy; [| discriminate].
  destruct (Py.contains _ _) eqn:Hc.
  - intros H. inversion H; subst y. split; [left; reflexivity |].
    unfold fuzzy_match. rewrite Hy. exact Hc.
  - intros H. destruct (IH H) as [Hin Hf]. split; [right; exact Hin | exact Hf].
Qed.

Lemma fuzzy_match_string (w : world) (skill_name : string) (x : skill) :
  fuzzy_match w skill_name x = true -> exists s, s_name x = PStr s.
Proof.
  unfold fuzzy_match. destruct (s_name x) as [s | o]; [| discriminate].
  intros _. exists s. reflexivity.
Qed.

(** What the lookup returns is built from an entry of the catalog that
    matches the query, and whose name is a string. *)
Lemma find_skill_by_name_entry (w : world) (skill_name ref0 : string)
    (ov : option string) (out : list msg) (spec : string) :
  let default_repo := Py.or_else ov (_get_default_skills_repo (environ_repo w)) in
  fst (_find_skill_by_name w skill_name ref0 ov out) = Some spec ->
  exists x, In x (fst (_list_github_skills w default_repo ref0 out))
            /\ (exists s, s_name x = PStr s)
            /\ (exact_match skill_name x = true \/ fuzzy_match w skill_name x = true)
            /\ spec = default_repo ++ "/" ++ found_path x.
Proof.
  intros default_repo Hfound.
  unfold _find_skill_by_name in Hfound. fold default_repo in Hfound.
  destruct (_list_github_skills w default_repo ref0 out) as [all out'] eqn:Ecat.
  cbn [fst].
  destruct (find (exact_match skill_name) all) as [x |] eqn:E1.
  - apply find_some in E1 as [Hin Hname]. exists x.
    split; [exact Hin |]. pose proof (exact_match_name _ _ Hname) as En.
    split; [exists skill_name; exact En |]. split; [left; exact Hname |].
    cbn in Hfound. inversion Hfound.
    rewrite <- spec_of_found_path, En. reflexivity.
  - destruct (first_containing w skill_name all) as [[x |] | e] eqn:E2;
      cbn in Hfound; try discriminate.
    destruct (first_containing_some w skill_name all x E2) as [Hin Hf].
    exists x. split; [exact Hin |]. split; [apply (fuzzy_match_string w _ _ Hf) |].
    split; [right; exact Hf |].
    inversion Hfound. apply spec_of_found_path.
Qed.

Lemma contains_empty (s : string) : Py.contains "" s = true.
Proof. destruct s; reflexivity. Qed.

(** X3: the [path] of every catalog entry is repository/category/directory,
    and, used as a spec, it resolves to the repository the catalog was read
    from and to the directory of the skill, whatever override or default is
    in force. *)
Theorem catalog_path_resolves
    (w : world) (repo ref0 : string) (out : list msg) (x : skill) :
  In x (fst (_list_github_skills w repo ref0 out)) ->
  exists owner repo_name dir,
    Py.split "/" repo = [owner; repo_name]
    /\ s_path x = repo ++ "/" ++ s_category x ++ "/" ++ dir
    /\ (Py.startswith github_prefix (s_path x) = false ->
        forall env ref1 ov,
          resolve env (s_path x) ref1 ov =
            Ok (mkTarget owner repo_name (s_category x ++ "/" ++ dir) ref1)).
Proof.
  intros Hin.
  destruct (list_github_skills_repo w repo ref0 out x Hin) as (o & r & Hrepo).
  pose proof (list_github_skills_placed w repo ref0 out) as Hall.
  rewrite Forall_forall in Hall. destruct (Hall x Hin) as [dir Hdir].
  exists o, r, dir. split; [exact Hrepo |]. split; [exact Hdir |].
  destruct (split_two_inv repo o r Hrepo) as (E & Ho & Hr).
  intros Hurl env ref1 ov. rewrite Hdir in *. rewrite E in *.
  rewrite repo_slash_path in *.
  apply resolve_keeps_path_verbatim_aux; assumption.
Qed.

Lemma catalog_path_resolves_witness :
  resolve None "o/r/web/react" "main" (Some "x/y") =
    Ok (mkTarget "o" "r" "web/react" "main").
Proof.
  destruct (catalog_path_resolves catalog_world "o/r" "main" []
              (mkSkill "react" "无描述" "N/A" "N/A" "web" "o/r/web/react"))
    as (owner & repo_name & dir & Hrepo & Hpath & Hres).
  - right. left. reflexivity.
  - inversion Hrepo; subst owner repo_name.
    cbn [s_path s_category] in Hpath, Hres.
    assert (Hdir : dir = "react").
    { change "o/r/web/react" with ("o/r/web/" ++ "react") in Hpath.
      change ("o/r" ++ "/" ++ "web" ++ "/" ++ dir) with ("o/r/web/" ++ dir) in Hpath.
      revert Hpath. generalize "react". intros s Hs. inversion Hs. reflexivity. }
    subst dir. apply (Hres eq_refl None "main" (Some "x/y")).
Defined.

(** X4: whatever [_find_skill_by_name] returns is the catalog's repository
    followed by the category (when not empty) and the name of a catalog
    entry whose name is a string that equals the query or, lower-cased,
    contains the lower-cased query; used as a spec it resolves to that
    repository, whatever override or default is in force at resolution. *)
Theorem found_spec_resolves
    (w : world) (skill_name ref0 : string) (ov : option string) (out : list msg)
    (spec : string) :
  let default_repo := Py.or_else ov (_get_default_skills_repo (environ_repo w)) in
  fst (_find_skill_by_name w skill_name ref0 ov out) = Some spec ->
  exists owner repo_name x,
    Py.split "/" default_repo = [owner; repo_name]
    /\ In x (fst (_list_github_skills w default_repo ref0 out))
    /\ (exists s, s_name x = PStr s)
    /\ (exact_match skill_name x = true \/ fuzzy_match w skill_name x = true)
    /\ spec = default_repo ++ "/" ++ found_path x
    /\ (Py.startswith github_prefix spec = false ->
        forall env ref1 ov1,
          resolve env spec ref1 ov1 = Ok (mkTarget owner repo_name (found_path x) ref1)).
Proof.
  intros default_repo Hfound.
  destruct (find_skill_by_name_entry w skill_name ref0 ov out spec Hfound)
    as (x & Hin & Hstr & Hmatch & Hspec).
  fold default_repo in Hin, Hspec.
  destruct (list_github_skills_repo w default_repo ref0 out x Hin) as (o & r & Hrepo).
  exists o, r, x.
  refine (conj Hrepo (conj Hin (conj Hstr (conj Hmatch (conj Hspec _))))).
  destruct (split_two_inv default_repo o r Hrepo) as (E & Ho & Hr).
  intros Hurl env ref1 ov1.
  assert (Es : spec = (o ++ "/" ++ r) ++ "/" ++ found_path x)
    by (rewrite <- E; exact Hspec).
  rewrite Es in Hurl |- *. rewrite repo_slash_path in Hurl |- *.
  apply resolve_keeps_path_verbatim_aux; assumption.
Qed.

Lemma found_spec_resolves_witness :
  exists owner repo_name x,
    Py.split "/" "o/r" = [owner; repo_name]
    /\ In x (fst (_list_github_skills catalog_world "o/r" "main" []))
    /\ (exists s, s_name x = PStr s)
    /\ (exact_match "expert" x = true \/ fuzzy_match catalog_world "expert" x = true)
    /\ "o/r/web/react-expert" = "o/r" ++ "/" ++ found_path x
    /\ (Py.startswith github_prefix "o/r/web/react-expert" = false ->
        forall env ref1 ov1,
          resolve env "o/r/web/react-expert" ref1 ov1 =
            Ok (mkTarget owner repo_name (found_path x) ref1)).
Proof.
  apply (found_spec_resolves catalog_world "expert" "main" (Some "o/r") []
           "o/r/web/react-expert").
  reflexivity.
Defined.

(** X5: the empty query is contained in every string: when no skill is
    named by the empty string and the name of the first entry of the catalog
    is a string, the lookup returns that entry.  (Lower-casing the empty
    string gives the empty string.) *)
Theorem find_empty_query_returns_first
    (w : world) (ref0 : string) (ov : option string) (out : list msg)
    (x : skill) (rest : list skill) :
  let default_repo := Py.or_else ov (_get_default_skills_repo (environ_repo w)) in
  str_lower w "" = "" ->
  fst (_list_github_skills w default_repo ref0 out) = x :: rest ->
  (forall y, In y (x :: rest) -> s_name y <> "") ->
  (exists s, s_name x = PStr s) ->
  fst (_find_skill_by_name w "" ref0 ov out) = Some (default_repo ++ "/" ++ found_path x).
Proof.
  intros default_repo Hlower Hcat Hnames [s Hs].
  unfold _find_skill_by_name. fold default_repo.
  destruct (_list_github_skills w default_repo ref0 out) as [all out'].
  cbn [fst] in Hcat. subst all.
  rewrite <- spec_of_found_path.
  rewrite (find_nothing (exact_match "") (x :: rest)).
  - cbn [first_containing]. rewrite Hs, Hlower, contains_empty.
    cbn [bind fst]. rewrite Hs. reflexivity.
  - intros y Hy. unfold exact_match.
    destruct (s_name y) as [t | o] eqn:Hy'; [| reflexivity].
    apply String.eqb_neq. intros ->. apply (Hnames y Hy). exact Hy'.
Qed.

Lemma find_empty_query_returns_first_witness :
  fst (_find_skill_by_name catalog_world "" "main" (Some "o/r") []) =
    Some "o/r/data/pandas-react".
Proof.
  apply (find_empty_query_returns_first catalog_world "main" (Some "o/r") []
           (mkSkill "pandas-react" "无描述" "N/A" "N/A" "data" "o/r/data/pandas-react")
           [mkSkill "react" "无描述" "N/A" "N/A" "web" "o/r/web/react";
            mkSkill "react-expert" "无描述" "N/A" "N/A" "web" "o/r/web/react-expert"]).
  - reflexivity.
  - reflexivity.
  - intros y [<- | [<- | [<- | []]]]; discriminate.
  - eexists. reflexivity.
Defined.

Section CatalogAborts.

Variable w : world.
Variables repo ref0 owner repo_name : string.
Hypothesis Hrepo : unpack2 (Py.split "/" repo) = Ok (owner, repo_name).

Lemma scan_category_raises (api_url : string) (category : json)
    (s s' : scan) (e : exn) :
  scan_category w repo ref0 api_url category s = (s', Raise e) ->
  is_request_exception e = false.
Proof.
  unfold scan_category. destruct category as [o | l |]; try discriminate.
  destruct (is_kind "dir" o); try discriminate.
  destruct (j_name o) as [name |].
  - intros H. apply except_request_raises in H. tauto.
  - intros H. inversion H. reflexivity.
Qed.

(** A raise in the loop over the root empties the catalog and is printed
    with its traceback. *)
Lemma list_github_skills_aborted (l : list json) (out : list msg) :
  fetch_json w ref0 (root_url owner repo_name) = Ok (JArr l) ->
  (forall s, exists s' e,
      for_each (scan_category w repo ref0 (root_url owner repo_name)) l s =
        (s', Raise e)) ->
  exists (s' : scan) (e : exn),
    is_request_exception e = false
    /\ _list_github_skills w repo ref0 out =
         ([], (snd s' ++ [ErrListFailed e; EchoTraceback e])%list).
Proof.
  intros Hroot Hloop. destruct (Hloop ([], out)) as (s' & e & E).
  pose proof (for_each_raises _ (scan_category_raises _) l _ _ _ E) as Hhard.
  exists s', e. split; [exact Hhard |].
  unfold _list_github_skills. rewrite Hrepo.
  fold (root_url owner repo_name). rewrite Hroot, E. cbn. rewrite Hhard.
  reflexivity.
Qed.

(** A category one of whose entries always makes the loop raise, raises. *)
Lemma scan_category_meets_raise (o : jobj) (category_name : string)
    (items : list json) (item : json) :
  is_kind "dir" o = true ->
  j_name o = Some category_name ->
  fetch_json w ref0 (root_url owner repo_name ++ category_name) = Ok (JArr items) ->
  In item items ->
  (forall s, exists s' e,
      scan_item w repo ref0 category_name (root_url owner repo_name ++ category_name)
        item s = (s', Raise e)) ->
  forall s, exists s' e,
    scan_category w repo ref0 (root_url owner repo_name) (JObj o) s = (s', Raise e).
Proof.
  intros Hdir Hname Hfetch Hin Hitem s.
  destruct (for_each_meets_raise _ items item Hin Hitem s) as (s' & e & E).
  pose proof (for_each_raises _ (scan_item_raises w repo ref0 category_name _)
                items _ _ _ E) as Hhard.
  exists s', e. unfold scan_category, scan_entries.
  rewrite Hdir, Hname, Hfetch, E. apply except_request_hard, Hhard.
Qed.

End CatalogAborts.

(** X7: a manifest whose front matter loads as a value that is not a
    mapping (a plain string, a list) makes the whole listing fail: the
    lookup of the name in it raises, no handler of the loops catches that,
    and the function returns the empty list. *)
Theorem scalar_front_matter_empties_catalog
    (w : world) (repo ref0 owner repo_name : string)
    (categories items skill_items : list json) (c i mo : jobj)
    (category_name name content text : string) (md : response) (out : list msg) :
  unpack2 (Py.split "/" repo) = Ok (owner, repo_name) ->
  fetch_json w ref0 (root_url owner repo_name) = Ok (JArr categories) ->
  In (JObj c) categories -> is_kind "dir" c = true -> j_name c = Some category_name ->
  fetch_json w ref0 (root_url owner repo_name ++ category_name) = Ok (JArr items) ->
  In (JObj i) items -> is_kind "dir" i = true -> j_name i = Some name ->
  fetch_json w ref0 ((root_url owner repo_name ++ category_name) ++ "/" ++ name) =
    Ok (JArr skill_items) ->
  has_manifest skill_items = true ->
  api_get w (((root_url owner repo_name ++ category_name) ++ "/" ++ name) ++ "/SKILL.md")
    ref0 = Ok md ->
  status_code md = 200 -> body md = Some (JObj mo) ->
  j_encoding mo = Some "base64" -> j_content mo = Some content ->
  b64decode w content = Ok text ->
  _parse_skill_metadata_from_content w text = YScalar ->
  exists (s' : scan) (e : exn),
    is_request_exception e = false
    /\ _list_github_skills w repo ref0 out =
         ([], (snd s' ++ [ErrListFailed e; EchoTraceback e])%list).
Proof.
  intros Hrepo Hroot Hc Hcdir Hcname Hitems Hi Hidir Hiname Hskill Hman Hmd
         Hstatus Hbody Henc Hcontent Hb64 Hparse.
  apply (list_github_skills_aborted w repo ref0 owner repo_name Hrepo categories out Hroot).
  apply (for_each_meets_raise _ categories (JObj c) Hc).
  apply (scan_category_meets_raise w repo ref0 owner repo_name c category_name
           items (JObj i) Hcdir Hcname Hitems Hi).
  intros s. unfold scan_item. rewrite Hidir, Hiname.
  assert (Hmeta : read_metadata w category_name name md = (YScalar, [])).
  { unfold read_metadata, json_of. rewrite Hstatus, Hbody. cbn [Nat.eqb bind].
    rewrite Henc, Hcontent. cbn [String.eqb Ascii.eqb Bool.eqb].
    rewrite Hb64. cbn [bind]. rewrite Hparse. reflexivity. }
  eexists. exists AttributeError.
  unfold scan_skill. cbv zeta. rewrite Hskill, Hman, Hmd, Hmeta.
  cbn [meta_get bind fst snd]. apply except_request_hard. reflexivity.
Qed.

Lemma scalar_front_matter_empties_catalog_witness :
  fst (_list_github_skills scalar_world "o/r" "main" []) = [].
Proof.
  assert (Hc : In (dir_entry "web" "") [dir_entry "web" ""])
    by (left; reflexivity).
  assert (Hi : In (dir_entry "notes" "") [dir_entry "react" ""; dir_entry "notes" ""])
    by (right; left; reflexivity).
  destruct (scalar_front_matter_empties_catalog scalar_world "o/r" "main" "o" "r"
              _ _ _ _ _ _ "web" "notes" _ _ _ []
              eq_refl eq_refl Hc eq_refl eq_refl eq_refl Hi eq_refl eq_refl
              eq_refl eq_refl eq_refl eq_refl eq_refl eq_refl eq_refl eq_refl eq_refl)
    as (s' & e & _ & E).
  rewrite E. reflexivity.
Defined.

(** X8: a skill directory that lists a manifest is entered in the catalog
    also when the manifest itself cannot be fetched (a status other than
    200): under the name of its directory, with the default description,
    version and author, and without any warning. *)
Theorem skill_without_manifest_content_listed
    (w : world) (repo ref0 category_name category_url : string) (o : jobj)
    (name : string) (skill_items : list json) (md : response) (s : scan) :
  is_kind "dir" o = true ->
  j_name o = Some name ->
  fetch_json w ref0 (category_url ++ "/" ++ name) = Ok (JArr skill_items) ->
  has_manifest skill_items = true ->
  api_get w ((category_url ++ "/" ++ name) ++ "/SKILL.md") ref0 = Ok md ->
  status_code md <> 200 ->
  scan_item w repo ref0 category_name category_url (JObj o) s =
    ((fst s ++ [mkSkill name "无描述" "N/A" "N/A" category_name
                  (repo ++ "/" ++ category_name ++ "/" ++ name)])%list,
     snd s, Ok tt).
Proof.
  intros Hdir Hname Hskill Hman Hmd Hstatus.
  unfold scan_item. rewrite Hdir, Hname.
  unfold scan_skill. cbv zeta. rewrite Hskill, Hman, Hmd.
  unfold read_metadata. apply Nat.eqb_neq in Hstatus. rewrite Hstatus.
  cbn [meta_get assoc bind fst snd except_request]. rewrite app_nil_r.
  reflexivity.
Qed.

Lemma skill_without_manifest_content_listed_witness :
  scan_item catalog_world "o/r" "main" "web" (catalog_root ++ "web")
    (dir_entry "react" "") ([], []) =
    ([mkSkill "react" "无描述" "N/A" "N/A" "web" "o/r/web/react"], [], Ok tt).
Proof.
  apply (skill_without_manifest_content_listed catalog_world "o/r" "main" "web"
           (catalog_root ++ "web")
           (mkObj (Some "dir") (Some "react") (Some "react") None (Some "")
              None None None None)
           "react"
           [file_entry "SKILL.md" "SKILL.md" "https://raw.test/SKILL.md"]
           (mkResp 404 None) ([], [])); try reflexivity.
  discriminate.
Defined.

(** ** The recursive listing keeps what it has *)

Section CollectMore.

Variable w : world.
Variable ref0 : string.

Lemma is_prefix_app (d x : path) : is_prefix d (d ++ x)%list = true.
Proof. induction d as [| a d IH]; cbn; [| rewrite String.eqb_refl]; auto. Qed.

Lemma is_prefix_trans (a b c : path) :
  is_prefix a b = true -> is_prefix b c = true -> is_prefix a c = true.
Proof.
  revert b c. induction a as [| x a IH]; intros b c Hab Hbc; [reflexivity |].
  destruct b as [| y b]; [discriminate |]. destruct c as [| z c]; [discriminate |].
  cbn in *. apply andb_true_iff in Hab as [Hxy Hab].
  apply andb_true_iff in Hbc as [Hyz Hbc].
  apply String.eqb_eq in Hxy, Hyz. subst. rewrite String.eqb_refl. cbn.
  eapply IH; eassumption.
Qed.

Local Abbreviation segments := (serves_segments w ref0).

Lemma below_pjoin (d : path) (name : string) :
  single_segment name = true -> below d (pjoin d name).
Proof.
  intros H. exists [name]. split; [reflexivity |]. split; [discriminate |].
  constructor; [exact H | constructor].
Qed.

Lemma below_deeper (d p : path) (name : string) :
  single_segment name = true -> below (pjoin d name) p -> below d p.
Proof.
  intros H (rel & -> & _ & Hrel). exists (name :: rel). unfold pjoin.
  rewrite <- app_assoc. split; [reflexivity |]. split; [discriminate |].
  constructor; assumption.
Qed.

Lemma extends_refl (local_dir : path) (files : list job) :
  extends segments local_dir files files.
Proof. exists []. split; [now rewrite app_nil_r | constructor]. Qed.

Lemma extends_trans (local_dir : path) (a b c : list job) :
  extends segments local_dir a b -> extends segments local_dir b c ->
  extends segments local_dir a c.
Proof.
  intros (m1 & -> & H1) (m2 & -> & H2). exists (m1 ++ m2)%list.
  split; [now rewrite app_assoc |].
  intros Hs. apply Forall_app. split; [apply H1 | apply H2]; exact Hs.
Qed.

Lemma extends_deeper (local_dir : path) (name : string) (a b : list job) :
  (segments -> single_segment name = true) ->
  extends segments (pjoin local_dir name) a b -> extends segments local_dir a b.
Proof.
  intros Hname (m & -> & H). exists m. split; [reflexivity |].
  intros Hs. eapply Forall_impl; [| exact (H Hs)]. intros j Hj.
  apply (below_deeper _ _ name (Hname Hs) Hj).
Qed.

Lemma collect_items_extends
    (recurse : string -> path -> list job -> list job * result unit) :
  (forall url local_dir files,
      extends segments local_dir files (fst (recurse url local_dir files))) ->
  forall items local_dir files,
    (segments ->
     forall o name, In (JObj o) items -> j_name o = Some name ->
                    single_segment name = true) ->
    extends segments local_dir files
      (fst (collect_items recurse local_dir items files)).
Proof.
  intros Hrec items. induction items as [| item rest IH]; intros local_dir files Hseg.
  - apply extends_refl.
  - assert (Hrest : segments ->
                    forall o name, In (JObj o) rest -> j_name o = Some name ->
                                   single_segment name = true).
    { intros Hs o name Hin. apply (Hseg Hs). right. exact Hin. }
    cbn [collect_items]. destruct item as [o | l |]; try apply extends_refl.
    assert (Ho : forall name, j_name o = Some name ->
                              segments -> single_segment name = true).
    { intros name Hn Hs. apply (Hseg Hs o name); [left; reflexivity | exact Hn]. }
    destruct (is_kind "file" o).
    + destruct (Py.if_truthy (j_download_url o)) as [u |]; [| apply IH, Hrest].
      destruct (j_name o) as [name |]; [| apply extends_refl].
      eapply extends_trans; [| apply IH, Hrest].
      eexists. split; [reflexivity |].
      intros Hs. constructor; [| constructor].
      apply below_pjoin, (Ho name eq_refl Hs).
    + destruct (is_kind "dir" o); [| apply IH, Hrest].
      destruct (j_name o) as [name |]; [| apply extends_refl].
      destruct (j_url o) as [url |]; [| apply extends_refl].
      pose proof (Hrec url (pjoin local_dir name) files) as Hsub.
      apply (extends_deeper _ _ _ _ (Ho name eq_refl)) in Hsub.
      destruct (recurse url (pjoin local_dir name) files) as [files' [[] | e]];
        cbn [fst] in *.
      * eapply extends_trans; [exact Hsub | apply IH, Hrest].
      * exact Hsub.
Qed.

Lemma collect_files_extends (fuel : nat) (url : string) (local_dir : path)
    (files : list job) :
  extends segments local_dir files
    (fst (_collect_files w ref0 fuel url local_dir files)).
Proof.
  revert url local_dir files. induction fuel as [| fuel IH]; intros url local_dir files.
  - apply extends_refl.
  - cbn [_collect_files]. destruct (fetch_json w ref0 url) as [items | e] eqn:Ef.
    + apply collect_items_extends; [exact IH |].
      intros Hs o name Hin Hn. apply (Hs url items o name Ef Hin Hn).
    + apply extends_refl.
Qed.

End CollectMore.

(** X9: in every world and at every depth, [_collect_files] only appends to
    the list it was given, also when it raises; and where every name the
    API serves is one path segment (no separator, not empty, neither [.]
    nor [..]), every job it appends writes strictly below the local
    directory it was called with, through segments of that kind.  (For any
    other name [local_dir / name] may lead elsewhere.) *)
Theorem collect_files_only_appends (w : world) (ref0 : string) (fuel : nat)
    (url : string) (local_dir : path) (files : list job) :
  exists more,
    fst (_collect_files w ref0 fuel url local_dir files) = (files ++ more)%list
    /\ length files <= length (fst (_collect_files w ref0 fuel url local_dir files))
    /\ (serves_segments w ref0 ->
        Forall (fun j => below local_dir (job_path j)) more).
Proof.
  destruct (collect_files_extends w ref0 fuel url local_dir files) as (more & E & H).
  exists more. rewrite E, length_app. refine (conj eq_refl (conj _ H)). lia.
Qed.

Lemma collect_files_only_appends_witness :
  Forall (fun j => below temp0 (job_path j))
    (fst (_collect_files demo_world "main" 5 demo_url temp0 [])).
Proof.
  destruct (collect_files_only_appends demo_world "main" 5 demo_url temp0 [])
    as (more & E & _ & H).
  rewrite E. apply H.
  intros url items o name Hf Hin Hn. unfold fetch_json in Hf.
  unfold demo_world, world_of in Hf. cbn [api_get] in Hf.
  unfold serve in Hf. cbn [assoc] in Hf.
  destruct (demo_url =? url); [| destruct (scripts_url =? url)];
    vm_compute in Hf; try discriminate Hf;
    inversion Hf; subst items; cbn [entries_of In] in Hin;
    repeat (destruct Hin as [Hin | Hin]; [inversion Hin; subst o;
      vm_compute in Hn; inversion Hn; reflexivity |]);
    contradiction.
Defined.

(** ** Downloads and the file system *)

Section DiskMore.

Variable w : world.

Lemma In_exists_ (p : path) (l : list path) : In p l -> exists_ p l = true.
Proof.
  intros H. unfold exists_. apply existsb_exists. exists p. split; [exact H |].
  unfold path_eqb. now rewrite is_prefix_refl.
Qed.

Lemma download_file_keeps (j : job) (l : list path) :
  incl l (snd (_download_file w j l)).
Proof.
  unfold _download_file. destruct j as [[url file] display].
  destruct (raw_get w url) as [resp | e]; [| apply incl_refl].
  destruct (raise_for_status (raw_status resp)); [| apply incl_refl].
  destruct (writable w file); cbn [snd]; unfold mkdir_parents; intros p Hp;
    rewrite ?in_app_iff; tauto.
Qed.

Lemma download_file_writes (j : job) (l : list path) :
  fst (outcome w j) = true -> In (job_path j) (snd (_download_file w j l)).
Proof.
  unfold outcome, _download_file, job_path. destruct j as [[url file] display].
  cbn [fst snd].
  destruct (raw_get w url) as [resp | e]; [| discriminate].
  destruct (raise_for_status (raw_status resp)); [| discriminate].
  destruct (writable w file); [| discriminate].
  intros _. cbn [snd]. rewrite in_app_iff. right. left. reflexivity.
Qed.

Lemma pool_step_inv (jobs : list job) (l0 : list path) (p q : pool) :
  pool_step w p q -> pool_inv w jobs l0 p -> pool_inv w jobs l0 q.
Proof.
  intros Hstep [Hkeep Hjobs].
  destruct Hstep as [j rest run dn l Hfree | pend r1 j r2 dn l];
    cbn [pending running disk] in *.
  - split; [exact Hkeep |]. intros k Hk.
    destruct (Hjobs k Hk) as [[-> | H] | [H | H]].
    + right. left. apply in_or_app. right. left. reflexivity.
    + left. exact H.
    + right. left. apply in_or_app. left. exact H.
    + right. right. exact H.
  - split.
    + intros x Hx. apply download_file_keeps, Hkeep, Hx.
    + intros k Hk. destruct (Hjobs k Hk) as [H | [H | H]].
      * left. exact H.
      * apply in_app_or in H as [H | [-> | H]].
        -- right. left. apply in_or_app. left. exact H.
        -- right. right. apply download_file_writes.
        -- right. left. apply in_or_app. right. exact H.
      * right. right. intros Hok. apply download_file_keeps, H, Hok.
Qed.

Lemma pool_steps_inv (jobs : list job) (l0 : list path) (p q : pool) :
  pool_steps w p q -> pool_inv w jobs l0 p -> pool_inv w jobs l0 q.
Proof.
  induction 1 as [p | p q r Hstep _ IH]; [trivial |].
  intros H. apply IH. eapply pool_step_inv; eassumption.
Qed.

(** After a complete run nothing is gone and every successful job has left
    its file. *)
Lemma pool_runs_disk (jobs : list job) (l : list path)
    (results : list (bool * string)) (l' : list path) :
  pool_runs w jobs l results l' ->
  incl l l'
  /\ forall j, In j jobs -> fst (outcome w j) = true -> In (job_path j) l'.
Proof.
  intros Hrun.
  assert (Hinit : pool_inv w jobs l (mkPool jobs [] [] l)).
  { split; [apply incl_refl |]. intros j Hj. left. exact Hj. }
  destruct (pool_steps_inv jobs l _ _ Hrun Hinit) as [Hkeep Hjobs].
  cbn [pending running disk] in *. split; [exact Hkeep |].
  intros j Hj Hok. destruct (Hjobs j Hj) as [[] | [[] | H]]. apply H, Hok.
Qed.

Lemma download_finish_fs (temp_dir : path) (files : list job)
    (results : list (bool * string)) (st : state) :
  fs (snd (download_finish temp_dir files results st)) = fs st.
Proof.
  unfold download_finish.
  destruct (report (length files) results 0 0 (log st)) as [[c f] out].
  destruct (Nat.ltb 0 f); cbn [fs echo];
    match goal with
    | |- context [if ?c then _ else _] => destruct c
    end; reflexivity.
Qed.

Lemma download_finish_manifest (temp_dir : path) (files : list job)
    (results : list (bool * string)) (st : state) :
  exists_ (pjoin temp_dir "SKILL.md") (fs st) = false ->
  In WarnNoManifest (log (snd (download_finish temp_dir files results st))).
Proof.
  intros H. unfold download_finish.
  destruct (report (length files) results 0 0 (log st)) as [[c f] out].
  destruct (Nat.ltb 0 f); cbn [fs echo]; rewrite H; cbn [snd log echo];
    apply in_or_app; right; left; reflexivity.
Qed.

Lemma download_prepare_ready (owner repo skill_path ref0 : string) (st : state)
    (files : list job) :
  _collect_files w ref0 (recursion_limit w) (api_base owner repo skill_path)
    (mkdtemp w (fs st)) [] = (files, Ok tt) ->
  files <> [] ->
  download_prepare w owner repo skill_path ref0 st =
    Ready (mkdtemp w (fs st)) files
      (echo (EchoFileCount (length files))
         (echo EchoAnalyzing (with_fs (fs st ++ [mkdtemp w (fs st)]) st))).
Proof.
  intros Hcollect Hne. unfold download_prepare. rewrite Hcollect.
  destruct files; [congruence | reflexivity].
Qed.

End DiskMore.

(** X10: when the listing finds at least one file, the download returns the
    temporary directory it created, whatever happens to the individual
    downloads (even if all of them fail).  At that point the directory
    exists, nothing that was on disk before has been removed, every file
    whose download was reported successful is on disk, and a missing
    manifest is reported. *)
Theorem download_returns_bundle
    (w : world) (owner repo skill_path ref0 : string) (st : state)
    (files : list job) (out : option path * state) :
  _collect_files w ref0 (recursion_limit w) (api_base owner repo skill_path)
    (mkdtemp w (fs st)) [] = (files, Ok tt) ->
  files <> [] ->
  _download_skill_from_github w owner repo skill_path ref0 st out ->
  fst out = Some (mkdtemp w (fs st))
  /\ exists_ (mkdtemp w (fs st)) (fs (snd out)) = true
  /\ incl (fs st) (fs (snd out))
  /\ (forall j, In j files -> fst (outcome w j) = true ->
                exists_ (job_path j) (fs (snd out)) = true)
  /\ (exists_ (pjoin (mkdtemp w (fs st)) "SKILL.md") (fs (snd out)) = false ->
      In WarnNoManifest (log (snd out))).
Proof.
  intros Hcollect Hne Hrun.
  pose proof (download_prepare_ready w owner repo skill_path ref0 st files Hcollect Hne)
    as Hready.
  destruct Hrun as [st' Hprep | temp_dir fl st1 results l2 Hprep Hpool].
  - rewrite Hready in Hprep. discriminate Hprep.
  - rewrite Hready in Hprep. inversion Hprep; subst temp_dir fl st1. clear Hprep.
    cbn [fs echo with_fs] in Hpool.
    destruct (pool_runs_disk w files _ results l2 Hpool) as [Hkeep Hjobs].
    rewrite download_finish_returns, download_finish_fs. cbn [fs with_fs].
    split; [reflexivity |]. split; [| split; [| split]].
    + apply In_exists_, Hkeep, in_or_app. right. left. reflexivity.
    + intros p Hp. apply Hkeep, in_or_app. left. exact Hp.
    + intros j Hj Hok. apply In_exists_, Hjobs; assumption.
    + intros Hmissing. apply download_finish_manifest. exact Hmissing.
Qed.

Lemma download_returns_bundle_witness :
  exists out,
    _download_skill_from_github broken_raw_world "o" "r" "web/demo" "main"
      (mkState [["home"]] []) out
    /\ fst out = Some temp0
    /\ exists_ temp0 (fs (snd out)) = true.
Proof.
  destruct (download_returns broken_raw_world "o" "r" "web/demo" "main"
              (mkState [["home"]] [])) as [out Hrun].
  exists out. split; [exact Hrun |].
  destruct (download_returns_bundle broken_raw_world "o" "r" "web/demo" "main"
              (mkState [["home"]] []) _ out eq_refl
              ltac:(discriminate) Hrun) as (H1 & H2 & _).
  split; assumption.
Defined.

(** ** The lines of the result loop *)

Lemma report_printed (total : nat) (results : list (bool * string))
    (completed failed : nat) (out : list msg) :
  report total results completed failed out =
    (completed + length results, failed + failures results,
     (out ++ printed total results completed)%list).
Proof.
  revert completed failed out.
  induction results as [| [success what] rest IH]; intros completed failed out.
  - cbn. now rewrite !Nat.add_0_r, app_nil_r.
  - cbn [report printed]. unfold failures in *. cbn [filter fst length].
    destruct success; cbn [negb].
    + destruct (progress_due (completed + 1) total); rewrite IH;
        (apply (f_equal2 pair);
         [apply (f_equal2 pair); lia | now rewrite <- ?app_assoc]).
    + rewrite IH. cbn [length].
      apply (f_equal2 pair);
        [apply (f_equal2 pair); lia | now rewrite <- ?app_assoc].
Qed.

Lemma printed_counts (total : nat) (results : list (bool * string)) (completed : nat) :
  length (filter is_failure_line (printed total results completed)) = failures results
  /\ length (filter is_progress_line (printed total results completed))
     <= length results - failures results
  /\ length (printed total results completed) =
     length (filter is_failure_line (printed total results completed))
     + length (filter is_progress_line (printed total results completed)).
Proof.
  revert completed.
  induction results as [| [success what] rest IH]; intros completed.
  - cbn. lia.
  - cbn [printed]. unfold failures in *. cbn [filter fst length].
    destruct (IH (completed + 1)) as (H1 & H2 & H3).
    pose proof (filter_length_le (fun r : bool * string => negb (fst r)) rest) as Hle.
    rewrite !filter_app, !length_app.
    destruct success; cbn [negb].
    + destruct (progress_due (completed + 1) total);
        cbn [filter app length is_failure_line is_progress_line]; lia.
    + cbn [filter app length is_failure_line is_progress_line]. lia.
Qed.

Lemma printed_last (total : nat) (init : list (bool * string)) (b : bool)
    (what : string) (completed : nat) :
  completed + length (init ++ [(b, what)]) = total ->
  exists before,
    printed total (init ++ [(b, what)]) completed =
      (before ++ [if b then EchoProgress total total else ErrFileFailed what])%list.
Proof.
  revert completed. induction init as [| [s d] init IH]; intros completed Htotal.
  - cbn [app length] in Htotal. cbn [app printed]. exists [].
    destruct b; [| reflexivity].
    unfold progress_due. replace (completed + 1) with total by lia.
    rewrite Nat.eqb_refl, orb_true_r. reflexivity.
  - cbn [app printed]. destruct (IH (completed + 1)) as [before E].
    { cbn [app length] in Htotal. lia. }
    rewrite E. eexists. rewrite app_assoc. reflexivity.
Qed.

Lemma progress_due_small (completed total : nat) :
  total < 20 -> progress_due completed total = true.
Proof.
  intros H. unfold progress_due.
  assert (Hq : total / 10 < 2) by (apply Nat.Div0.div_lt_upper_bound; lia).
  assert (Hm : Nat.max 1 (total / 10) = 1) by lia.
  rewrite Hm, Nat.mod_1_r. reflexivity.
Qed.

Lemma printed_small (total : nat) (results : list (bool * string)) (completed : nat) :
  total < 20 ->
  length (printed total results completed) = length results.
Proof.
  intros H. revert completed.
  induction results as [| [success what] rest IH]; intros completed; [reflexivity |].
  cbn [printed]. rewrite length_app, IH.
  destruct success; [rewrite (progress_due_small _ _ H) |]; reflexivity.
Qed.

(** X11: the result loop prints exactly one failure line per failed result
    and at most one progress line per successful one, after the lines that
    were there.  When the job that completes last succeeded, the last line
    is the progress line total/total; when it failed, the last line is its
    failure and the completion of the batch is not announced. *)
Theorem report_lines (results : list (bool * string)) (out : list msg) :
  exists more,
    report (length results) results 0 0 out =
      (length results, failures results, (out ++ more)%list)
    /\ length (filter is_failure_line more) = failures results
    /\ length (filter is_progress_line more) <= length results - failures results
    /\ length more =
       length (filter is_failure_line more) + length (filter is_progress_line more)
    /\ (forall init what,
           results = (init ++ [(true, what)])%list ->
           exists before,
             more = (before ++ [EchoProgress (length results) (length results)])%list)
    /\ (forall init what,
           results = (init ++ [(false, what)])%list ->
           exists before, more = (before ++ [ErrFileFailed what])%list).
Proof.
  exists (printed (length results) results 0).
  rewrite report_printed. cbn [Nat.add].
  destruct (printed_counts (length results) results 0) as (H1 & H2 & H3).
  repeat split; try assumption.
  - intros init what E.
    destruct (printed_last (length results) init true what 0) as [before Hb].
    { rewrite <- E. reflexivity. }
    exists before. rewrite E at 2. exact Hb.
  - intros init what E.
    destruct (printed_last (length results) init false what 0) as [before Hb].
    { rewrite <- E. reflexivity. }
    exists before. rewrite E at 2. exact Hb.
Qed.

Lemma report_lines_witness :
  exists before,
    snd (report 5 (map (outcome five_world) five_jobs) 0 0 []) =
      (before ++ [EchoProgress 5 5])%list.
Proof.
  destruct (report_lines (map (outcome five_world) five_jobs) [])
    as (more & E & _ & _ & _ & Hlast & _).
  destruct (Hlast (map (outcome five_world)
                     (map job_named ["SKILL.md"; "a.txt"; "b.txt"; "c.txt"]))
              "web/demo/d.txt" eq_refl) as [before Hb].
  exists before. change (length (map (outcome five_world) five_jobs)) with 5 in E.
  rewrite E. cbn [snd app]. exact Hb.
Defined.

(** X12: for a batch of fewer than 20 files the progress test holds at
    every completion, so that the loop prints exactly one line for each
    result, successful or not. *)
Theorem report_small_batch_prints_every_result
    (results : list (bool * string)) (out : list msg) :
  length results < 20 ->
  (forall completed, progress_due completed (length results) = true)
  /\ exists more,
       report (length results) results 0 0 out =
         (length results, failures results, (out ++ more)%list)
       /\ length more = length results.
Proof.
  intros Hsmall. split.
  - intros completed. apply progress_due_small, Hsmall.
  - exists (printed (length results) results 0).
    rewrite report_printed. split; [reflexivity |].
    apply printed_small, Hsmall.
Qed.

Lemma report_small_batch_prints_every_result_witness :
  exists more,
    report 5 (map (outcome five_world) five_jobs) 0 0 [] = (5, 1, more)
    /\ length more = 5.
Proof.
  destruct (report_small_batch_prints_every_result
              (map (outcome five_world) five_jobs) [])
    as (_ & more & E & Hlen).
  - vm_compute. lia.
  - exists more. split; [exact E | exact Hlen].
Defined.

(** ** Metadata read from the bundle *)

Section LocalMetadata.

Variable w : world.
Variable h : host.

(** What [_parse_skill_metadata] does, by the result of its [try] block. *)
Lemma parse_skill_metadata_cases (skill_file : path) (ss : session) :
  (exists y, _parse_skill_metadata w h skill_file ss = (Value y, ss))
  \/ (exists e,
        _parse_skill_metadata w h skill_file ss =
          (Value (YMap []),
           mkSession (files ss) (console ss ++ [WarnMetadataFile e])%list)).
Proof.
  unfold _parse_skill_metadata.
  match goal with
  | |- context [match ?a with Ok _ => _ | Raise _ => _ end] =>
      destruct a as [y | err]
  end.
  - left. exists y. reflexivity.
  - right. exists err. reflexivity.
Qed.

Lemma parse_skill_metadata_files (skill_file : path) (ss : session) :
  files (snd (_parse_skill_metadata w h skill_file ss)) = files ss.
Proof.
  destruct (parse_skill_metadata_cases skill_file ss) as [[y E] | [e E]];
    rewrite E; reflexivity.
Qed.

Lemma parse_skill_metadata_value (skill_file : path) (ss : session) :
  exists y, fst (_parse_skill_metadata w h skill_file ss) = Value y.
Proof.
  destruct (parse_skill_metadata_cases skill_file ss) as [[y E] | [e E]];
    rewrite E; eexists; reflexivity.
Qed.

End LocalMetadata.

(** X13: the two copies of the front-matter parser agree: on a file that
    can be read, [_parse_skill_metadata] returns what
    [_parse_skill_metadata_from_content] returns on its text; it differs
    only in printing a warning when the loader rejects the block.  On a file
    that cannot be read it returns the empty mapping with a warning.  It
    never touches the file system. *)
Theorem parse_skill_metadata_agrees
    (w : world) (h : host) (skill_file : path) (ss : session) :
  (forall content,
      read_text h skill_file = Ok content ->
      exists warned,
        _parse_skill_metadata w h skill_file ss =
          (Value (_parse_skill_metadata_from_content w content),
           mkSession (files ss) (console ss ++ warned)%list)
        /\ (warned = []
            \/ exists e,
                 warned = [WarnMetadataFile e]
                 /\ safe_load w (nth 1 (Py.splitn "---" 2 content) "") = Raise e))
  /\ (forall e,
         read_text h skill_file = Raise e ->
         _parse_skill_metadata w h skill_file ss =
           (Value (YMap []),
            mkSession (files ss) (console ss ++ [WarnMetadataFile e])%list)).
Proof.
  split.
  - intros content Hread.
    unfold _parse_skill_metadata, _parse_skill_metadata_from_content, front_matter.
    rewrite Hread. cbn [bind].
    destruct (Py.startswith "---" content).
    + destruct (Nat.leb 3 (length (Py.splitn "---" 2 content))).
      * destruct (safe_load w (nth 1 (Py.splitn "---" 2 content) "")) as [y | e] eqn:E.
        -- exists []. cbn. rewrite app_nil_r. destruct ss. split; [reflexivity | tauto].
        -- exists [WarnMetadataFile e]. cbn. split; [reflexivity |].
           right. exists e. split; reflexivity.
      * exists []. cbn. rewrite app_nil_r. destruct ss. split; [reflexivity | tauto].
    + exists []. cbn. rewrite app_nil_r. destruct ss. split; [reflexivity | tauto].
  - intros e Hread. unfold _parse_skill_metadata. rewrite Hread. reflexivity.
Qed.

Lemma parse_skill_metadata_agrees_witness :
  fst (_parse_skill_metadata offline
         (mkHost ["home"] (fun _ => Ok "---
name: demo
---
body") 1 1 (fun _ _ => []))
         (pjoin temp0 "SKILL.md") (mkSession [] [])) =
    Value (_parse_skill_metadata_from_content offline "---
name: demo
---
body").
Proof.
  destruct (proj1 (parse_skill_metadata_agrees offline
                     (mkHost ["home"] (fun _ => Ok "---
name: demo
---
body") 1 1 (fun _ _ => []))
                     (pjoin temp0 "SKILL.md") (mkSession [] []))
              "---
name: demo
---
body" eq_refl) as (warned & E & _).
  rewrite E. reflexivity.
Defined.



(** ** The installers *)

Section Paths.

Lemma is_prefix_length (d p : path) :
  is_prefix d p = true -> length d <= length p.
Proof.
  revert p. induction d as [| x d IH]; intros p H; [cbn; lia |].
  destruct p as [| y p]; [discriminate |].
  cbn in H. apply andb_true_iff in H as [_ H]. specialize (IH p H). cbn. lia.
Qed.

Lemma is_prefix_antisym (a b : path) :
  is_prefix a b = true -> is_prefix b a = true -> a = b.
Proof.
  revert b. induction a as [| x a IH]; intros b Hab Hba.
  - destruct b; [reflexivity | discriminate].
  - destruct b as [| y b]; [discriminate |].
    cbn in Hab, Hba. apply andb_true_iff in Hab as [Hxy Hab].
    apply andb_true_iff in Hba as [_ Hba]. apply String.eqb_eq in Hxy.
    subst y. f_equal. apply IH; assumption.
Qed.

(** Two prefixes of one path are prefixes of each other, one way or the
    other. *)
Lemma is_prefix_comparable (a b p : path) :
  is_prefix a p = true -> is_prefix b p = true ->
  is_prefix a b = true \/ is_prefix b a = true.
Proof.
  revert b p. induction a as [| x a IH]; intros b p Ha Hb; [left; reflexivity |].
  destruct b as [| y b]; [right; reflexivity |].
  destruct p as [| z p]; [discriminate |].
  cbn in Ha, Hb. apply andb_true_iff in Ha as [Hxz Ha].
  apply andb_true_iff in Hb as [Hyz Hb].
  apply String.eqb_eq in Hxz, Hyz. subst x y.
  cbn. rewrite String.eqb_refl. cbn. eapply IH; eassumption.
Qed.

Lemma inits_prefix (d q : path) : In q (inits d) -> is_prefix q d = true.
Proof.
  revert q. induction d as [| x d IH]; intros q H; [contradiction |].
  cbn in H. destruct H as [<- | H].
  - cbn. now rewrite String.eqb_refl.
  - apply in_map_iff in H as (q' & <- & Hq'). cbn. rewrite String.eqb_refl.
    cbn. apply IH, Hq'.
Qed.

Lemma inits_self (d : path) : d <> [] -> In d (inits d).
Proof.
  induction d as [| x d IH]; intros H; [congruence |].
  cbn. destruct d as [| y d]; [left; reflexivity |].
  right. apply in_map. apply IH. discriminate.
Qed.

Lemma exists_In (p : path) (l : list path) : exists_ p l = true -> In p l.
Proof.
  unfold exists_. intros H. apply existsb_exists in H as (q & Hq & Heq).
  unfold path_eqb in Heq. apply andb_true_iff in Heq as [H1 H2].
  rewrite (is_prefix_antisym p q H1 H2). exact Hq.
Qed.

Lemma pjoin_length (d : path) (name : string) : length (pjoin d name) = S (length d).
Proof. unfold pjoin. rewrite length_app. cbn. lia. Qed.

Lemma is_prefix_pjoin (d : path) (name : string) : is_prefix d (pjoin d name) = true.
Proof. apply is_prefix_app. Qed.

End Paths.

Section Installers.

Variables (platform_root : string) (skill_path : path) (skill_name : string)
          (install_path : path).

Local Abbreviation skills_dir := (pjoin (pjoin install_path platform_root) "skills").
Local Abbreviation dest := (pjoin skills_dir skill_name).

Hypothesis Hapart1 : is_prefix dest skill_path = false.
Hypothesis Hapart2 : is_prefix skill_path dest = false.

Lemma not_below_both (p : path) :
  is_prefix skill_path p = true -> is_prefix dest p = false.
Proof.
  intros Hs. destruct (is_prefix dest p) eqn:Hd; [| reflexivity].
  destruct (is_prefix_comparable dest skill_path p Hd Hs) as [H | H]; congruence.
Qed.

(** The file system on which the copy starts. *)
Local Abbreviation cleared l :=
  (if exists_ dest (mkdir_parents skills_dir l)
   then rmtree dest (mkdir_parents skills_dir l)
   else mkdir_parents skills_dir l).

Lemma cleared_bundle (l : list path) (p : path) :
  In p l -> is_prefix skill_path p = true -> In p (cleared l).
Proof.
  intros Hin Hs.
  assert (H1 : In p (mkdir_parents skills_dir l))
    by (unfold mkdir_parents; apply in_or_app; left; exact Hin).
  destruct (exists_ dest (mkdir_parents skills_dir l)); [| exact H1].
  apply rmtree_In. split; [exact H1 | apply not_below_both, Hs].
Qed.

Lemma cleared_outside (l : list path) (p : path) :
  In p l -> is_prefix dest p = false -> In p (cleared l).
Proof.
  intros Hin Hd.
  assert (H1 : In p (mkdir_parents skills_dir l))
    by (unfold mkdir_parents; apply in_or_app; left; exact Hin).
  destruct (exists_ dest (mkdir_parents skills_dir l)); [| exact H1].
  apply rmtree_In. split; assumption.
Qed.

Lemma cleared_no_dest (l : list path) : exists_ dest (cleared l) = false.
Proof.
  destruct (exists_ dest (mkdir_parents skills_dir l)) eqn:E; [| exact E].
  apply rmtree_gone.
Qed.

Lemma cleared_origin (l : list path) (p : path) :
  In p (cleared l) -> In p l \/ In p (inits skills_dir).
Proof.
  unfold mkdir_parents. intros H.
  destruct (exists_ dest (l ++ inits skills_dir)).
  - apply rmtree_In in H as [H _]. apply in_app_or, H.
  - apply in_app_or, H.
Qed.

Lemma skills_dir_not_below_dest (q : path) :
  In q (inits skills_dir) -> is_prefix dest q = false.
Proof.
  intros H. apply inits_prefix, is_prefix_length in H.
  destruct (is_prefix dest q) eqn:E; [| reflexivity].
  apply is_prefix_length in E. rewrite pjoin_length in E. lia.
Qed.

Lemma skills_dir_not_in_bundle (q : path) :
  In q (inits skills_dir) -> is_prefix skill_path q = false.
Proof.
  intros H. apply inits_prefix in H.
  destruct (is_prefix skill_path q) eqn:E; [| reflexivity].
  assert (Hd : is_prefix skill_path dest = true).
  { eapply is_prefix_trans; [exact E |].
    eapply is_prefix_trans; [exact H | apply is_prefix_pjoin]. }
  congruence.
Qed.

(** What the file system holds after the copy. *)
Lemma installed_files_spec (l : list path) :
  (forall p, In p l -> is_prefix dest p = true -> exists_ dest l = true) ->
  let l' := installed_files platform_root skill_path skill_name install_path l in
  (forall p, In p l -> is_prefix dest p = false -> In p l')
  /\ (forall p, In p l -> is_prefix skill_path p = true ->
                In (rebase skill_path dest p) l')
  /\ (forall q, In q l' -> is_prefix dest q = true ->
                q = dest
                \/ exists p, In p l /\ is_prefix skill_path p = true
                             /\ q = rebase skill_path dest p)
  /\ (forall q, In q l' -> is_prefix dest q = false ->
                In q l \/ is_prefix q dest = true)
  /\ exists_ dest l' = true.
Proof.
  intros Htidy l'. subst l'. unfold installed_files.
  split; [| split; [| split; [| split]]].
  - intros p Hin Hd. apply in_or_app. left. apply cleared_outside; assumption.
  - intros p Hin Hs. apply in_or_app. right. apply in_or_app. right.
    apply in_map. apply filter_In. split; [apply cleared_bundle; assumption | exact Hs].
  - intros q Hq Hd. apply in_app_or in Hq as [Hq | Hq];
      [| apply in_app_or in Hq as [Hq | Hq]].
    + exfalso. unfold mkdir_parents in Hq.
      destruct (exists_ dest (l ++ inits skills_dir)) eqn:E.
      * apply rmtree_In in Hq as [_ Hq]. congruence.
      * apply in_app_or in Hq as [Hq | Hq].
        -- assert (Hex : exists_ dest (l ++ inits skills_dir) = true).
           { apply In_exists_, in_or_app. left. apply exists_In.
             apply (Htidy q Hq Hd). }
           congruence.
        -- apply skills_dir_not_below_dest in Hq. congruence.
    + left. apply is_prefix_antisym; [apply inits_prefix, Hq | exact Hd].
    + right. apply in_map_iff in Hq as (p & <- & Hp).
      apply filter_In in Hp as [Hp Hs]. exists p.
      split; [| split; [exact Hs | reflexivity]].
      destruct (cleared_origin l p Hp) as [H | H]; [exact H |].
      apply skills_dir_not_in_bundle in H. congruence.
  - intros q Hq Hd. apply in_app_or in Hq as [Hq | Hq];
      [| apply in_app_or in Hq as [Hq | Hq]].
    + destruct (cleared_origin l q Hq) as [H | H]; [left; exact H | right].
      eapply is_prefix_trans; [apply inits_prefix, H | apply is_prefix_pjoin].
    + right. apply inits_prefix, Hq.
    + exfalso. apply in_map_iff in Hq as (p & <- & _).
      unfold rebase in Hd. rewrite is_prefix_app in Hd. discriminate.
  - apply In_exists_, in_or_app. right. apply in_or_app. left.
    apply inits_self. intros H. apply (f_equal (@length string)) in H.
    rewrite pjoin_length in H. discriminate H.
Qed.

End Installers.

Section InstallerRuns.

Variables (skill_path : path) (skill_name : string) (install_path : path)
          (metadata : yaml) (ss : session).

Hypothesis Hsrc : exists_ skill_path (files ss) = true.

Lemma install_for_claude_code_files :
  let dest := pjoin (pjoin (pjoin install_path ".claude") "skills") skill_name in
  is_prefix dest skill_path = false ->
  is_prefix skill_path dest = false ->
  exists c,
    _install_for_claude_code skill_path skill_name install_path metadata ss
    = (Value tt,
       mkSession (installed_files ".claude" skill_path skill_name install_path (files ss)) c).
Proof.
  intros dest H1 H2. apply exists_In in Hsrc.
  assert (Hb : is_prefix skill_path skill_path = true) by apply is_prefix_refl.
  pose proof (In_exists_ _ _
                (cleared_bundle ".claude" skill_path skill_name install_path H1 H2
                   (files ss) skill_path Hsrc Hb)) as E1.
  pose proof (cleared_no_dest ".claude" skill_name install_path (files ss)) as E2.
  unfold installed_files. cbv beta zeta in E1, E2.
  unfold _install_for_claude_code, div, seq, path_exists, on_files, ret, copytree, print.
  cbn [files console]. revert E1 E2.
  destruct (exists_ _ (mkdir_parents _ (files ss))); intros E1 E2;
    cbn [files console]; rewrite E1, E2; cbn [negb files console];
    match goal with |- context [if ?b then _ else _] => destruct b end;
    eexists; reflexivity.
Qed.

Lemma install_for_opencode_files :
  let dest := pjoin (pjoin (pjoin install_path ".opencode") "skills") skill_name in
  is_prefix dest skill_path = false ->
  is_prefix skill_path dest = false ->
  exists c,
    _install_for_opencode skill_path skill_name install_path metadata ss
    = (Value tt,
       mkSession (installed_files ".opencode" skill_path skill_name install_path (files ss)) c).
Proof.
  intros dest H1 H2. apply exists_In in Hsrc.
  assert (Hb : is_prefix skill_path skill_path = true) by apply is_prefix_refl.
  pose proof (In_exists_ _ _
                (cleared_bundle ".opencode" skill_path skill_name install_path H1 H2
                   (files ss) skill_path Hsrc Hb)) as E1.
  pose proof (cleared_no_dest ".opencode" skill_name install_path (files ss)) as E2.
  unfold installed_files. cbv beta zeta in E1, E2.
  unfold _install_for_opencode, div, seq, path_exists, on_files, ret, copytree, print.
  cbn [files console]. revert E1 E2.
  destruct (exists_ _ (mkdir_parents _ (files ss))); intros E1 E2;
    cbn [files console]; rewrite E1, E2; cbn [negb files console]; eexists; reflexivity.
Qed.

End InstallerRuns.

(** X15: on a supported platform, with the bundle on disk and the
    destination [install_path/<platform directory>/skills/<name>] neither
    inside the bundle nor around it, [_install_skill] returns normally and
    replaces the destination by a copy of the bundle: the destination
    exists; what was outside it is kept; every path of the bundle appears
    below it; below it there is nothing but the bundle (a previous copy is
    gone); and outside it nothing is new but its parent directories. *)
Theorem install_skill_replaces_copy
    (skill_path : path) (skill_name : string) (install_path : path)
    (platform : string) (metadata : yaml) (ss : session) :
  let dest :=
    pjoin (pjoin (pjoin install_path (platform_dir platform)) "skills") skill_name in
  platform = "claude-code" \/ platform = "opencode" ->
  single_segment skill_name = true ->
  exists_ skill_path (files ss) = true ->
  is_prefix dest skill_path = false ->
  is_prefix skill_path dest = false ->
  (forall p, In p (files ss) -> is_prefix dest p = true ->
             exists_ dest (files ss) = true) ->
  exists ss',
    _install_skill skill_path skill_name install_path platform metadata ss
      = (Value tt, ss')
    /\ exists_ dest (files ss') = true
    /\ (forall p, In p (files ss) -> is_prefix dest p = false -> In p (files ss'))
    /\ (forall p, In p (files ss) -> is_prefix skill_path p = true ->
                  In (rebase skill_path dest p) (files ss'))
    /\ (forall q, In q (files ss') -> is_prefix dest q = true ->
                  q = dest
                  \/ exists p, In p (files ss) /\ is_prefix skill_path p = true
                               /\ q = rebase skill_path dest p)
    /\ (forall q, In q (files ss') -> is_prefix dest q = false ->
                  In q (files ss) \/ is_prefix q dest = true).
Proof.
  intros dest Hplatform _ Hsrc H1 H2 Htidy.
  assert (Hrun : exists c,
             _install_skill skill_path skill_name install_path platform metadata ss
             = (Value tt,
                mkSession (installed_files (platform_dir platform) skill_path
                             skill_name install_path (files ss)) c)).
  { unfold _install_skill. subst dest.
    destruct Hplatform as [-> | ->]; cbv beta iota delta [platform_dir] in *.
    - rewrite String.eqb_refl in *.
      apply install_for_claude_code_files; assumption.
    - change ("opencode" =? "claude-code") with false in *.
      rewrite String.eqb_refl. cbv iota in *.
      apply install_for_opencode_files; assumption. }
  destruct Hrun as [c Hrun]. eexists. split; [exact Hrun |]. cbn [files].
  destruct (installed_files_spec (platform_dir platform) skill_path skill_name
              install_path H1 H2 (files ss) Htidy) as (A & B & C & D & E).
  refine (conj E (conj A (conj B (conj C D)))).
Qed.

Lemma install_skill_replaces_copy_witness :
  exists ss',
    _install_skill ["tmp"; "bundle"] "demo" ["proj"] "claude-code" (YMap []) stale_session
      = (Value tt, ss')
    /\ In ["proj"; ".claude"; "skills"; "demo"; "SKILL.md"] (files ss')
    /\ ~ In ["proj"; ".claude"; "skills"; "demo"; "old.md"] (files ss').
Proof.
  destruct (install_skill_replaces_copy ["tmp"; "bundle"] "demo" ["proj"]
              "claude-code" (YMap []) stale_session)
    as (ss' & Hrun & _ & _ & Hcopy & Hclean & _).
  - left. reflexivity.
  - reflexivity.
  - reflexivity.
  - reflexivity.
  - reflexivity.
  - intros p Hp _. reflexivity.
  - exists ss'. split; [exact Hrun |]. split.
    + apply (Hcopy ["tmp"; "bundle"; "SKILL.md"]); [| reflexivity].
      right. left. reflexivity.
    + intros Hold. destruct (Hclean _ Hold eq_refl) as [H | (p & Hp & _ & Hq)].
      * discriminate H.
      * cbn in Hp. destruct Hp as [<- | [<- | [<- | [<- | []]]]]; discriminate Hq.
Defined.

(** ** Choosing a skill: [_interactive_select_skill] and the head of [install] *)

Section Choosing.

Variables (w : world) (h : host) (repo : option string).

Local Abbreviation default_repo :=
  (Py.or_else repo (_get_default_skills_repo (environ_repo w))).
Local Abbreviation catalog := (fst (_list_github_skills w default_repo "main" [])).

Lemma seq_ext {A B : Type} (m : cmd A) (k1 k2 : A -> cmd B) (ss : session) :
  (forall a s, m ss = (Value a, s) -> k1 a s = k2 a s) ->
  seq m k1 ss = seq m k2 ss.
Proof.
  intros H. unfold seq. destruct (m ss) as [[a | code | e] s]; [| reflexivity ..].
  apply H. reflexivity.
Qed.

Lemma print_choices_prints (available : list skill) (idx : nat) (ss : session) :
  exists c, print_choices idx available ss = (Value tt, mkSession (files ss) c).
Proof.
  revert idx ss. induction available as [| x rest IH]; intros idx ss.
  - exists (console ss). destruct ss; reflexivity.
  - cbn [print_choices]. unfold seq, print.
    destruct (IH (S idx) (mkSession (files ss)
                            (console ss ++ [EchoChoice idx (py_str (s_name x))
                                             (py_str (s_description x))])))
      as [c E].
    exists c. rewrite E. reflexivity.
Qed.

Lemma interactive_select_result (ss : session) :
  exists c,
    _interactive_select_skill w h repo ss
    = (Value (chosen_spec default_repo catalog (skill_choice h)),
       mkSession (files ss) c).
Proof.
  unfold _interactive_select_skill.
  destruct (_list_github_skills w default_repo "main" []) as [available out].
  cbn [fst]. unfold seq at 1. unfold print at 1. unfold seq at 1.
  unfold print_core at 1. cbn [files console].
  destruct available as [| x0 rest].
  - unfold seq, print, ret, chosen_spec. cbn [files console length Z.of_nat].
    replace ((skill_choice h <? 1)%Z || (0 <? skill_choice h)%Z) with true
      by (symmetry; apply orb_true_iff; lia).
    eexists. reflexivity.
  - unfold seq at 1. unfold print at 1. cbn [files console]. unfold seq at 1.
    match goal with
    | |- context [print_choices 1 ?l ?s] =>
        destruct (print_choices_prints l 1 s) as [c E]; rewrite E
    end.
    unfold chosen_spec.
    destruct ((skill_choice h <? 1)%Z || (Z.of_nat (length (x0 :: rest)) <? skill_choice h)%Z).
    + unfold seq, print, ret. cbn [files console]. eexists. reflexivity.
    + destruct (nth_error (x0 :: rest) (Z.to_nat (skill_choice h - 1))) as [x |].
      * unfold seq, print, ret. cbn [files console option_map]. eexists. reflexivity.
      * unfold ret. cbn [files option_map]. eexists. reflexivity.
Qed.

Lemma chosen_spec_in_range (choice : Z) :
  chosen_spec default_repo catalog choice = None
  <-> (choice < 1)%Z \/ (Z.of_nat (length catalog) < choice)%Z.
Proof.
  unfold chosen_spec.
  destruct ((choice <? 1)%Z || (Z.of_nat (length catalog) <? choice)%Z) eqn:E.
  - split; [| reflexivity]. intros _. apply orb_true_iff in E. lia.
  - apply orb_false_iff in E. split; [| lia].
    destruct (nth_error catalog (Z.to_nat (choice - 1))) eqn:En; [discriminate |].
    apply nth_error_None in En. lia.
Qed.

Lemma chosen_spec_some (choice : Z) (spec : string) :
  chosen_spec default_repo catalog choice = Some spec ->
  exists x, nth_error catalog (Z.to_nat (choice - 1)) = Some x
            /\ spec = default_repo ++ "/" ++ found_path x.
Proof.
  unfold chosen_spec.
  destruct ((choice <? 1)%Z || (Z.of_nat (length catalog) <? choice)%Z);
    [discriminate |].
  destruct (nth_error catalog (Z.to_nat (choice - 1))) as [x |]; [| discriminate].
  cbn [option_map]. intros E. inversion E. exists x.
  split; [reflexivity | apply spec_of_found_path].
Qed.

Lemma spec_with_repo_contains_slash (a b : string) :
  Py.contains "/" (a ++ "/" ++ b) = true.
Proof.
  rewrite PyFacts.contains_slash_app.
  change ("/" ++ b) with (String "/" b).
  rewrite PyFacts.contains_slash_cons. apply orb_true_r.
Qed.

Lemma spec_with_repo_truthy (a b : string) :
  Py.if_truthy (Some (a ++ "/" ++ b)) = Some (a ++ "/" ++ b).
Proof. destruct a; reflexivity. Qed.

(** Without a spec on the command line, the head of [install] ends with the
    answer to the prompt, or by [sys.exit(1)], and does not look the name
    up. *)
Lemma install_choose_no_spec (skill_spec : option string) (ref0 : string)
    (ss : session) :
  Py.if_truthy skill_spec = None ->
  exists c,
    install_choose w h skill_spec ref0 repo ss
    = (match chosen_spec default_repo catalog (skill_choice h) with
       | Some spec => Value spec
       | None => Exit 1
       end, mkSession (files ss) c).
Proof.
  intros Hnone. unfold install_choose. rewrite Hnone.
  destruct (interactive_select_result ss) as [c E].
  unfold seq at 1 2. rewrite E.
  destruct (chosen_spec default_repo catalog (skill_choice h)) as [spec |] eqn:Ec.
  - destruct (chosen_spec_some _ _ Ec) as (x & _ & ->).
    rewrite spec_with_repo_truthy. unfold ret at 1.
    rewrite spec_with_repo_contains_slash. cbn [negb]. rewrite andb_false_r.
    cbn [andb]. unfold ret. eexists. reflexivity.
  - cbn [Py.if_truthy]. unfold seq, print, sys_exit. cbn [files console].
    eexists. reflexivity.
Qed.

End Choosing.

(** X16: [_interactive_select_skill] always returns, never exits and leaves
    the file system as it was.  It returns [None] exactly when the answer to
    the prompt is not the number of a catalog entry (always so when the
    catalog is empty); otherwise it returns the repository followed by the
    category (when not empty) and the name of the entry with that number,
    a spec that resolves to the repository the catalog was read from. *)
Theorem interactive_select_in_catalog
    (w : world) (h : host) (repo : option string) (ss : session) :
  let default_repo := Py.or_else repo (_get_default_skills_repo (environ_repo w)) in
  let catalog := fst (_list_github_skills w default_repo "main" []) in
  exists r c,
    _interactive_select_skill w h repo ss = (Value r, mkSession (files ss) c)
    /\ (r = None <->
        (skill_choice h < 1)%Z \/ (Z.of_nat (length catalog) < skill_choice h)%Z)
    /\ (forall spec, r = Some spec ->
          exists x owner repo_name,
            nth_error catalog (Z.to_nat (skill_choice h - 1)) = Some x
            /\ spec = default_repo ++ "/" ++ found_path x
            /\ Py.split "/" default_repo = [owner; repo_name]
            /\ (Py.startswith github_prefix spec = false ->
                forall env ref1 ov1,
                  resolve env spec ref1 ov1
                  = Ok (mkTarget owner repo_name (found_path x) ref1))).
Proof.
  intros default_repo catalog.
  destruct (interactive_select_result w h repo ss) as [c E].
  exists (chosen_spec default_repo catalog (skill_choice h)), c.
  split; [exact E |]. split; [apply chosen_spec_in_range |].
  intros spec Hspec.
  destruct (chosen_spec_some w repo _ _ Hspec) as (x & Hnth & Hx).
  assert (Hin : In x (fst (_list_github_skills w default_repo "main" [])))
    by (eapply nth_error_In; exact Hnth).
  destruct (list_github_skills_repo w default_repo "main" [] x Hin) as (o & r & Hrepo).
  exists x, o, r. split; [exact Hnth |]. split; [exact Hx |]. split; [exact Hrepo |].
  destruct (split_two_inv default_repo o r Hrepo) as (Er & Ho & Hr).
  intros Hurl env ref1 ov1.
  assert (Es : spec = (o ++ "/" ++ r) ++ "/" ++ found_path x)
    by (rewrite <- Er; exact Hx).
  rewrite Es in Hurl |- *. rewrite repo_slash_path in Hurl |- *.
  apply resolve_keeps_path_verbatim_aux; assumption.
Qed.

(** X17: without a spec on the command line, [install] offers the catalog
    of the branch [main], whatever [--branch] says: its head ends with the
    spec the answer to the prompt stands for in that catalog, or by
    [sys.exit(1)] when the answer stands for none; the name is not looked
    up again, and the run is the same for any two values of the branch. *)
Theorem install_choose_ignores_branch
    (w : world) (h : host) (skill_spec : option string) (repo : option string)
    (ss : session) :
  let default_repo := Py.or_else repo (_get_default_skills_repo (environ_repo w)) in
  let catalog := fst (_list_github_skills w default_repo "main" []) in
  Py.if_truthy skill_spec = None ->
  (forall ref0, exists c,
      install_choose w h skill_spec ref0 repo ss
      = (match chosen_spec default_repo catalog (skill_choice h) with
         | Some spec => Value spec
         | None => Exit 1
         end, mkSession (files ss) c))
  /\ (forall ref1 ref2,
        install_choose w h skill_spec ref1 repo ss
        = install_choose w h skill_spec ref2 repo ss).
Proof.
  intros default_repo catalog Hnone. split.
  - intros ref0. apply install_choose_no_spec, Hnone.
  - intros ref1 ref2. unfold install_choose. rewrite Hnone.
    apply seq_ext. intros spec s Hm.
    destruct (interactive_select_result w h repo ss) as [c E].
    unfold seq at 1 in Hm. rewrite E in Hm.
    destruct (chosen_spec _ _ (skill_choice h)) as [spec' |] eqn:Ec.
    + destruct (chosen_spec_some w repo _ _ Ec) as (x & _ & ->).
      rewrite spec_with_repo_truthy in Hm. unfold ret in Hm.
      match type of Hm with
      | (Value ?v, _) = _ => assert (Es : spec = v) by (inversion Hm; reflexivity)
      end.
      rewrite Es, spec_with_repo_contains_slash. cbn [negb].
      rewrite andb_false_r. reflexivity.
    + cbn [Py.if_truthy] in Hm. unfold seq, print, sys_exit in Hm. discriminate Hm.
Qed.

Lemma install_choose_ignores_branch_witness :
  install_choose catalog_world host0 None "main" (Some "o/r") (mkSession [] [])
  = install_choose catalog_world host0 None "dev" (Some "o/r") (mkSession [] []).
Proof.
  apply (proj2 (install_choose_ignores_branch catalog_world host0 None (Some "o/r")
                  (mkSession [] []) eq_refl)).
Defined.

(** ** The [install] command *)

Section ExitCodes.

Lemma exit_one_seq {A B : Type} (m : cmd A) (k : A -> cmd B) (ss : session) :
  exit_code_one (m ss) ->
  (forall a s, exit_code_one (k a s)) ->
  exit_code_one (seq m k ss).
Proof.
  unfold seq, exit_code_one. intros Hm Hk.
  destruct (m ss) as [[a | code | e] s]; cbn [fst] in *; [apply Hk | exact Hm | exact I].
Qed.

Lemma exit_one_copytree (src dst : path) (ss : session) :
  exit_code_one (copytree src dst ss).
Proof.
  unfold exit_code_one, copytree.
  destruct (negb (exists_ src (files ss))); [exact I |].
  destruct (exists_ dst (files ss)); exact I.
Qed.

Lemma exit_one_parse (w : world) (h : host) (skill_file : path) (ss : session) :
  exit_code_one (_parse_skill_metadata w h skill_file ss).
Proof.
  destruct (parse_skill_metadata_value w h skill_file ss) as [y E].
  unfold exit_code_one. rewrite E. exact I.
Qed.

Lemma exit_one_get_skill_name (w : world) (h : host) (skill_dir : path)
    (ss : session) :
  exit_code_one (_get_skill_name w h skill_dir ss).
Proof.
  unfold _get_skill_name. cbv zeta. apply exit_one_seq; [exact I |].
  intros [|] s; [| exact I].
  apply exit_one_seq; [apply exit_one_parse |].
  intros [| m |] s'; try exact I.
  destruct (py_if_truthy (assoc "name" m)); exact I.
Qed.

Lemma exit_one_div (d : path) (name : pyval) (ss : session) :
  exit_code_one (div d name ss).
Proof. destruct name; exact I. Qed.

Lemma exit_one_install_skill (skill_path : path) (skill_name : pyval)
    (install_path : path) (platform : string) (metadata : yaml) (ss : session) :
  exit_code_one (_install_skill skill_path skill_name install_path platform metadata ss).
Proof.
  unfold _install_skill.
  destruct (platform =? "claude-code"); [| destruct (platform =? "opencode")].
  - unfold _install_for_claude_code. cbv zeta.
    apply exit_one_seq; [exact I | intros _ s1].
    apply exit_one_seq; [apply exit_one_div | intros dest_skill_dir s1'].
    apply exit_one_seq; [exact I | intros present s2].
    apply exit_one_seq; [destruct present; exact I | intros _ s3].
    apply exit_one_seq; [apply exit_one_copytree | intros _ s4].
    apply exit_one_seq; [exact I | intros _ s5].
    apply exit_one_seq; [exact I | intros script s6].
    destruct script; exact I.
  - unfold _install_for_opencode. cbv zeta.
    apply exit_one_seq; [exact I | intros _ s0].
    apply exit_one_seq; [exact I | intros _ s0'].
    apply exit_one_seq; [exact I | intros _ s1].
    apply exit_one_seq; [apply exit_one_div | intros dest_skill_dir s1'].
    apply exit_one_seq; [exact I | intros present s2].
    apply exit_one_seq; [destruct present; exact I | intros _ s3].
    apply exit_one_seq; [apply exit_one_copytree | intros _ s4].
    apply exit_one_seq; [exact I | intros _ s5].
    exact I.
  - apply exit_one_seq; [exact I | intros _ s1]. reflexivity.
Qed.

Lemma exit_one_install_bundle (w : world) (h : host) (install_path : path)
    (platform : option string) (skill_temp_dir : path) (ss : session) :
  exit_code_one (install_bundle w h install_path platform skill_temp_dir ss).
Proof.
  unfold install_bundle, finally.
  match goal with
  | |- exit_code_one (let '(r, ss') := ?body ss in _) =>
      assert (Hb : exit_code_one (body ss));
      [| destruct (body ss) as [r s']; exact Hb]
  end.
  apply exit_one_seq; [apply exit_one_get_skill_name | intros skill_name s1].
  cbv zeta.
  apply exit_one_seq; [exact I | intros present s2].
  apply exit_one_seq.
  { destruct present; [exact I |].
    apply exit_one_seq; [exact I | intros _ s]. reflexivity. }
  intros _ s3.
  apply exit_one_seq; [apply exit_one_parse | intros skill_metadata s4].
  apply exit_one_seq.
  { destruct (Py.if_truthy platform); [exact I |].
    apply exit_one_seq; [exact I | intros _ s].
    apply exit_one_seq; [exact I | intros _ s'].
    apply exit_one_seq; [exact I | intros _ s'']. exact I. }
  intros p s5.
  apply exit_one_seq; [apply exit_one_install_skill | intros _ s6]. exact I.
Qed.

(** The bundle is gone when [install_bundle] is over, however it ends. *)
Lemma install_bundle_cleans (w : world) (h : host) (install_path : path)
    (platform : option string) (skill_temp_dir : path) (ss : session) :
  exists_ skill_temp_dir
    (files (snd (install_bundle w h install_path platform skill_temp_dir ss))) = false.
Proof.
  unfold install_bundle, finally.
  match goal with
  | |- context [let '(r, ss') := ?body ss in _] => destruct (body ss) as [r s']
  end.
  cbn [snd]. destruct (exists_ skill_temp_dir (files s')) eqn:E; [| exact E].
  cbn [files]. apply rmtree_gone.
Qed.

Lemma install_guard_files (r : ended unit * session) :
  files (snd (install_guard r)) = files (snd r).
Proof. destruct r as [[[] | code | e] s]; reflexivity. Qed.

Lemma install_guard_ends (r : ended unit * session) :
  exit_code_one r ->
  fst (install_guard r) = Value tt \/ fst (install_guard r) = Exit 1.
Proof.
  destruct r as [[[] | code | e] s]; unfold exit_code_one; cbn [fst install_guard].
  - left. reflexivity.
  - intros ->. right. reflexivity.
  - right. reflexivity.
Qed.

End ExitCodes.

Section Head.

Lemma keeps_seq {A B : Type} (m : cmd A) (k : A -> cmd B) (ss : session) :
  keeps_files (m ss) ss ->
  (forall a s, keeps_files (k a s) s) ->
  keeps_files (seq m k ss) ss.
Proof.
  unfold seq, keeps_files. intros [Hf Hr] Hk.
  destruct (m ss) as [[a | code | e] s]; cbn [fst snd] in *.
  - destruct (Hk a s) as [Hf' Hr']. split; [congruence | exact Hr'].
  - split; assumption.
  - contradiction.
Qed.

Lemma keeps_print (l : line) (ss : session) : keeps_files (print l ss) ss.
Proof. split; [reflexivity | exact I]. Qed.

Lemma keeps_ret {A : Type} (a : A) (ss : session) : keeps_files (ret a ss) ss.
Proof. split; [reflexivity | exact I]. Qed.

Lemma keeps_interactive_select (w : world) (h : host) (repo : option string)
    (ss : session) :
  keeps_files (_interactive_select_skill w h repo ss) ss.
Proof.
  destruct (interactive_select_result w h repo ss) as [c E]. rewrite E.
  split; [reflexivity | exact I].
Qed.

(** The head of [install] leaves the file system alone and does not
    raise. *)
Lemma keeps_install_choose (w : world) (h : host) (skill_spec : option string)
    (ref0 : string) (repo : option string) (ss : session) :
  keeps_files (install_choose w h skill_spec ref0 repo ss) ss.
Proof.
  unfold install_choose. apply keeps_seq.
  - destruct (Py.if_truthy skill_spec); [apply keeps_ret |].
    apply keeps_seq; [apply keeps_interactive_select |].
    intros selected s. destruct (Py.if_truthy selected); [apply keeps_ret |].
    apply keeps_seq; [apply keeps_print |]. intros _ s'.
    split; [reflexivity | reflexivity].
  - intros spec s.
    destruct (Py.truthy spec && negb (Py.contains "/" spec)
              && negb (Py.startswith "https://" spec));
      [| apply keeps_ret].
    destruct (_find_skill_by_name w spec ref0 repo []) as [resolved out].
    apply keeps_seq; [split; [reflexivity | exact I] |]. intros _ s'.
    destruct (Py.if_truthy resolved);
      (apply keeps_seq; [apply keeps_print | intros _ s''; apply keeps_ret]).
Qed.

End Head.

Section TempDir.

Variable w : world.

Lemma download_prepare_ready_dir (owner repo skill_path ref0 : string)
    (st st1 : state) (temp_dir : path) (files : list job) :
  download_prepare w owner repo skill_path ref0 st = Ready temp_dir files st1 ->
  temp_dir = mkdtemp w (fs st).
Proof.
  unfold download_prepare.
  destruct (_collect_files w ref0 (recursion_limit w)
              (api_base owner repo skill_path) (mkdtemp w (fs st)) [])
    as [fl [[] | e]]; [| discriminate].
  destruct fl; [discriminate |]. intros H. inversion H. reflexivity.
Qed.

(** What [_resolve_and_download_skill] returns is the directory it created;
    when it returns [None], no such directory is left. *)
Lemma resolve_and_download_temp (skill_spec ref0 : string) (ov : option string)
    (st : state) (out : option path * state) :
  exists_ (mkdtemp w (fs st)) (fs st) = false ->
  _resolve_and_download_skill w skill_spec ref0 ov st out ->
  match fst out with
  | Some t => t = mkdtemp w (fs st)
  | None => exists_ (mkdtemp w (fs st)) (fs (snd out)) = false
  end.
Proof.
  intros Hfresh H. destruct H as [e He | t out Ht Hdl].
  - cbn. exact Hfresh.
  - destruct Hdl as [st' Hprep | temp_dir fl st1 results l2 Hprep Hpool].
    + cbn [fst snd]. rewrite (download_prepare_aborted w _ _ _ _ _ _ Hprep).
      apply rmtree_gone.
    + rewrite download_finish_returns.
      apply (download_prepare_ready_dir _ _ _ _ _ _ _ _ Hprep).
Qed.

End TempDir.

(** X18: [install] ends normally or by [sys.exit(1)], never with an
    exception, and it leaves no temporary directory behind: where the
    directory [mkdtemp] hands out is new, it does not exist when the command
    is over, whether the skill was not chosen, could not be resolved or
    downloaded, failed to install, or was installed. *)
Theorem install_leaves_no_temp_dir
    (w : world) (h : host) (skill_spec : option string) (path_arg : option path)
    (platform : option string) (ref0 : string) (repo : option string)
    (ss : session) (out : ended unit * session) :
  exists_ (mkdtemp w (files ss)) (files ss) = false ->
  install w h skill_spec path_arg platform ref0 repo ss out ->
  (fst out = Value tt \/ fst out = Exit 1)
  /\ exists_ (mkdtemp w (files ss)) (files (snd out)) = false.
Proof.
  intros Hfresh H.
  pose proof (keeps_install_choose w h skill_spec ref0 repo ss) as [Hf Hr].
  destruct H as [code ss1 Hc | e ss1 Hc | spec ss1 st Hc Hdl
                 | spec ss1 t st Hc Hdl];
    rewrite Hc in Hf, Hr; cbn [fst snd] in Hf, Hr.
  - subst code. split; [right; reflexivity |]. cbn [snd]. rewrite Hf. exact Hfresh.
  - contradiction.
  - split; [right; reflexivity |]. cbn [snd after_download files].
    rewrite <- Hf in Hfresh |- *.
    apply (resolve_and_download_temp w spec ref0 repo (mkState (files ss1) []) _
             Hfresh Hdl).
  - rewrite <- Hf in Hfresh |- *.
    pose proof (resolve_and_download_temp w spec ref0 repo (mkState (files ss1) []) _
                  Hfresh Hdl) as Ht.
    cbn [fst fs] in Ht. subst t. split.
    + apply install_guard_ends, exit_one_install_bundle.
    + rewrite install_guard_files. apply install_bundle_cleans.
Qed.

Lemma install_leaves_no_temp_dir_witness :
  exists out,
    install demo_world host0 (Some "o/r/web/demo") None (Some "claude-code") "main" None
      (mkSession [] []) out
    /\ (fst out = Value tt \/ fst out = Exit 1)
    /\ exists_ temp0 (files (snd out)) = false.
Proof.
  destruct (resolve_and_download_returns demo_world "o/r/web/demo" "main" None
              (mkState [] [])) as [[[t |] st] Hrun].
  - eexists. split.
    + eapply install_downloaded; [reflexivity | exact Hrun].
    + apply (install_leaves_no_temp_dir demo_world host0 (Some "o/r/web/demo") None
               (Some "claude-code") "main" None (mkSession [] [])).
      * reflexivity.
      * eapply install_downloaded; [reflexivity | exact Hrun].
  - eexists. split.
    + eapply install_not_downloaded; [reflexivity | exact Hrun].
    + apply (install_leaves_no_temp_dir demo_world host0 (Some "o/r/web/demo") None
               (Some "claude-code") "main" None (mkSession [] [])).
      * reflexivity.
      * eapply install_not_downloaded; [reflexivity | exact Hrun].
Defined.

Section Runs.

Lemma runs_seq {A B : Type} (m : cmd A) (k : A -> cmd B) (ss : session)
    (a : A) (l : list path) (b : B) (l' : list path) :
  runs m ss a l ->
  (forall c, runs (k a) (mkSession l c) b l') ->
  runs (seq m k) ss b l'.
Proof.
  intros [c E] Hk. destruct (Hk c) as [c' E']. exists c'.
  unfold seq. rewrite E. exact E'.
Qed.

Lemma runs_ret {A : Type} (a : A) (ss : session) : runs (ret a) ss a (files ss).
Proof. exists (console ss). destruct ss; reflexivity. Qed.

Lemma runs_path_exists (p : path) (ss : session) :
  runs (path_exists p) ss (exists_ p (files ss)) (files ss).
Proof. exists (console ss). destruct ss; reflexivity. Qed.

Variables (w : world) (h : host).

(** What [_parse_skill_metadata] returns does not depend on the session. *)
Lemma parse_skill_metadata_indep (skill_file : path) (ss ss' : session) :
  fst (_parse_skill_metadata w h skill_file ss)
  = fst (_parse_skill_metadata w h skill_file ss').
Proof.
  unfold _parse_skill_metadata.
  match goal with
  | |- context [match ?a with Ok _ => _ | Raise _ => _ end] => destruct a
  end; reflexivity.
Qed.

Lemma runs_parse (skill_file : path) (ss ss' : session) (y : yaml) :
  fst (_parse_skill_metadata w h skill_file ss) = Value y ->
  runs (_parse_skill_metadata w h skill_file) ss' y (files ss').
Proof.
  intros Hy. rewrite (parse_skill_metadata_indep skill_file ss ss') in Hy.
  pose proof (parse_skill_metadata_files w h skill_file ss') as Hf.
  destruct (_parse_skill_metadata w h skill_file ss') as [r [l c]] eqn:E.
  cbn [fst snd files] in *. subst r l. exists c. exact E.
Qed.

Lemma runs_get_skill_name (skill_dir : path) (ss ss' : session)
    (m : list (string * pyval)) :
  exists_ (pjoin skill_dir "SKILL.md") (files ss') = true ->
  fst (_parse_skill_metadata w h (pjoin skill_dir "SKILL.md") ss) = Value (YMap m) ->
  runs (_get_skill_name w h skill_dir) ss' (name_of m skill_dir) (files ss').
Proof.
  intros Hex Hy. unfold _get_skill_name. cbv zeta.
  eapply runs_seq; [apply runs_path_exists |]. intros c. cbn [files]. rewrite Hex.
  eapply runs_seq; [apply (runs_parse _ ss _ _ Hy) |]. intros c'. cbn [files].
  unfold name_of. destruct (py_if_truthy (assoc "name" m)); exists c'; reflexivity.
Qed.

End Runs.

Lemma runs_install_skill (skill_path : path) (skill_name : string)
    (install_path : path) (platform : string) (metadata : yaml) (ss : session) :
  let dest :=
    pjoin (pjoin (pjoin install_path (platform_dir platform)) "skills") skill_name in
  platform = "claude-code" \/ platform = "opencode" ->
  exists_ skill_path (files ss) = true ->
  is_prefix dest skill_path = false ->
  is_prefix skill_path dest = false ->
  runs (_install_skill skill_path skill_name install_path platform metadata) ss tt
    (installed_files (platform_dir platform) skill_path skill_name install_path
       (files ss)).
Proof.
  intros dest Hplatform Hsrc H1 H2. unfold runs, _install_skill. subst dest.
  destruct Hplatform as [-> | ->]; cbv beta iota delta [platform_dir] in *.
  - rewrite String.eqb_refl in *.
    apply install_for_claude_code_files; assumption.
  - change ("opencode" =? "claude-code") with false in *.
    rewrite String.eqb_refl. cbv iota in *.
    apply install_for_opencode_files; assumption.
Qed.

Lemma platform_of_supported (h : host) (platform : option string) :
  platform = None \/ platform = Some "claude-code" \/ platform = Some "opencode" ->
  platform_of h platform = "claude-code" \/ platform_of h platform = "opencode".
Proof.
  unfold platform_of. intros [-> | [-> | ->]]; cbn.
  - destruct (platform_choice h =? 1)%Z; [left | right]; reflexivity.
  - left. reflexivity.
  - right. reflexivity.
Qed.

(** X19: a bundle without [SKILL.md] is not installed: [install] gives the
    bundle the name of its directory, prints one error, removes the bundle
    and exits with code 1, without asking for a platform and without
    touching anything else on disk. *)
Theorem install_bundle_without_manifest
    (w : world) (h : host) (install_path : path) (platform : option string)
    (skill_temp_dir : path) (ss : session) :
  exists_ (pjoin skill_temp_dir "SKILL.md") (files ss) = false ->
  _get_skill_name w h skill_temp_dir ss = (Value (PStr (last skill_temp_dir "")), ss)
  /\ install_guard (install_bundle w h install_path platform skill_temp_dir ss)
     = (Exit 1,
        mkSession
          (if exists_ skill_temp_dir (files ss)
           then rmtree skill_temp_dir (files ss) else files ss)
          (console ss ++ [ErrNoManifest])).
Proof.
  intros Hex.
  assert (Hname : _get_skill_name w h skill_temp_dir ss
                  = (Value (PStr (last skill_temp_dir "")), ss)).
  { unfold _get_skill_name, seq, path_exists. cbv zeta. rewrite Hex. reflexivity. }
  split; [exact Hname |].
  unfold install_bundle, finally. unfold seq at 1. rewrite Hname.
  unfold seq at 1. unfold path_exists at 1. rewrite Hex.
  unfold seq, print, sys_exit. cbn [files console install_guard].
  destruct (exists_ skill_temp_dir (files ss)); reflexivity.
Qed.

Lemma install_bundle_without_manifest_witness :
  install_guard
    (install_bundle offline host0 ["proj"] (Some "claude-code") temp0
       (mkSession [["proj"]; temp0; pjoin temp0 "run.sh"] []))
  = (Exit 1, mkSession [["proj"]] [ErrNoManifest]).
Proof.
  apply (proj2 (install_bundle_without_manifest offline host0 ["proj"]
                  (Some "claude-code") temp0
                  (mkSession [["proj"]; temp0; pjoin temp0 "run.sh"] []) eq_refl)).
Defined.

Lemma runs_platform (h : host) (platform : option string) (ss : session) :
  runs
    (match Py.if_truthy platform with
     | Some p => ret p
     | None =>
         print EchoChoosePlatform ;;;
         print (EchoPlatformOption 1 "claude-code") ;;;
         print (EchoPlatformOption 2 "opencode") ;;;
         ret (if (platform_choice h =? 1)%Z then "claude-code" else "opencode")
     end) ss (platform_of h platform) (files ss).
Proof.
  unfold platform_of. destruct (Py.if_truthy platform).
  - apply runs_ret.
  - unfold seq, print, ret. eexists. reflexivity.
Qed.

Lemma rebased_not_in_bundle (src dst q : path) :
  is_prefix dst src = false ->
  is_prefix src dst = false ->
  is_prefix src (rebase src dst q) = false.
Proof.
  intros H1 H2. destruct (is_prefix src (rebase src dst q)) eqn:E; [| reflexivity].
  assert (Hd : is_prefix dst (rebase src dst q) = true) by apply is_prefix_app.
  destruct (is_prefix_comparable src dst _ E Hd); congruence.
Qed.

(** X20: a bundle with a manifest whose front matter is a mapping is
    installed under the name of the front matter (the name of the bundle's
    directory when there is none), a string of one path segment, for the
    platform of the option or, when
    there is no option, for the answer to the prompt (1 is claude-code,
    every other number opencode).  With the destination and the bundle
    apart, [install] returns normally; afterwards the destination holds the
    copy of the bundle and nothing else, the bundle itself is gone, and the
    rest of the disk is as before. *)
Theorem install_bundle_installs
    (w : world) (h : host) (install_path : path) (platform : option string)
    (skill_temp_dir : path) (ss : session) (m : list (string * pyval))
    (name : string) :
  let p := platform_of h platform in
  let dest := pjoin (pjoin (pjoin install_path (platform_dir p)) "skills") name in
  exists_ (pjoin skill_temp_dir "SKILL.md") (files ss) = true ->
  fst (_parse_skill_metadata w h (pjoin skill_temp_dir "SKILL.md") ss)
    = Value (YMap m) ->
  name_of m skill_temp_dir = PStr name ->
  platform = None \/ platform = Some "claude-code" \/ platform = Some "opencode" ->
  single_segment name = true ->
  exists_ skill_temp_dir (files ss) = true ->
  is_prefix dest skill_temp_dir = false ->
  is_prefix skill_temp_dir dest = false ->
  (forall q, In q (files ss) -> is_prefix dest q = true ->
             exists_ dest (files ss) = true) ->
  exists ss',
    install_guard (install_bundle w h install_path platform skill_temp_dir ss)
      = (Value tt, ss')
    /\ files ss'
       = rmtree skill_temp_dir
           (installed_files (platform_dir p) skill_temp_dir name install_path (files ss))
    /\ exists_ dest (files ss') = true
    /\ (forall q, In q (files ss) -> is_prefix skill_temp_dir q = true ->
                  In (rebase skill_temp_dir dest q) (files ss') /\ ~ In q (files ss'))
    /\ (forall q, In q (files ss) -> is_prefix skill_temp_dir q = false ->
                  is_prefix dest q = false -> In q (files ss'))
    /\ (forall q, In q (files ss') -> is_prefix dest q = true ->
                  q = dest
                  \/ exists q0, In q0 (files ss) /\ is_prefix skill_temp_dir q0 = true
                                /\ q = rebase skill_temp_dir dest q0)
    /\ (forall q, In q (files ss') -> is_prefix dest q = false ->
                  (In q (files ss) /\ is_prefix skill_temp_dir q = false)
                  \/ is_prefix q dest = true).
Proof.
  intros p dest Hex Hy Hname Hplatform _ Hdir H1 H2 Htidy.
  pose proof (platform_of_supported h platform Hplatform) as Hp. fold p in Hp.
  destruct (installed_files_spec (platform_dir p) skill_temp_dir name install_path
              H1 H2 (files ss) Htidy) as (A & B & C & D & E).
  set (copied := installed_files (platform_dir p) skill_temp_dir name install_path
                   (files ss)) in *.
  assert (Hb : exists c,
             install_bundle w h install_path platform skill_temp_dir ss
             = (Value tt, mkSession (rmtree skill_temp_dir copied) c)).
  { unfold install_bundle, finally.
    match goal with
    | |- context [let '(r, s') := ?body ss in _] =>
        assert (Hb : runs body ss tt copied)
    end.
    { eapply runs_seq; [apply (runs_get_skill_name w h _ ss ss m Hex Hy) |].
      intros c1. cbv zeta. rewrite Hname.
      eapply runs_seq; [apply runs_path_exists |]. intros c2. cbn [files].
      rewrite Hex.
      eapply runs_seq; [exists c2; reflexivity |]. intros c3.
      eapply runs_seq; [apply (runs_parse w h _ ss _ _ Hy) |]. intros c4.
      cbn [files].
      eapply runs_seq; [apply runs_platform |]. intros c5. cbn [files].
      eapply runs_seq.
      - apply (runs_install_skill skill_temp_dir name install_path p (YMap m)
                 (mkSession (files ss) c5) Hp Hdir H1 H2).
      - intros c6. cbn [files]. eexists. reflexivity. }
    destruct Hb as [c Eb]. rewrite Eb. cbn [files console].
    assert (Hstill : exists_ skill_temp_dir copied = true).
    { apply In_exists_, A; [apply exists_In, Hdir | exact H1]. }
    rewrite Hstill. exists c. reflexivity. }
  destruct Hb as [c Eb]. rewrite Eb. eexists. split; [reflexivity |].
  cbn [files]. split; [reflexivity |].
  refine (conj _ (conj _ (conj _ (conj _ _)))).
  - apply In_exists_, rmtree_In. split; [apply exists_In, E | exact H2].
  - intros q Hq Hin. split.
    + apply rmtree_In. split; [apply B; assumption |].
      apply rebased_not_in_bundle; assumption.
    + intros Hq'. apply rmtree_In in Hq' as [_ Hq']. congruence.
  - intros q Hq Hout Hd. apply rmtree_In. split; [apply A; assumption | exact Hout].
  - intros q Hq Hd. apply rmtree_In in Hq as [Hq _]. apply (C q Hq Hd).
  - intros q Hq Hd. apply rmtree_In in Hq as [Hq Hout].
    destruct (D q Hq Hd) as [Hin | Hup]; [left; split; assumption | right; exact Hup].
Qed.

Lemma install_bundle_installs_witness :
  exists ss',
    install_guard (install_bundle named_world host_demo ["proj"] None temp0 bundle_session)
      = (Value tt, ss')
    /\ In ["proj"; ".opencode"; "skills"; "demo"; "run.sh"] (files ss')
    /\ ~ In (pjoin temp0 "run.sh") (files ss').
Proof.
  destruct (install_bundle_installs named_world host_demo ["proj"] None temp0
              bundle_session [("name", PStr "demo")] "demo")
    as (ss' & Hrun & _ & _ & Hcopy & _).
  - reflexivity.
  - reflexivity.
  - reflexivity.
  - left. reflexivity.
  - reflexivity.
  - reflexivity.
  - reflexivity.
  - reflexivity.
  - intros q _ _. reflexivity.
  - exists ss'. split; [exact Hrun |].
    apply (Hcopy (pjoin temp0 "run.sh")); [| reflexivity].
    do 5 right. left. reflexivity.
Defined.

(** ** Looking a skill up by name, and where it lies *)

Lemma append_cancel_l (a b c : string) : a ++ b = a ++ c -> b = c.
Proof.
  induction a as [| x a IH]; intros H; [exact H |].
  apply IH. inversion H. reflexivity.
Qed.

(** X21: the spec [_find_skill_by_name] returns is built from the name in
    the front matter of the entry it matched, while the entry lies in the
    directory its [path] field names: for an entry in a category, the spec
    is that path, and resolves to the directory of the skill, exactly when
    the skill is named after its directory. *)
Theorem found_spec_is_path_iff_named_after_directory
    (w : world) (skill_name ref0 : string) (ov : option string) (out : list msg)
    (spec : string) :
  let default_repo := Py.or_else ov (_get_default_skills_repo (environ_repo w)) in
  fst (_find_skill_by_name w skill_name ref0 ov out) = Some spec ->
  exists x dir,
    In x (fst (_list_github_skills w default_repo ref0 out))
    /\ s_path x = default_repo ++ "/" ++ s_category x ++ "/" ++ dir
    /\ spec = default_repo ++ "/" ++ found_path x
    /\ (Py.truthy (s_category x) = true ->
        (spec = s_path x <-> s_name x = dir)
        /\ (Py.startswith github_prefix spec = false ->
            forall env ref1 ov1 t,
              resolve env spec ref1 ov1 = Ok t ->
              (t_path t = s_category x ++ "/" ++ dir <-> s_name x = dir))).
Proof.
  intros default_repo Hfound.
  destruct (find_skill_by_name_entry w skill_name ref0 ov out spec Hfound)
    as (x & Hin & [s Hs] & _ & Hspec).
  fold default_repo in Hin, Hspec.
  pose proof (list_github_skills_placed w default_repo ref0 out) as Hall.
  rewrite Forall_forall in Hall. destruct (Hall x Hin) as [dir Hdir].
  exists x, dir. split; [exact Hin |]. split; [exact Hdir |]. split; [exact Hspec |].
  intros Hcat.
  assert (Hfp : found_path x = s_category x ++ "/" ++ s)
    by (unfold found_path; rewrite Hcat, Hs; reflexivity).
  assert (Hiff : s_category x ++ "/" ++ s = s_category x ++ "/" ++ dir
                 <-> s_name x = dir).
  { rewrite Hs. split; [| intros H; inversion H; reflexivity]. intros H.
    apply append_cancel_l in H. apply (append_cancel_l "/") in H.
    rewrite H. reflexivity. }
  split.
  - rewrite Hspec, Hdir, Hfp. rewrite <- Hiff. split.
    + intros H. apply append_cancel_l in H. apply (append_cancel_l "/") in H. exact H.
    + intros ->. reflexivity.
  - intros Hurl env ref1 ov1 t Hres.
    destruct (list_github_skills_repo w default_repo ref0 out x Hin) as (o & r & Hrepo).
    destruct (split_two_inv default_repo o r Hrepo) as (Er & Ho & Hr).
    assert (Es : spec = (o ++ "/" ++ r) ++ "/" ++ found_path x)
      by (rewrite <- Er; exact Hspec).
    rewrite Es in Hurl, Hres. rewrite repo_slash_path in Hurl, Hres.
    rewrite (resolve_keeps_path_verbatim_aux env o r (found_path x) ref1 ov1 Ho Hr Hurl)
      in Hres.
    inversion Hres. cbn [t_path]. rewrite Hfp. exact Hiff.
Qed.

Lemma found_spec_is_path_iff_named_after_directory_witness :
  exists x dir,
    In x (fst (_list_github_skills catalog_world "o/r" "main" []))
    /\ s_path x = "o/r" ++ "/" ++ s_category x ++ "/" ++ dir
    /\ "o/r/web/react-expert" = "o/r" ++ "/" ++ found_path x
    /\ (Py.truthy (s_category x) = true ->
        ("o/r/web/react-expert" = s_path x <-> s_name x = dir)
        /\ (Py.startswith github_prefix "o/r/web/react-expert" = false ->
            forall env ref1 ov1 t,
              resolve env "o/r/web/react-expert" ref1 ov1 = Ok t ->
              (t_path t = s_category x ++ "/" ++ dir <-> s_name x = dir))).
Proof.
  apply (found_spec_is_path_iff_named_after_directory catalog_world "expert" "main"
           (Some "o/r") [] "o/r/web/react-expert").
  reflexivity.
Defined.

(** ** The [info] command *)

Section InfoCommand.

Variables (w : world) (h : host).

Lemma keeps_info_head (skill_spec ref0 : string) (repo : option string)
    (ss : session) :
  keeps_files (info_head w skill_spec ref0 repo ss) ss.
Proof.
  unfold info_head.
  destruct (negb (Py.contains "/" skill_spec)); [| apply keeps_ret].
  destruct (_find_skill_by_name w skill_spec ref0 repo []) as [found out].
  apply keeps_seq; [split; [reflexivity | exact I] |]. intros _ s'.
  destruct (Py.if_truthy found); [apply keeps_ret |].
  apply keeps_seq; [apply keeps_print |]. intros _ s''.
  apply keeps_seq; [apply keeps_print |]. intros _ s'''.
  split; reflexivity.
Qed.

Lemma exit_one_get_or (metadata : yaml) (key : string) (default : pyval)
    (ss : session) :
  exit_code_one (get_or metadata key default ss).
Proof. unfold get_or. destruct (meta_get metadata key default); exact I. Qed.

Lemma exit_one_info_bundle (skill_temp_dir : path) (ss : session) :
  exit_code_one (info_bundle w h skill_temp_dir ss).
Proof.
  unfold info_bundle, finally.
  match goal with
  | |- exit_code_one (let '(r, ss') := ?body ss in _) =>
      assert (Hb : exit_code_one (body ss));
      [| destruct (body ss) as [r s']; exact Hb]
  end.
  apply exit_one_seq; [apply exit_one_get_skill_name | intros skill_name s1].
  cbv zeta.
  apply exit_one_seq; [exact I | intros present s2].
  apply exit_one_seq.
  { destruct present; [exact I |].
    apply exit_one_seq; [exact I | intros _ s]. reflexivity. }
  intros _ s3.
  apply exit_one_seq; [apply exit_one_parse | intros metadata s4].
  apply exit_one_seq; [apply exit_one_get_or | intros name s5].
  apply exit_one_seq; [apply exit_one_get_or | intros description s6].
  apply exit_one_seq; [apply exit_one_get_or | intros version s7].
  apply exit_one_seq; [apply exit_one_get_or | intros author s8].
  apply exit_one_seq; [exact I | intros _ s9]. exact I.
Qed.

Lemma info_bundle_cleans (skill_temp_dir : path) (ss : session) :
  exists_ skill_temp_dir (files (snd (info_bundle w h skill_temp_dir ss))) = false.
Proof.
  unfold info_bundle, finally.
  match goal with
  | |- context [let '(r, ss') := ?body ss in _] => destruct (body ss) as [r s']
  end.
  cbn [snd]. destruct (exists_ skill_temp_dir (files s')) eqn:E; [| exact E].
  cbn [files]. apply rmtree_gone.
Qed.

Lemma info_guard_files (r : ended unit * session) :
  files (snd (info_guard r)) = files (snd r).
Proof. destruct r as [[[] | code | e] s]; reflexivity. Qed.

Lemma info_guard_ends (r : ended unit * session) :
  exit_code_one r ->
  fst (info_guard r) = Value tt \/ fst (info_guard r) = Exit 1.
Proof.
  destruct r as [[[] | code | e] s]; unfold exit_code_one; cbn [fst info_guard].
  - left. reflexivity.
  - intros ->. right. reflexivity.
  - right. reflexivity.
Qed.

End InfoCommand.

Lemma no_slash_not_https (s : string) :
  Py.contains "/" s = false -> Py.startswith "https://" s = false.
Proof.
  intros Hc. destruct (Py.startswith "https://" s) eqn:E; [| reflexivity].
  destruct (PyFacts.prefix_app _ _ E) as [rest ->].
  change ("https://" ++ rest) with ("https:" ++ String "/" ("/" ++ rest)) in Hc.
  rewrite PyFacts.contains_slash_app, PyFacts.contains_slash_cons in Hc.
  rewrite orb_true_r in Hc. discriminate Hc.
Qed.

Lemma no_slash_not_url (s : string) :
  Py.contains "/" s = false -> Py.startswith github_prefix s = false.
Proof.
  intros Hc. destruct (Py.startswith github_prefix s) eqn:E; [| reflexivity].
  rewrite (PyFacts.url_contains_slash s E) in Hc. discriminate Hc.
Qed.

(** X22: a name without a slash that the lookup does not find ends [info]
    at once, by [sys.exit(1)], with an error that shows [None] in place of
    the name (the variable was overwritten by the result of the lookup) and
    with the file system untouched; [install] prints a warning with the
    name and goes on to download the directory of that name at the root of
    the repository in force. *)
Theorem unknown_name_info_stops_install_goes_on
    (w : world) (h : host) (name ref0 : string) (repo : option string)
    (ss : session) :
  let out := snd (_find_skill_by_name w name ref0 repo []) in
  Py.contains "/" name = false ->
  Py.truthy name = true ->
  fst (_find_skill_by_name w name ref0 repo []) = None ->
  info_head w name ref0 repo ss
  = (Exit 1,
     mkSession (files ss)
       ((console ss ++ map Core out) ++ [ErrInfoNotFound None; HintUseList]))
  /\ install_choose w h (Some name) ref0 repo ss
     = (Value name,
        mkSession (files ss) ((console ss ++ map Core out) ++ [WarnNotFound name]))
  /\ (forall o r,
        Py.split "/" (Py.or_else repo (_get_default_skills_repo (environ_repo w)))
          = [o; r] ->
        resolve (environ_repo w) name ref0 repo = Ok (mkTarget o r name ref0)).
Proof.
  intros out Hslash Htruthy Hnone. subst out.
  split; [| split].
  - unfold info_head. rewrite Hslash. cbn [negb].
    destruct (_find_skill_by_name w name ref0 repo []) as [found out].
    cbn [fst snd] in *. subst found.
    unfold seq, print_core, print, sys_exit. cbn [Py.if_truthy files console].
    rewrite <- (app_assoc _ [ErrInfoNotFound None] [HintUseList]). reflexivity.
  - unfold install_choose. cbn [Py.if_truthy]. rewrite Htruthy.
    unfold seq at 1. unfold ret at 1.
    rewrite Htruthy, Hslash, (no_slash_not_https name Hslash). cbn [negb andb].
    destruct (_find_skill_by_name w name ref0 repo []) as [found out].
    cbn [fst snd] in *. subst found.
    unfold seq, print_core, print, ret. cbn [Py.if_truthy files console].
    reflexivity.
  - intros o r Hrepo.
    rewrite (resolve_not_url (environ_repo w) ref0 name repo (no_slash_not_url name Hslash)).
    rewrite Hslash, Hrepo. reflexivity.
Qed.

Lemma unknown_name_info_stops_install_goes_on_witness :
  info_head catalog_world "vue" "main" (Some "o/r") (mkSession [] [])
  = (Exit 1,
     mkSession []
       (([] ++ map Core (snd (_find_skill_by_name catalog_world "vue" "main"
                                (Some "o/r") [])))
        ++ [ErrInfoNotFound None; HintUseList])).
Proof.
  apply (proj1 (unknown_name_info_stops_install_goes_on catalog_world host0 "vue"
                  "main" (Some "o/r") (mkSession [] []) eq_refl eq_refl eq_refl)).
Defined.

(** X23: [info] ends normally or by [sys.exit(1)], never with an exception,
    and it leaves no temporary directory behind: where the directory
    [mkdtemp] hands out is new, it does not exist when the command is over,
    whether the name was not found, the skill could not be resolved or
    downloaded, its manifest was missing or unusable, or it was shown. *)
Theorem info_leaves_no_temp_dir
    (w : world) (h : host) (skill_spec : string) (repo : option string)
    (ref0 : string) (ss : session) (out : ended unit * session) :
  exists_ (mkdtemp w (files ss)) (files ss) = false ->
  info w h skill_spec repo ref0 ss out ->
  (fst out = Value tt \/ fst out = Exit 1)
  /\ exists_ (mkdtemp w (files ss)) (files (snd out)) = false.
Proof.
  intros Hfresh H.
  pose proof (keeps_info_head w skill_spec ref0 repo ss) as [Hf Hr].
  destruct H as [code ss1 Hc | e ss1 Hc | spec ss1 st Hc Hdl
                 | spec ss1 t st Hc Hdl];
    rewrite Hc in Hf, Hr; cbn [fst snd] in Hf, Hr.
  - subst code. split; [right; reflexivity |]. cbn [snd]. rewrite Hf. exact Hfresh.
  - contradiction.
  - split; [right; reflexivity |]. cbn [snd after_download files].
    rewrite <- Hf in Hfresh |- *.
    apply (resolve_and_download_temp w spec ref0 repo (mkState (files ss1) []) _
             Hfresh Hdl).
  - rewrite <- Hf in Hfresh |- *.
    pose proof (resolve_and_download_temp w spec ref0 repo (mkState (files ss1) []) _
                  Hfresh Hdl) as Ht.
    cbn [fst fs] in Ht. subst t. split.
    + apply info_guard_ends, exit_one_info_bundle.
    + rewrite info_guard_files. apply info_bundle_cleans.
Qed.

Lemma info_leaves_no_temp_dir_witness :
  exists out,
    info demo_world host0 "o/r/web/demo" None "main" (mkSession [] []) out
    /\ (fst out = Value tt \/ fst out = Exit 1)
    /\ exists_ temp0 (files (snd out)) = false.
Proof.
  destruct (resolve_and_download_returns demo_world "o/r/web/demo" "main" None
              (mkState [] [])) as [[[t |] st] Hrun].
  - eexists. split.
    + eapply info_downloaded; [reflexivity | exact Hrun].
    + apply (info_leaves_no_temp_dir demo_world host0 "o/r/web/demo" None "main"
               (mkSession [] [])).
      * reflexivity.
      * eapply info_downloaded; [reflexivity | exact Hrun].
  - eexists. split.
    + eapply info_not_downloaded; [reflexivity | exact Hrun].
    + apply (info_leaves_no_temp_dir demo_world host0 "o/r/web/demo" None "main"
               (mkSession [] [])).
      * reflexivity.
      * eapply info_not_downloaded; [reflexivity | exact Hrun].
Defined.

(** ** The [list] command *)

Lemma print_skills_prints (l : list skill) (ss : session) :
  print_skills l ss
  = (Value tt, mkSession (files ss) (console ss ++ map entry_of l)).
Proof.
  revert ss. induction l as [| x l IH]; intros ss.
  - cbn. rewrite app_nil_r. destruct ss; reflexivity.
  - cbn [print_skills map]. unfold seq, print. rewrite IH. cbn [files console].
    rewrite <- app_assoc. reflexivity.
Qed.

Lemma list_github_skills_bad_repo (w : world) (repo ref0 : string) (out : list msg) :
  length (Py.split "/" repo) <> 2 ->
  fst (_list_github_skills w repo ref0 out) = [].
Proof.
  intros H. unfold _list_github_skills.
  rewrite (unpack2_wrong_length _ H). cbn. reflexivity.
Qed.

(** X24: [list_cmd] leaves the file system untouched and ends normally,
    but for one case.  Its first line is the line that names the repository,
    also with [--json], followed by what the listing printed.  When the
    catalog is empty it then prints that no skill was found, in both modes;
    this is what happens when the repository is not of the form owner/repo
    or when its root cannot be listed.  Otherwise, without [--json] it
    prints the number of skills and one entry per skill in the order of the
    catalog, each with the command that installs it by category and name;
    with [--json] it prints the catalog as one JSON document when every
    value of the front matter can be serialised, and when one cannot (a
    date) it prints the error and ends by [sys.exit(1)]. *)
Theorem list_cmd_outcomes
    (w : world) (output_json : bool) (repo : option string) (ref0 : string)
    (ss : session) :
  let default_repo := Py.or_else repo (_get_default_skills_repo (environ_repo w)) in
  let catalog := fst (_list_github_skills w default_repo ref0 []) in
  let out := snd (_list_github_skills w default_repo ref0 []) in
  let head := ((console ss ++ [EchoListFetching default_repo ref0]) ++ map Core out)%list in
  (catalog = [] ->
   list_cmd w output_json repo ref0 ss
   = (Value tt, mkSession (files ss) (head ++ [EchoNoSkills])%list))
  /\ (catalog <> [] -> output_json = false ->
      list_cmd w output_json repo ref0 ss
      = (Value tt,
         mkSession (files ss)
           (head ++ EchoFoundCount (length catalog) :: map entry_of catalog)%list))
  /\ (catalog <> [] -> output_json = true ->
      forallb skill_json catalog = true ->
      list_cmd w output_json repo ref0 ss
      = (Value tt, mkSession (files ss) (head ++ [EchoJson catalog])%list))
  /\ (catalog <> [] -> output_json = true ->
      forallb skill_json catalog = false ->
      list_cmd w output_json repo ref0 ss
      = (Exit 1, mkSession (files ss) (head ++ [ErrInstall TypeError])%list))
  /\ (length (Py.split "/" default_repo) <> 2 -> catalog = [])
  /\ (forall owner repo_name e,
        Py.split "/" default_repo = [owner; repo_name] ->
        fetch_json w ref0 (root_url owner repo_name) = Raise e ->
        catalog = [])
  /\ files (snd (list_cmd w output_json repo ref0 ss)) = files ss
  /\ (fst (list_cmd w output_json repo ref0 ss) = Value tt
      \/ fst (list_cmd w output_json repo ref0 ss) = Exit 1).
Proof.
  intros default_repo catalog out head.
  assert (Hrun :
    list_cmd w output_json repo ref0 ss
    = match catalog with
      | [] => (Value tt, mkSession (files ss) (head ++ [EchoNoSkills])%list)
      | _ :: _ =>
          if output_json then
            if forallb skill_json catalog
            then (Value tt, mkSession (files ss) (head ++ [EchoJson catalog])%list)
            else (Exit 1, mkSession (files ss) (head ++ [ErrInstall TypeError])%list)
          else
            (Value tt,
             mkSession (files ss)
               (head ++ EchoFoundCount (length catalog) :: map entry_of catalog)%list)
      end).
  { unfold list_cmd. cbv zeta. fold default_repo. subst head catalog out.
    destruct (_list_github_skills w default_repo ref0 []) as [available lg].
    cbn [fst snd]. unfold seq at 1. unfold print at 1. unfold seq at 1.
    unfold print_core at 1. cbn [files console].
    destruct available as [| x0 rest]; [reflexivity |].
    destruct output_json.
    - destruct (forallb skill_json (x0 :: rest)); reflexivity.
    - unfold seq, print. rewrite print_skills_prints. cbn [files console info_guard].
      rewrite <- app_assoc. reflexivity. }
  refine (conj _ (conj _ (conj _ (conj _ (conj _ (conj _ (conj _ _))))))).
  - intros Hc. rewrite Hrun, Hc. reflexivity.
  - intros Hc ->. rewrite Hrun. destruct catalog; [congruence | reflexivity].
  - intros Hc -> Hj. rewrite Hrun, Hj. destruct catalog; [congruence | reflexivity].
  - intros Hc -> Hj. rewrite Hrun, Hj. destruct catalog; [congruence | reflexivity].
  - apply list_github_skills_bad_repo.
  - intros owner repo_name e Hrepo Hroot.
    apply (list_github_skills_root_fails w default_repo ref0 owner repo_name e []);
      [rewrite Hrepo; reflexivity | exact Hroot].
  - rewrite Hrun. destruct catalog; [reflexivity |].
    destruct output_json; [destruct (forallb skill_json _) |]; reflexivity.
  - rewrite Hrun. destruct catalog; [left; reflexivity |].
    destruct output_json; [destruct (forallb skill_json _) |];
      [left | right | left]; reflexivity.
Qed.

Lemma list_cmd_outcomes_witness :
  fst (list_cmd dated_world false (Some "o/r") "main" (mkSession [] [])) = Value tt
  /\ fst (list_cmd dated_world true (Some "o/r") "main" (mkSession [] [])) = Exit 1.
Proof.
  split.
  - rewrite (proj1 (proj2 (list_cmd_outcomes dated_world false (Some "o/r") "main"
                             (mkSession [] []))));
      [reflexivity | discriminate | reflexivity].
  - rewrite (proj1 (proj2 (proj2 (proj2 (list_cmd_outcomes dated_world true (Some "o/r")
                                           "main" (mkSession [] []))))));
      [reflexivity | discriminate | reflexivity | reflexivity].
Defined.

